(** * TextureCache: the live registry, the fallback table and the decode task

    A shallow embedding of [libraries/model-networking/src/model-networking/
    TextureCache.cpp].  Shared pointers are object identifiers into a store of
    live textures, weak pointers are identifiers that may have outlived their
    object, and every member function is a state-passing function over the
    objects it touches. *)

From Stdlib Require Import ZArith Ascii Rbase Rfunctions R_sqrt Lra Lia Floats.SpecFloat.
From stdpp Require Import base option list gmap strings.

Set Default Proof Using "Type".

(** ** Pointers and the texture store *)

(** [std::shared_ptr<gpu::Texture>]: [None] is [nullptr]. *)
Definition TexId := positive.
Abbreviation TexturePointer := (option TexId).
(** [std::weak_ptr<gpu::Texture>]: [None] is the empty weak pointer; [Some id]
    may name an object that has been destroyed since. *)
Abbreviation WeakPointer := (option TexId).

(** [QByteArray] and raw bytes. *)
Abbreviation QByteArray := (list Z).

(** [ktx::KTX]: the in-memory container; only its [_storage] is read here. *)
Record KTX := mkKTX { _storage : QByteArray }.

(** [gpu::Element], as far as this file names one. *)
Inductive Element := COLOR_RGBA_32 | OTHER_ELEMENT (tag : Z).

(** [gpu::Texture], restricted to what this file sets or reads. *)
Record Texture := mkTexture {
  texelFormat : Element;
  width : Z;
  height : Z;
  strictTexture : bool;
  source : string;
  storedMipFormat : option Element;
  storedMip0 : QByteArray;
  fallbackTexture : TexturePointer;
  ktxBacking : option KTX
}.

Definition setSource (s : string) (t : Texture) : Texture :=
  mkTexture (texelFormat t) (width t) (height t) (strictTexture t) s
            (storedMipFormat t) (storedMip0 t) (fallbackTexture t) (ktxBacking t).

Definition setStoredMipFormat (f : Element) (t : Texture) : Texture :=
  mkTexture (texelFormat t) (width t) (height t) (strictTexture t) (source t)
            (Some f) (storedMip0 t) (fallbackTexture t) (ktxBacking t).

(** [assignStoredMip(0, size, data)]: the first [size] bytes of [data]. *)
Definition assignStoredMip0 (size : nat) (data : QByteArray) (t : Texture) : Texture :=
  mkTexture (texelFormat t) (width t) (height t) (strictTexture t) (source t)
            (storedMipFormat t) (take size data) (fallbackTexture t) (ktxBacking t).

Definition setFallbackTexture (f : TexturePointer) (t : Texture) : Texture :=
  mkTexture (texelFormat t) (width t) (height t) (strictTexture t) (source t)
            (storedMipFormat t) (storedMip0 t) f (ktxBacking t).

Definition setKtxBacking (k : KTX) (t : Texture) : Texture :=
  mkTexture (texelFormat t) (width t) (height t) (strictTexture t) (source t)
            (storedMipFormat t) (storedMip0 t) (fallbackTexture t) (Some k).

(** [gpu::Texture::createStrict(format, w, h)]. *)
Definition createStrict (f : Element) (w h : Z) : Texture :=
  mkTexture f w h true "" None [] None None.

(** The live textures.  An identifier is in [objects] exactly while some
    shared pointer owns the texture; [nextId] is the identity the next created
    texture gets, so a stale weak pointer never names a later object.  An
    object is removed when its last owner lets go: [release], below, for the
    pointers that [read] holds in a local and for the one that a destroyed
    resource held; for the others (a texture that [setImage] replaces in a
    resource, the argument of an invocation that has run) that is a step of
    the surroundings. *)
Record Heap := mkHeap {
  objects : gmap TexId Texture;
  nextId : TexId
}.

Definition alloc (t : Texture) (hp : Heap) : TexId * Heap :=
  (nextId hp, mkHeap (<[nextId hp := t]> (objects hp)) (nextId hp + 1)%positive).

(** [weak_ptr::lock()]: the shared pointer if the object is still owned. *)
Definition lock (hp : Heap) (w : WeakPointer) : TexturePointer :=
  match w with
  | Some id => match objects hp !! id with Some _ => Some id | None => None end
  | None => None
  end.

(** A shared pointer held by a caller: null, or naming a live object. *)
Definition strong (hp : Heap) (p : TexturePointer) : Prop :=
  match p with
  | Some id => is_Some (objects hp !! id)
  | None => True
  end.

(** ** The live registry: [_texturesByHashes] *)

(** [std::unordered_map::operator[]]: a missing key is first inserted with a
    default (empty) weak pointer. *)
Definition subscript (m : gmap string WeakPointer) (hash : string)
  : gmap string WeakPointer * WeakPointer :=
  match m !! hash with
  | Some w => (m, w)
  | None => (<[hash := None]> m, None)
  end.

(** [TextureCache::getTextureByHash], on the map it guards. *)
Definition getTextureByHash_map (hp : Heap) (m : gmap string WeakPointer) (hash : string)
  : gmap string WeakPointer * TexturePointer :=
  let '(m1, weakPointer) := subscript m hash in
  (m1, lock hp weakPointer).

(** [TextureCache::cacheTextureByHash], on the map it guards. *)
Definition cacheTextureByHash_map (hp : Heap) (m : gmap string WeakPointer)
    (hash : string) (texture : TexturePointer)
  : gmap string WeakPointer * TexturePointer :=
  let '(m1, w) := subscript m hash in
  let result := lock hp w in
  match result with
  | None => (<[hash := texture]> m1, texture)
  | Some _ => (m1, result)
  end.

(** The live entry of a hash: what a [lock] of the stored weak pointer gives. *)
Definition liveEntry (hp : Heap) (m : gmap string WeakPointer) (hash : string)
  : TexturePointer :=
  lock hp (default None (m !! hash)).

(** ** Usage types, images, URLs *)

(** [NetworkTexture::Type], with the enumerators this file names.  [prefetch]
    casts an arbitrary [int] to the enumeration, so a value outside the named
    ones can arrive: [OTHER_TEXTURE] is what the [default:] labels see. *)
Inductive TextureType :=
  | DEFAULT_TEXTURE | STRICT_TEXTURE | ALBEDO_TEXTURE | NORMAL_TEXTURE
  | BUMP_TEXTURE | SPECULAR_TEXTURE | ROUGHNESS_TEXTURE | GLOSS_TEXTURE
  | EMISSIVE_TEXTURE | CUBE_TEXTURE | OCCLUSION_TEXTURE | LIGHTMAP_TEXTURE
  | CUSTOM_TEXTURE
  | OTHER_TEXTURE (value : Z).

(** [NetworkTexture::TextureLoaderFunc]: a [std::function] holding one of the
    [model::TextureUsage] transforms, a caller-supplied one, or nothing. *)
Inductive TextureLoaderFunc :=
  | create2DTextureFromImage
  | createStrict2DTextureFromImage
  | createAlbedoTextureFromImage
  | createEmissiveTextureFromImage
  | createLightmapTextureFromImage
  | createCubeTextureFromImage
  | createCubeTextureFromImageWithoutIrradiance
  | createNormalTextureFromBumpImage
  | createNormalTextureFromNormalImage
  | createRoughnessTextureFromImage
  | createRoughnessTextureFromGlossImage
  | createMetallicTextureFromImage
  | suppliedFunction (tag : nat)
  | emptyFunction.

Inductive QImageFormat := Format_Invalid | Format_Valid (tag : Z).

Record QImage := mkQImage {
  image_width : Z;
  image_height : Z;
  image_format : QImageFormat;
  image_bits : QByteArray
}.

Record QUrl := mkQUrl {
  isValid : bool;
  toString : string;
  fileName : string
}.

(** [std::string::find_last_of(c)]; [None] is [npos]. *)
Fixpoint find_last_of (c : Ascii.ascii) (s : string) : option nat :=
  match s with
  | EmptyString => None
  | String a rest =>
      match find_last_of c rest with
      | Some i => Some (S i)
      | None => if Ascii.eqb a c then Some 0%nat else None
      end
  end.

(** [std::string::substr(pos)]. *)
Fixpoint substr (pos : nat) (s : string) : string :=
  match pos, s with
  | O, _ => s
  | S p, String _ rest => substr p rest
  | S _, EmptyString => EmptyString
  end.

(** [filename.substr(filename.find_last_of('.') + 1)]: [npos + 1] wraps to 0,
    so a name without a dot is its own extension. *)
Definition filenameExtensionOf (filename : string) : string :=
  match find_last_of "."%char filename with
  | Some i => substr (S i) filename
  | None => substr 0 filename
  end.

(** [int] arithmetic: the product as the 32-bit machine computes it. *)
Definition wrap_int (x : Z) : Z := ((x + 2147483648) mod 4294967296 - 2147483648)%Z.
Definition int_mul (a b : Z) : Z := wrap_int (a * b).

(** ** [float] arithmetic *)

(** [float] is IEEE 754 single precision: the standard library's
    [spec_float] with a significand of 24 bits and exponents below 128, every
    operation rounded to nearest, ties to even. *)

(** [(float)i]. *)
Definition float_of_int (i : Z) : spec_float := binary_normalize 24 128 i 0 false.

(** The literal [0.5f]. *)
Definition half : spec_float := S754_finite false 8388608 (-24).

(** The integer part of [m * 2^e]. *)
Definition truncate (m : positive) (e : Z) : Z :=
  match e with
  | Z0 => Zpos m
  | Zpos p => Zpos m * 2 ^ Zpos p
  | Zneg p => Zpos m / 2 ^ Zpos p
  end.

(** [(int)f]: the value truncated towards zero.  [None] where C++ leaves the
    conversion undefined: a NaN, an infinity, a value whose integer part is
    not an [int]. *)
Definition int_of_float (f : spec_float) : option Z :=
  match f with
  | S754_zero _ => Some 0%Z
  | S754_finite s m e =>
      let z := if s then (- truncate m e)%Z else truncate m e in
      if ((-2147483648 <=? z) && (z <=? 2147483647))%Z then Some z else None
  | S754_infinity _ | S754_nan => None
  end.

(** [scaleFactor * (float)dimension + 0.5f] with
    [scaleFactor = sqrtf(maxNumPixels / (float)numPixels)]: the [int] budget
    is converted to [float] for the division. *)
Definition scaledValue (maxNumPixels numPixels dimension : Z) : spec_float :=
  let scaleFactor :=
    SFsqrt 24 128 (SFdiv 24 128 (float_of_int maxNumPixels) (float_of_int numPixels)) in
  SFadd 24 128 (SFmul 24 128 scaleFactor (float_of_int dimension)) half.

(** [(int)(scaleFactor * (float)dimension + 0.5f)], where it is defined. *)
Definition scaledDimension_checked (maxNumPixels numPixels dimension : Z) : option Z :=
  int_of_float (scaledValue maxNumPixels numPixels dimension).

(** The same as a total function: where the conversion is undefined the
    result is what the conversion instruction of x86 gives, the smallest
    [int]. *)
Definition scaledDimension (maxNumPixels numPixels dimension : Z) : Z :=
  default (-2147483648)%Z (scaledDimension_checked maxNumPixels numPixels dimension).

(** The real number that a finite [float] stands for, and the [float]s that
    are positive and normal: a significand of exactly 24 bits. *)
Definition bpow (e : Z) : R := powerRZ 2 e.

Definition F2R (f : spec_float) : R :=
  match f with
  | S754_finite s m e => ((if s then -1 else 1) * IZR (Zpos m) * bpow e)%R
  | _ => 0%R
  end.

Definition normal (f : spec_float) (m : positive) (e : Z) : Prop :=
  f = S754_finite false m e ∧ (8388608 <= Zpos m < 16777216)%Z.

(** ** Outcomes of code that can fault *)

(** A call returns, dereferences a null pointer, throws
    [std::bad_function_call], or stops at a failed [Q_ASSERT]. *)
Inductive Outcome (A : Type) :=
  | Returned (a : A)
  | NullDereference
  | BadFunctionCall
  | AssertionFailed.
Arguments Returned {A} a.
Arguments NullDereference {A}.
Arguments BadFunctionCall {A}.
Arguments AssertionFailed {A}.

#[global] Instance Outcome_ret : MRet Outcome := fun A a => Returned a.
#[global] Instance Outcome_bind : MBind Outcome := fun A B f m =>
  match m with
  | Returned a => f a
  | NullDereference => NullDereference
  | BadFunctionCall => BadFunctionCall
  | AssertionFailed => AssertionFailed
  end.

(** ** Collaborators outside this file *)

(** The libraries this file calls into (Qt, gpu, ktx, the file cache, the
    image transforms of [model::TextureUsage]) are an interface: the
    development holds for every implementation of it. *)
Class Collaborators := {
  (** [QCryptographicHash(Md5)]: [addData(content); result().toHex()]. *)
  md5Hex : QByteArray -> string;
  (** [QImage::fromData(content, format)]. *)
  fromData : QByteArray -> string -> QImage;
  (** [image.scaled(QSize(w, h), Qt::IgnoreAspectRatio, Qt::SmoothTransformation)]. *)
  scaled : QImage -> Z -> Z -> QImage;
  (** Whether the build defines [QT_NO_DEBUG], which compiles [Q_ASSERT] out. *)
  QT_NO_DEBUG : bool;
  (** Calling a non-empty [TextureLoaderFunc]: a new [gpu::Texture], or null. *)
  textureUsage : TextureLoaderFunc -> QImage -> string -> option Texture;
  (** [gpu::Texture::serialize] and [gpu::Texture::unserialize]. *)
  serialize : Texture -> option KTX;
  unserialize : KTX -> option Texture;
  (** [gpu::Texture::getStoredSize]. *)
  getStoredSize : Texture -> Z;
  (** [KTXCache] and its [KTXFile] handles. *)
  KTXCache : Type;
  KTXFile : Type;
  getFile : KTXCache -> string -> option KTXFile;
  (** [writeFile(data, KTXCache::Metadata(hash, length))]. *)
  writeFile : KTXCache -> QByteArray -> string -> Z -> option KTXFile * KTXCache;
  getKTX : KTXFile -> option KTX
}.

Section Model.
Context `{Collaborators}.

(** ** TextureCache *)

Record TextureCache := mkTextureCache {
  _texturesByHashes : gmap string WeakPointer;
  _ktxCache : KTXCache;
  _whiteTexture : TexturePointer;
  _grayTexture : TexturePointer;
  _blueTexture : TexturePointer;
  _blackTexture : TexturePointer
}.

Definition set_texturesByHashes (m : gmap string WeakPointer) (c : TextureCache) :=
  mkTextureCache m (_ktxCache c) (_whiteTexture c) (_grayTexture c)
                 (_blueTexture c) (_blackTexture c).
Definition set_ktxCache (k : KTXCache) (c : TextureCache) :=
  mkTextureCache (_texturesByHashes c) k (_whiteTexture c) (_grayTexture c)
                 (_blueTexture c) (_blackTexture c).
Definition set_whiteTexture (p : TexturePointer) (c : TextureCache) :=
  mkTextureCache (_texturesByHashes c) (_ktxCache c) p (_grayTexture c)
                 (_blueTexture c) (_blackTexture c).
Definition set_grayTexture (p : TexturePointer) (c : TextureCache) :=
  mkTextureCache (_texturesByHashes c) (_ktxCache c) (_whiteTexture c) p
                 (_blueTexture c) (_blackTexture c).
Definition set_blueTexture (p : TexturePointer) (c : TextureCache) :=
  mkTextureCache (_texturesByHashes c) (_ktxCache c) (_whiteTexture c)
                 (_grayTexture c) p (_blackTexture c).
Definition set_blackTexture (p : TexturePointer) (c : TextureCache) :=
  mkTextureCache (_texturesByHashes c) (_ktxCache c) (_whiteTexture c)
                 (_grayTexture c) (_blueTexture c) p.

Definition getTextureByHash (hp : Heap) (hash : string) (c : TextureCache)
  : TextureCache * TexturePointer :=
  let '(m, result) := getTextureByHash_map hp (_texturesByHashes c) hash in
  (set_texturesByHashes m c, result).

Definition cacheTextureByHash (hp : Heap) (hash : string) (texture : TexturePointer)
    (c : TextureCache) : TextureCache * TexturePointer :=
  let '(m, result) := cacheTextureByHash_map hp (_texturesByHashes c) hash texture in
  (set_texturesByHashes m c, result).

Definition OPAQUE_WHITE : QByteArray := [255; 255; 255; 255]%Z.
Definition OPAQUE_GRAY : QByteArray := [128; 128; 128; 255]%Z.
Definition OPAQUE_BLUE : QByteArray := [128; 128; 255; 255]%Z.
Definition OPAQUE_BLACK : QByteArray := [0; 0; 0; 255]%Z.

(** The object each of the four getters builds on first use:
    [createStrict(COLOR_RGBA_32, 1, 1)], [setSource], [setStoredMipFormat
    (getTexelFormat())], [assignStoredMip(0, sizeof(bytes), bytes)]. *)
Definition constantTexture (name : string) (bytes : QByteArray) : Texture :=
  let t := createStrict COLOR_RGBA_32 1 1 in
  let t := setSource name t in
  let t := setStoredMipFormat (texelFormat t) t in
  assignStoredMip0 (length bytes) bytes t.

Definition whiteTexture := constantTexture "TextureCache::_whiteTexture" OPAQUE_WHITE.
Definition grayTexture := constantTexture "TextureCache::_grayTexture" OPAQUE_GRAY.
Definition blueTexture := constantTexture "TextureCache::_blueTexture" OPAQUE_BLUE.
Definition blackTexture := constantTexture "TextureCache::_blackTexture" OPAQUE_BLACK.

Definition getWhiteTexture (c : TextureCache) (hp : Heap)
  : TexturePointer * TextureCache * Heap :=
  match _whiteTexture c with
  | Some id => (Some id, c, hp)
  | None => let '(id, hp') := alloc whiteTexture hp in
            (Some id, set_whiteTexture (Some id) c, hp')
  end.

Definition getGrayTexture (c : TextureCache) (hp : Heap)
  : TexturePointer * TextureCache * Heap :=
  match _grayTexture c with
  | Some id => (Some id, c, hp)
  | None => let '(id, hp') := alloc grayTexture hp in
            (Some id, set_grayTexture (Some id) c, hp')
  end.

Definition getBlueTexture (c : TextureCache) (hp : Heap)
  : TexturePointer * TextureCache * Heap :=
  match _blueTexture c with
  | Some id => (Some id, c, hp)
  | None => let '(id, hp') := alloc blueTexture hp in
            (Some id, set_blueTexture (Some id) c, hp')
  end.

Definition getBlackTexture (c : TextureCache) (hp : Heap)
  : TexturePointer * TextureCache * Heap :=
  match _blackTexture c with
  | Some id => (Some id, c, hp)
  | None => let '(id, hp') := alloc blackTexture hp in
            (Some id, set_blackTexture (Some id) c, hp')
  end.

(** ** Resources, tasks and the world they live in *)

Definition ResId := positive.

(** [NetworkTexture], with the members of its [Resource] base that this file
    touches.  [_cache] records whether the owning cache has been attached;
    [_bytes] is what [setSize] stores. *)
Record NetworkTexture := mkNetworkTexture {
  _url : QUrl;
  _type : TextureType;
  _maxNumPixels : Z;
  _textureLoader : TextureLoaderFunc;
  _textureSource : TexturePointer;
  _originalWidth : Z;
  _originalHeight : Z;
  _width : Z;
  _height : Z;
  _file : option KTXFile;
  _loaded : bool;
  _startedLoading : bool;
  _failedToLoad : bool;
  _cache : bool;
  _bytes : Z
}.

Definition set_loaded (b : bool) (r : NetworkTexture) : NetworkTexture :=
  mkNetworkTexture (_url r) (_type r) (_maxNumPixels r) (_textureLoader r)
    (_textureSource r) (_originalWidth r) (_originalHeight r) (_width r) (_height r)
    (_file r) b (_startedLoading r) (_failedToLoad r) (_cache r) (_bytes r).

Definition set_startedLoading (b : bool) (r : NetworkTexture) : NetworkTexture :=
  mkNetworkTexture (_url r) (_type r) (_maxNumPixels r) (_textureLoader r)
    (_textureSource r) (_originalWidth r) (_originalHeight r) (_width r) (_height r)
    (_file r) (_loaded r) b (_failedToLoad r) (_cache r) (_bytes r).

Definition set_failedToLoad (b : bool) (r : NetworkTexture) : NetworkTexture :=
  mkNetworkTexture (_url r) (_type r) (_maxNumPixels r) (_textureLoader r)
    (_textureSource r) (_originalWidth r) (_originalHeight r) (_width r) (_height r)
    (_file r) (_loaded r) (_startedLoading r) b (_cache r) (_bytes r).

Definition set_file (f : option KTXFile) (r : NetworkTexture) : NetworkTexture :=
  mkNetworkTexture (_url r) (_type r) (_maxNumPixels r) (_textureLoader r)
    (_textureSource r) (_originalWidth r) (_originalHeight r) (_width r) (_height r)
    f (_loaded r) (_startedLoading r) (_failedToLoad r) (_cache r) (_bytes r).

Definition set_original (w h : Z) (r : NetworkTexture) : NetworkTexture :=
  mkNetworkTexture (_url r) (_type r) (_maxNumPixels r) (_textureLoader r)
    (_textureSource r) w h (_width r) (_height r)
    (_file r) (_loaded r) (_startedLoading r) (_failedToLoad r) (_cache r) (_bytes r).

(** [_textureSource->resetTexture(texture)]. *)
Definition resetTexture (p : TexturePointer) (r : NetworkTexture) : NetworkTexture :=
  mkNetworkTexture (_url r) (_type r) (_maxNumPixels r) (_textureLoader r)
    p (_originalWidth r) (_originalHeight r) (_width r) (_height r)
    (_file r) (_loaded r) (_startedLoading r) (_failedToLoad r) (_cache r) (_bytes r).

Definition set_dimensions (w h : Z) (r : NetworkTexture) : NetworkTexture :=
  mkNetworkTexture (_url r) (_type r) (_maxNumPixels r) (_textureLoader r)
    (_textureSource r) (_originalWidth r) (_originalHeight r) w h
    (_file r) (_loaded r) (_startedLoading r) (_failedToLoad r) (_cache r) (_bytes r).

Definition setSize (b : Z) (r : NetworkTexture) : NetworkTexture :=
  mkNetworkTexture (_url r) (_type r) (_maxNumPixels r) (_textureLoader r)
    (_textureSource r) (_originalWidth r) (_originalHeight r) (_width r) (_height r)
    (_file r) (_loaded r) (_startedLoading r) (_failedToLoad r) (_cache r) b.

(** Modelled from the spec: [Resource::finishedLoading] belongs to the
    [Resource] base class, whose source is not in this library.  The spec has
    two terminal states: success ([Ready], the resource is loaded) and failure
    ([Failed]); [finishedLoading(success)] enters the one its argument names. *)
Definition finishedLoading (success : bool) (r : NetworkTexture) : NetworkTexture :=
  if success then set_loaded true r else set_failedToLoad true r.

(** Modelled from the spec: the [Resource(url)] base constructor and the
    in-class member initialisers are not in this library.  A resource starts
    in the spec's [Created] state: not loaded, not failed, loading not
    started, no texture, no dimensions, no cache file, no cache attached. *)
Definition Resource_new (url : QUrl) (type : TextureType) (maxNumPixels : Z)
  : NetworkTexture :=
  mkNetworkTexture url type maxNumPixels emptyFunction None 0 0 0 0 None
                   false false false false 0.

(** The spec's terminal states, read off the flags. *)
Definition Ready (r : NetworkTexture) : Prop := _loaded r = true.
Definition Failed (r : NetworkTexture) : Prop := _failedToLoad r = true.

(** [ImageReader], with the members of its [Reader] base.  [_resource] is the
    weak back-reference to the originating resource. *)
Record ImageReader := mkImageReader {
  _resource : ResId;
  reader_url : QUrl;
  _content : QByteArray;
  _hash : string;
  reader_maxNumPixels : Z
}.

(** A [QMetaObject::invokeMethod] waiting in the target's event queue. *)
Inductive Invocation :=
  | invoke_loadContent (target : ResId) (content : QByteArray)
  | invoke_setImage (target : ResId) (texture : TexturePointer)
                    (originalWidth originalHeight : Z).

Inductive Signal :=
  | networkTextureCreated (self : ResId).

(** Everything the functions of this file read or write: the live textures,
    the [TextureCache] singleton (absent once the [DependencyManager] has
    destroyed it), the live resources, the queued invocations, the tasks
    handed to the global thread pool, the signals emitted so far and the
    [PendingProcessing] statistic.  [elsewhere] are the textures owned by a
    shared pointer that is no member of these objects: a copy held outside
    this file, a local of another thread.  Log output is not part of it. *)
Record World := mkWorld {
  heap : Heap;
  textureCache : option TextureCache;
  resources : gmap ResId NetworkTexture;
  queue : list Invocation;
  threadPool : list ImageReader;
  emitted : list Signal;
  pendingProcessing : Z;
  elsewhere : gset TexId
}.

Definition set_heap (hp : Heap) (w : World) : World :=
  mkWorld hp (textureCache w) (resources w) (queue w) (threadPool w) (emitted w)
          (pendingProcessing w) (elsewhere w).
Definition set_textureCache (c : option TextureCache) (w : World) : World :=
  mkWorld (heap w) c (resources w) (queue w) (threadPool w) (emitted w)
          (pendingProcessing w) (elsewhere w).
Definition set_resources (r : gmap ResId NetworkTexture) (w : World) : World :=
  mkWorld (heap w) (textureCache w) r (queue w) (threadPool w) (emitted w)
          (pendingProcessing w) (elsewhere w).
Definition set_queue (q : list Invocation) (w : World) : World :=
  mkWorld (heap w) (textureCache w) (resources w) q (threadPool w) (emitted w)
          (pendingProcessing w) (elsewhere w).
Definition set_threadPool (p : list ImageReader) (w : World) : World :=
  mkWorld (heap w) (textureCache w) (resources w) (queue w) p (emitted w)
          (pendingProcessing w) (elsewhere w).
Definition set_emitted (e : list Signal) (w : World) : World :=
  mkWorld (heap w) (textureCache w) (resources w) (queue w) (threadPool w) e
          (pendingProcessing w) (elsewhere w).
Definition set_pendingProcessing (n : Z) (w : World) : World :=
  mkWorld (heap w) (textureCache w) (resources w) (queue w) (threadPool w)
          (emitted w) n (elsewhere w).

(** Dereferencing a shared pointer that is known to be non-null.  A shared
    pointer keeps its object alive, so the default is never what is read. *)
Definition deref (hp : Heap) (id : TexId) : Texture :=
  default (createStrict COLOR_RGBA_32 0 0) (objects hp !! id).

(** [p->f(...)] for a mutating member [f]: faults on a null [p]. *)
Definition through (p : TexturePointer) (f : Texture -> Texture) (hp : Heap)
  : Outcome Heap :=
  match p with
  | None => NullDereference
  | Some id => Returned (mkHeap (alter f id (objects hp)) (nextId hp))
  end.

(** [texture.reset(raw)]: a shared pointer owning the new object, or null. *)
Definition reset (raw : option Texture) (hp : Heap) : TexturePointer * Heap :=
  match raw with
  | Some t => let '(id, hp') := alloc t hp in (Some id, hp')
  | None => (None, hp)
  end.

(** ** Letting go of a shared pointer *)

(** A shared pointer that is no local of the running function and no member
    of a texture names the texture: one held elsewhere, the [_textureSource]
    of a resource, the argument of a queued [setImage], or a constant member
    of the cache. *)
Definition rooted (w : World) (id : TexId) : bool :=
  bool_decide (id ∈ elsewhere w)
  || bool_decide (map_Exists (λ _ r, _textureSource r = Some id) (resources w))
  || existsb (λ i, match i with
                   | invoke_setImage _ texture _ _ => bool_decide (texture = Some id)
                   | invoke_loadContent _ _ => false
                   end) (queue w)
  || match textureCache w with
     | Some c => bool_decide (Some id ∈ [_whiteTexture c; _grayTexture c;
                                         _blueTexture c; _blackTexture c])
     | None => false
     end.

(** Some shared pointer other than a local of the running function owns the
    texture: one of those, or the fallback of a live texture.  How
    [gpu::Texture] holds its fallback is not in these sources: it counts as
    an owner here, and the fallbacks that [read] attaches are constants of
    the cache, which the cache owns in any case. *)
Definition owned (w : World) (id : TexId) : bool :=
  rooted w id
  || bool_decide (map_Exists (λ _ t, fallbackTexture t = Some id) (objects (heap w))).

(** The destructor of a shared pointer that no object of the world holds: a
    texture that nothing else owns is destroyed, which lets go of its
    fallback in turn.  Every step removes an object, so [fuel] above the
    number of objects is never used up. *)
Fixpoint letGo (fuel : nat) (p : TexturePointer) (w : World) : World :=
  match fuel, p with
  | S fuel, Some id =>
      if owned w id then w
      else
        match objects (heap w) !! id with
        | Some t =>
            letGo fuel (fallbackTexture t)
                  (set_heap (mkHeap (delete id (objects (heap w))) (nextId (heap w))) w)
        | None => w
        end
  | _, _ => w
  end.

Definition release (p : TexturePointer) (w : World) : World :=
  letGo (S (size (objects (heap w)))) p w.

(** [p = q] for a local shared pointer [p]: the old value is let go, unless
    [q] is the same pointer. *)
Definition assign (p q : TexturePointer) (w : World) : World :=
  if decide (p = q) then w else release p w.

(** ** The fallback table and the transform table *)

Definition getFallbackTextureForType (type : TextureType) (w : World)
  : TexturePointer * World :=
  match textureCache w with
  | None => (None, w)
  | Some c =>
      let store '(result, c', hp') := (result, set_heap hp' (set_textureCache (Some c') w)) in
      match type with
      | DEFAULT_TEXTURE | ALBEDO_TEXTURE | ROUGHNESS_TEXTURE | OCCLUSION_TEXTURE =>
          store (getWhiteTexture c (heap w))
      | NORMAL_TEXTURE =>
          store (getBlueTexture c (heap w))
      | EMISSIVE_TEXTURE | LIGHTMAP_TEXTURE =>
          store (getBlackTexture c (heap w))
      | BUMP_TEXTURE | SPECULAR_TEXTURE | GLOSS_TEXTURE | CUBE_TEXTURE
      | CUSTOM_TEXTURE | STRICT_TEXTURE | OTHER_TEXTURE _ =>
          (None, w)
      end
  end.

(** [Q_ASSERT(cond)]: the program stops at a condition that is false, unless
    the build compiles assertions out. *)
Definition Q_ASSERT (cond : bool) : Outcome unit :=
  if QT_NO_DEBUG || cond then Returned () else AssertionFailed.

(** [options.value("generateIrradiance", true).toBool()] is the second
    argument.  The case of [CUSTOM_TEXTURE] goes through [Q_ASSERT(false)]
    before it returns the empty function. *)
Definition getTextureLoaderForType (type : TextureType) (generateIrradiance : bool)
  : Outcome TextureLoaderFunc :=
  match type with
  | ALBEDO_TEXTURE => Returned createAlbedoTextureFromImage
  | EMISSIVE_TEXTURE => Returned createEmissiveTextureFromImage
  | LIGHTMAP_TEXTURE => Returned createLightmapTextureFromImage
  | CUBE_TEXTURE =>
      if generateIrradiance then Returned createCubeTextureFromImage
      else Returned createCubeTextureFromImageWithoutIrradiance
  | BUMP_TEXTURE => Returned createNormalTextureFromBumpImage
  | NORMAL_TEXTURE => Returned createNormalTextureFromNormalImage
  | ROUGHNESS_TEXTURE => Returned createRoughnessTextureFromImage
  | GLOSS_TEXTURE => Returned createRoughnessTextureFromGlossImage
  | SPECULAR_TEXTURE => Returned createMetallicTextureFromImage
  | STRICT_TEXTURE => Returned createStrict2DTextureFromImage
  | CUSTOM_TEXTURE => _ ← Q_ASSERT false; Returned emptyFunction
  | DEFAULT_TEXTURE | OCCLUSION_TEXTURE | OTHER_TEXTURE _ =>
      Returned create2DTextureFromImage
  end.

(** Calling a [std::function]: an empty one throws [std::bad_function_call]. *)
Definition call (f : TextureLoaderFunc) (image : QImage) (url : string)
  : Outcome (option Texture) :=
  match f with
  | emptyFunction => BadFunctionCall
  | _ => Returned (textureUsage f image url)
  end.

(** ** NetworkTexture *)

(** [NetworkTexture::getTextureLoader].  The call of
    [getTextureLoaderForType] is not for [CUSTOM_TEXTURE], so it does not
    pass the assertion and always returns: the last case is never taken. *)
Definition getTextureLoader (this : NetworkTexture) : TextureLoaderFunc :=
  match _type this with
  | CUSTOM_TEXTURE => _textureLoader this
  | _ =>
      match getTextureLoaderForType (_type this) true with
      | Returned loader => loader
      | _ => emptyFunction
      end
  end.

Definition getFallbackTexture (this : NetworkTexture) (w : World)
  : TexturePointer * World :=
  match _type this with
  | CUSTOM_TEXTURE => (None, w)
  | _ => getFallbackTextureForType (_type this) w
  end.

(** The constructor, for the resource that will be known as [self].  The
    queued [loadContent] is the [Qt::QueuedConnection] invocation. *)
Definition NetworkTexture_new (self : ResId) (url : QUrl) (type : TextureType)
    (content : QByteArray) (maxNumPixels : Z) (w : World) : World :=
  let this := Resource_new url type maxNumPixels in
  let this := if negb (isValid url) then set_loaded true this else this in
  match content with
  | [] => set_resources (<[self := this]> (resources w)) w
  | _ :: _ =>
      let this := set_startedLoading true this in
      set_queue (queue w ++ [invoke_loadContent self content])
                (set_resources (<[self := this]> (resources w)) w)
  end.

(** [NetworkTexture::setImage] on the live resource [self]; an invocation
    whose target is gone is dropped by the event loop. *)
Definition setImage (self : ResId) (texture : TexturePointer)
    (originalWidth originalHeight : Z) (w : World) : World :=
  match resources w !! self with
  | None => w
  | Some this =>
      let this := set_original originalWidth originalHeight this in
      let this := resetTexture texture this in
      let this :=
        match texture with
        | Some id =>
            let t := deref (heap w) id in
            setSize (getStoredSize t) (set_dimensions (width t) (height t) this)
        | None => set_dimensions 0 0 this
        end in
      let this := finishedLoading true this in
      set_emitted (emitted w ++ [networkTextureCreated self])
                  (set_resources (<[self := this]> (resources w)) w)
  end.

(** [new ImageReader(...)] handed to [QThreadPool::globalInstance()->start]:
    the [Reader] constructor counts the task as pending. *)
Definition start (task : ImageReader) (w : World) : World :=
  set_threadPool (threadPool w ++ [task])
                 (set_pendingProcessing (pendingProcessing w + 1) w).

(** The disk-cache leg of [loadContent]: a container for the hash that
    unserializes becomes a new texture, backed by the container and offered
    to the registry; anything else leaves the texture null. *)
Definition fromKtxCache (hash : string) (c : TextureCache) (hp : Heap)
  : TexturePointer * TextureCache * Heap :=
  match getFile (_ktxCache c) hash with
  | Some ktxFile =>
      match getKTX ktxFile with
      | Some ktx =>
          match reset (unserialize ktx) hp with
          | (Some id, hp1) =>
              let hp2 := mkHeap (alter (setKtxBacking ktx) id (objects hp1)) (nextId hp1) in
              let '(c', texture) := cacheTextureByHash hp2 hash (Some id) c in
              (texture, c', hp2)
          | (None, hp1) => (None, c, hp1)
          end
      | None => (None, c, hp)
      end
  | None => (None, c, hp)
  end.

(** [NetworkTexture::loadContent] on the live resource [self]. *)
Definition loadContent (self : ResId) (content : QByteArray) (w : World) : World :=
  match resources w !! self with
  | None => w
  | Some this =>
      let hash := md5Hex content in
      let decode := start (mkImageReader self (_url this) content hash (_maxNumPixels this)) in
      match (if _cache this then textureCache w else None) with
      | Some c =>
          let '(c, texture) := getTextureByHash (heap w) hash c in
          let '(texture, c, hp) :=
            match texture with
            | Some _ => (texture, c, heap w)
            | None => fromKtxCache hash c (heap w)
            end in
          let w := set_heap hp (set_textureCache (Some c) w) in
          match texture with
          | Some id =>
              setImage self texture (width (deref hp id)) (height (deref hp id)) w
          | None => decode w
          end
      | None => decode w
      end
  end.

Definition downloadFinished (self : ResId) (data : QByteArray) (w : World) : World :=
  loadContent self data w.

(** ** The decode task *)

(** What [read] has in hand when it reaches the deliver step. *)
Record Decoded := mkDecoded {
  decoded_texture : TexturePointer;
  decoded_width : Z;
  decoded_height : Z
}.

(** The file-cache leg of [read]: only with a serialized container and a
    cache; a written file is recorded in the resource and backs the texture. *)
Definition saveKtx (task : ImageReader) (texture : TexId) (memKtx : option KTX)
    (w : World) : World :=
  match memKtx, textureCache w with
  | Some ktx, Some c =>
      let data := _storage ktx in
      let length := Z.of_nat (length data) in
      match writeFile (_ktxCache c) data (_hash task) length with
      | (None, k) => set_textureCache (Some (set_ktxCache k c)) w
      | (Some file, k) =>
          let w := set_textureCache (Some (set_ktxCache k c)) w in
          let w := set_resources (alter (set_file (Some file)) (_resource task) (resources w)) w in
          match getKTX file with
          | Some fileKtx =>
              set_heap (mkHeap (alter (setKtxBacking fileKtx) texture (objects (heap w)))
                               (nextId (heap w))) w
          | None => w
          end
      end
  | _, _ => w
  end.

(** The registry leg of [read]: with a cache, the texture is exchanged for
    the one [cacheTextureByHash] accepts. *)
Definition reconcile (task : ImageReader) (texture : TexturePointer) (w : World)
  : World * TexturePointer :=
  match textureCache w with
  | Some c =>
      let '(c, texture) := cacheTextureByHash (heap w) (_hash task) texture c in
      (set_textureCache (Some c) w, texture)
  | None => (w, texture)
  end.

(** [read] from the null check on [texture] to the end of the block that
    holds the resource: fallback, serialize, file cache, registry. *)
Definition read_attach (task : ImageReader) (networkTexture : NetworkTexture)
    (texture : TexturePointer) (w : World) : Outcome (World * TexturePointer) :=
  w ← match texture with
      | Some id =>
          let '(fallback, w) := getFallbackTexture networkTexture w in
          Returned (set_heap (mkHeap (alter (setFallbackTexture fallback) id (objects (heap w)))
                                     (nextId (heap w))) w)
      | None => Returned w
      end;
  match texture with
  | None => NullDereference
  | Some id =>
      let memKtx := serialize (deref (heap w) id) in
      let w := saveKtx task id memKtx w in
      Returned (reconcile task texture w)
  end.

(** The parse step: [QImage::fromData] with the extension of the URL's file
    name as format hint. *)
Definition parse (task : ImageReader) : QImage :=
  let filename := fileName (reader_url task) in
  let filenameExtension := filenameExtensionOf filename in
  fromData (_content task) filenameExtension.

(** The validation of [read]: true when the image did not load. *)
Definition notLoaded (image : QImage) : bool :=
  (image_width image =? 0)%Z || (image_height image =? 0)%Z
  || match image_format image with Format_Invalid => true | Format_Valid _ => false end.

(** The budget step: the image and the dimensions [read] goes on with. *)
Definition downscale (maxNumPixels : Z) (image : QImage) : QImage * Z * Z :=
  let imageWidth := image_width image in
  let imageHeight := image_height image in
  if (int_mul imageWidth imageHeight >? maxNumPixels)%Z
  then
    let numPixels := int_mul imageWidth imageHeight in
    let newWidth := scaledDimension maxNumPixels numPixels imageWidth in
    let newHeight := scaledDimension maxNumPixels numPixels imageHeight in
    (scaled image newWidth newHeight, newWidth, newHeight)
  else (image, imageWidth, imageHeight).

(** [ImageReader::read] up to the return of [cacheTextureByHash] in the last
    statement of the block that holds the resource; the texture that the
    transform created is still owned by the local [texture] then.  [None] is
    one of the two early returns. *)
Definition read_decode (task : ImageReader) (w : World)
  : Outcome (World * option Decoded) :=
  let image := parse task in
  if notLoaded image then Returned (w, None)
  else
    let '(image, imageWidth, imageHeight) := downscale (reader_maxNumPixels task) image in
    match resources w !! _resource task with
    | None => Returned (w, None)
    | Some networkTexture =>
        let url := toString (reader_url task) in
        raw ← call (getTextureLoader networkTexture) image url;
        let '(texture, hp) := reset raw (heap w) in
        hp ← through texture (setSource url) hp;
        '(w, texture) ← read_attach task networkTexture texture (set_heap hp w);
        Returned (w, Some (mkDecoded texture imageWidth imageHeight))
    end.

(** The deliver step: the second [_resource.lock()]. *)
Definition read_deliver (task : ImageReader) (d : Decoded) (w : World) : World :=
  match resources w !! _resource task with
  | Some _ =>
      set_queue (queue w ++ [invoke_setImage (_resource task) (decoded_texture d)
                                             (decoded_width d) (decoded_height d)]) w
  | None => w
  end.

(** [ImageReader::read].  The texture that the transform creates has the
    next identity of the heap.  The block ends with the assignment of what
    [cacheTextureByHash] returned to the local [texture], which destroys a
    texture of the task that the registry did not take.  Between the end of
    the block, where the task lets go of the resource, and the deliver step
    other threads run: [others] is what they do to the world meanwhile.  At
    the return the local goes out of scope. *)
Definition read (others : World -> World) (task : ImageReader) (w : World)
  : Outcome World :=
  let created := Some (nextId (heap w)) in
  '(w, decoded) ← read_decode task w;
  match decoded with
  | Some d =>
      let w := assign created (decoded_texture d) w in
      let w := read_deliver task d (others w) in
      Returned (release (decoded_texture d) w)
  | None => Returned w
  end.

(** [Reader::run]. *)
Definition run (others : World -> World) (task : ImageReader) (w : World)
  : Outcome World :=
  let w := set_pendingProcessing (pendingProcessing w - 1) w in
  match resources w !! _resource task with
  | None => Returned w
  | Some _ => read others task w
  end.

(** The event loop of the resources' thread takes the oldest invocation. *)
Definition dispatch (w : World) : World :=
  match queue w with
  | [] => w
  | invoke_loadContent target content :: rest =>
      loadContent target content (set_queue rest w)
  | invoke_setImage target texture originalWidth originalHeight :: rest =>
      setImage target texture originalWidth originalHeight (set_queue rest w)
  end.

(** A pool thread takes the oldest task. *)
Definition work (others : World -> World) (w : World) : Outcome World :=
  match threadPool w with
  | [] => Returned w
  | task :: rest => run others task (set_threadPool rest w)
  end.

(** The originating resource loses its last owner: it is destroyed, and
    lets go of the texture it holds. *)
Definition destroyResource (self : ResId) (w : World) : World :=
  match resources w !! self with
  | Some this => release (_textureSource this) (set_resources (delete self (resources w)) w)
  | None => w
  end.

(** ** Predicates of the statements *)

Definition pointsTo (hp : Heap) (p : TexturePointer) (t : Texture) : Prop :=
  ∃ id, p = Some id ∧ objects hp !! id = Some t.

(** The four members that hold the constants are assigned only by their
    getters: each is null or owns the constant its getter builds. *)
Definition unsetOr (hp : Heap) (p : TexturePointer) (t : Texture) : Prop :=
  p = None ∨ pointsTo hp p t.

Definition constantsIntact (c : TextureCache) (hp : Heap) : Prop :=
  unsetOr hp (_whiteTexture c) whiteTexture
  ∧ unsetOr hp (_blueTexture c) blueTexture
  ∧ unsetOr hp (_blackTexture c) blackTexture.

(** What the steps of a task between the transform and the registry keep:
    live textures stay alive, the same resources are alive, the registry map
    and the presence of the cache are as before, and nothing is queued,
    scheduled or emitted. *)
Definition keeps (w0 w1 : World) : Prop :=
  (∀ id, is_Some (objects (heap w0) !! id) → is_Some (objects (heap w1) !! id))
  ∧ (∀ rid, is_Some (resources w1 !! rid) ↔ is_Some (resources w0 !! rid))
  ∧ _texturesByHashes <$> textureCache w1 = _texturesByHashes <$> textureCache w0
  ∧ queue w1 = queue w0
  ∧ threadPool w1 = threadPool w0
  ∧ emitted w1 = emitted w0
  ∧ pendingProcessing w1 = pendingProcessing w0.

(** One opaque pixel: 1x1, four bytes, alpha 0xFF. *)
Definition opaquePixel (t : Texture) : Prop :=
  width t = 1%Z ∧ height t = 1%Z ∧ length (storedMip0 t) = 4%nat
  ∧ storedMip0 t !! 3%nat = Some 255%Z.

End Model.

(** ** A small implementation of the collaborators, to run the model on *)

Module Example.

(** Two bytes of header (width, height) and the pixels; the file cache is a
    map that refuses containers of more than eight bytes; the transform
    supplied by the caller under tag 0 produces no texture; assertions are
    compiled out. *)
#[export] Instance toy : Collaborators := {|
  md5Hex content :=
    match content with
    | [] => "d41d8cd98f00b204e9800998ecf8427e"
    | _ :: _ => "0cc175b9c0f1b6a831c399e269772661"
    end;
  fromData content format :=
    match content with
    | w :: h :: bits => mkQImage w h (Format_Valid 0%Z) bits
    | _ => mkQImage 0%Z 0%Z Format_Invalid []
    end;
  scaled image w h := mkQImage w h (image_format image) (image_bits image);
  QT_NO_DEBUG := true;
  textureUsage f image url :=
    match f with
    | suppliedFunction 0 => None
    | _ => Some (mkTexture COLOR_RGBA_32 (image_width image) (image_height image)
                           false "" None (image_bits image) None None)
    end;
  serialize t :=
    match storedMip0 t with
    | [] => None
    | bits => Some (mkKTX (width t :: height t :: bits))
    end;
  unserialize ktx :=
    match _storage ktx with
    | w :: h :: bits => Some (mkTexture COLOR_RGBA_32 w h false "" None bits None None)
    | _ => None
    end;
  getStoredSize t := Z.of_nat (length (storedMip0 t));
  KTXCache := gmap string QByteArray;
  KTXFile := QByteArray;
  getFile k hash := k !! hash;
  writeFile k data hash length :=
    if (length <=? 8)%Z then (Some data, <[hash := data]> k) else (None, k);
  getKTX file := match file with [] => None | _ :: _ => Some (mkKTX file) end
|}.

Definition emptyCache : TextureCache := mkTextureCache ∅ ∅ None None None None.

Definition emptyWorld : World :=
  mkWorld (mkHeap ∅ 1%positive) (Some emptyCache) ∅ [] [] [] 0%Z ∅.

Definition goodUrl : QUrl := mkQUrl true "http://example.com/a.png" "a.png".
Definition badUrl : QUrl := mkQUrl false "" "".

(** A resource that waits for its content, attached to the cache. *)
Definition waiting (type : TextureType) (loader : TextureLoaderFunc) : NetworkTexture :=
  mkNetworkTexture goodUrl type 1000%Z loader None 0%Z 0%Z 0%Z 0%Z None
                   false true false true 0%Z.

Definition oneWaiting (type : TextureType) (loader : TextureLoaderFunc) : World :=
  set_resources {[ 1%positive := waiting type loader ]} emptyWorld.

Definition taskFor (content : QByteArray) : ImageReader :=
  mkImageReader 1%positive goodUrl content (md5Hex content) 1000%Z.

(** A 2x1 image of two pixels, and one too long for the file cache. *)
Definition smallImage : QByteArray := [2; 1; 7; 9]%Z.
Definition longImage : QByteArray := [2; 3; 1; 2; 3; 4; 5; 6; 7]%Z.

(** Two live textures, the first of them registered under a hash. *)
Definition twoTextures : Heap :=
  mkHeap {[ 1%positive := whiteTexture; 2%positive := blueTexture ]} 3%positive.

Definition firstRegistered : TextureCache :=
  mkTextureCache {[ md5Hex smallImage := Some 1%positive ]} ∅ None None None None.

(** A waiting resource and a file cache that already has the container of
    [smallImage] under its hash. *)
Definition containerOnDisk : World :=
  set_textureCache
    (Some (mkTextureCache ∅ {[ md5Hex smallImage := smallImage ]} None None None None))
    (oneWaiting DEFAULT_TEXTURE emptyFunction).

(** Where the task for [smallImage] stands at the end of the block that
    holds the resource. *)
Definition smallImageDecoded : World * Decoded :=
  match read_decode (taskFor smallImage) (oneWaiting DEFAULT_TEXTURE emptyFunction) with
  | Returned (w1, Some d) => (w1, d)
  | _ => (emptyWorld, mkDecoded None 0 0)
  end.

(** Where the task for [smallImage] leaves the world when its resource is
    destroyed right after the block. *)
Definition smallImageAbandoned : World :=
  match read (destroyResource 1%positive) (taskFor smallImage)
             (oneWaiting DEFAULT_TEXTURE emptyFunction) with
  | Returned w2 => w2
  | _ => emptyWorld
  end.

(** An image of 64 by 32 pixels. *)
Definition wideImage : QImage := mkQImage 64 32 (Format_Valid 0) [].

End Example.

(** * The rest of the file *)

Section Rest.
Context `{Collaborators}.

(** [TextureExtra]: what [getTexture] and [prefetch] pass to [createResource]. *)
Record TextureExtra := mkTextureExtra {
  extra_type : TextureType;
  extra_content : QByteArray;
  extra_maxNumPixels : Z
}.

(** [TextureCache::createResource]; [extra] is [None] for a null pointer and
    the first argument is the constant [ABSOLUTE_MAX_TEXTURE_NUM_PIXELS],
    which this file only names.  The [fallback] argument is not used. *)
Definition createResource (ABSOLUTE_MAX_TEXTURE_NUM_PIXELS : Z) (self : ResId)
    (url : QUrl) (extra : option TextureExtra) (w : World) : World :=
  let type := match extra with Some e => extra_type e | None => DEFAULT_TEXTURE end in
  let content := match extra with Some e => extra_content e | None => [] end in
  let maxNumPixels :=
    match extra with
    | Some e => extra_maxNumPixels e
    | None => ABSOLUTE_MAX_TEXTURE_NUM_PIXELS
    end in
  NetworkTexture_new self url type content maxNumPixels w.

(** [TextureCache::getImageTexture].  [QImage(path)] and
    [QUrl::fromLocalFile(path).fileName()] are the first two arguments; the
    map of options is reduced to its [generateIrradiance] entry. *)
Definition getImageTexture (imageOfFile : string → QImage) (localFileName : string → string)
    (path : string) (type : TextureType) (generateIrradiance : bool) (hp : Heap)
  : Outcome (TexturePointer * Heap) :=
  let image := imageOfFile path in
  loader ← getTextureLoaderForType type generateIrradiance;
  raw ← call loader image (localFileName path);
  Returned (reset raw hp).

(** ** Well-formed worlds *)

(** Identities are handed out in order: every live texture was created
    before [nextId]. *)
Definition wfHeap (hp : Heap) : Prop :=
  ∀ id, is_Some (objects hp !! id) → (id < nextId hp)%positive.

(** A weak pointer in the registry names a texture that was created. *)
Definition wfRegistry (hp : Heap) (m : gmap string WeakPointer) : Prop :=
  ∀ hash id, m !! hash = Some (Some id) → (id < nextId hp)%positive.

(** A world as the functions of this file leave it. *)
Definition settled (w : World) : Prop :=
  wfHeap (heap w)
  ∧ ∀ c, textureCache w = Some c →
      constantsIntact c (heap w) ∧ wfRegistry (heap w) (_texturesByHashes c).

(** Every texture created before [hp0]'s next identity is in [hp1] what it
    was in [hp0]. *)
Definition olderKept (hp0 hp1 : Heap) : Prop :=
  (nextId hp0 ≤ nextId hp1)%positive
  ∧ ∀ id, (id < nextId hp0)%positive → objects hp1 !! id = objects hp0 !! id.

(** None of the three constant members is the texture [own]. *)
Definition notConstant (c : TextureCache) (own : TexId) : Prop :=
  _whiteTexture c ≠ Some own ∧ _blueTexture c ≠ Some own ∧ _blackTexture c ≠ Some own.

(** The world of [read] right after [texture->setSource(url)], for a
    transform that returned [t]: the new texture has the next identity. *)
Definition afterTransform (task : ImageReader) (t : Texture) (w : World) : World :=
  let own := nextId (heap w) in
  set_heap (mkHeap (alter (setSource (toString (reader_url task))) own
                          (<[own := t]> (objects (heap w))))
                   (own + 1)%positive) w.

(** The world of [read] right before the registry leg, for a non-null
    texture [own]: fallback attached, container saved. *)
Definition beforeRegistry (task : ImageReader) (networkTexture : NetworkTexture)
    (own : TexId) (w0 : World) : World :=
  let wa := (getFallbackTexture networkTexture w0).2 in
  let fallback := (getFallbackTexture networkTexture w0).1 in
  let wb := set_heap (mkHeap (alter (setFallbackTexture fallback) own (objects (heap wa)))
                             (nextId (heap wa))) wa in
  saveKtx task own (serialize (deref (heap wb) own)) wb.

(** The two ways [loadContent] can end for the resource [self]: one task
    more in the pool and the resource as it was, or the resource loaded with
    a live texture whose dimensions it has taken over. *)
Definition schedules (task : ImageReader) (w w' : World) : Prop :=
  threadPool w' = threadPool w ++ [task]
  ∧ pendingProcessing w' = (pendingProcessing w + 1)%Z
  ∧ resources w' = resources w
  ∧ emitted w' = emitted w.

Definition delivers (self : ResId) (w w' : World) : Prop :=
  threadPool w' = threadPool w
  ∧ pendingProcessing w' = pendingProcessing w
  ∧ emitted w' = emitted w ++ [networkTextureCreated self]
  ∧ ∃ this' id t,
      resources w' !! self = Some this'
      ∧ Ready this'
      ∧ _textureSource this' = Some id
      ∧ objects (heap w') !! id = Some t
      ∧ _width this' = width t ∧ _height this' = height t
      ∧ _originalWidth this' = width t ∧ _originalHeight this' = height t.

(** Two states of a resource that differ at most in [_file]. *)
Definition sameButFile (r0 r1 : NetworkTexture) : Prop :=
  set_file (_file r0) r1 = r0.

End Rest.

Module Cases.
Import Example.

(** What the transform of the example makes of [smallImage]. *)
Definition smallTexture : Texture :=
  mkTexture COLOR_RGBA_32 2 1 false "" None [7; 9]%Z None None.

(** The cache after the task for [smallImage] has been through its block,
    and where a second task for the same image stands after that. *)
Definition decodedCache : TextureCache :=
  default emptyCache (textureCache smallImageDecoded.1).

Definition smallImageDecodedAgain : World * Decoded :=
  match read_decode (taskFor smallImage) smallImageDecoded.1 with
  | Returned (w2, Some d2) => (w2, d2)
  | _ => (emptyWorld, mkDecoded None 0 0)
  end.

(** The world after the task for [smallImage] was started and has run. *)
Definition ranOnce : World :=
  match run id (taskFor smallImage)
            (start (taskFor smallImage) (oneWaiting DEFAULT_TEXTURE emptyFunction)) with
  | Returned w' => w'
  | _ => emptyWorld
  end.


End Cases.

(** * Properties *)

(** ** The registry *)

Lemma lock_strong (hp : Heap) (p : TexturePointer) : strong hp p → lock hp p = p.
Proof.
  destruct p as [id|]; simpl; [|done].
  by intros [t ->].
Qed.

Lemma lock_is_strong (hp : Heap) (w : WeakPointer) : strong hp (lock hp w).
Proof.
  destruct w as [id|]; simpl; [|done].
  destruct (objects hp !! id) eqn:E; simpl; [|done]. by rewrite E.
Qed.

Lemma lock_Some (hp : Heap) (w : WeakPointer) (id : TexId) :
  lock hp w = Some id → w = Some id ∧ is_Some (objects hp !! id).
Proof.
  destruct w as [i|]; simpl; [|done].
  destruct (objects hp !! i) eqn:E; [|done].
  intros [= <-]. by rewrite E.
Qed.

(** A live entry: the map is left alone and the holder is returned. *)
Lemma cacheTextureByHash_map_live hp m hash texture existing :
  liveEntry hp m hash = Some existing →
  cacheTextureByHash_map hp m hash texture = (m, Some existing).
Proof.
  unfold liveEntry, cacheTextureByHash_map, subscript.
  destruct (m !! hash) as [w|] eqn:E; simpl; [|done].
  by intros ->.
Qed.

(** No live entry (none at all, an empty one, or a stale one): the candidate
    is stored and returned. *)
Lemma cacheTextureByHash_map_free hp m hash texture :
  liveEntry hp m hash = None →
  cacheTextureByHash_map hp m hash texture = (<[hash := texture]> m, texture).
Proof.
  unfold liveEntry, cacheTextureByHash_map, subscript.
  destruct (m !! hash) as [w|] eqn:E; simpl.
  - by intros ->.
  - intros _. by rewrite insert_insert_eq.
Qed.

Lemma liveEntry_insert hp m hash texture :
  liveEntry hp (<[hash := texture]> m) hash = lock hp texture.
Proof. unfold liveEntry. by rewrite lookup_insert_eq. Qed.

Lemma liveEntry_insert_ne hp m hash other texture :
  other ≠ hash →
  liveEntry hp (<[hash := texture]> m) other = liveEntry hp m other.
Proof. intros ?. unfold liveEntry. by rewrite lookup_insert_ne. Qed.

Lemma getTextureByHash_map_result hp m hash :
  (getTextureByHash_map hp m hash).2 = liveEntry hp m hash.
Proof.
  unfold getTextureByHash_map, liveEntry, subscript.
  by destruct (m !! hash).
Qed.

Lemma liveEntry_subscript hp m hash other :
  liveEntry hp (subscript m hash).1 other = liveEntry hp m other.
Proof.
  unfold liveEntry, subscript. destruct (m !! hash) eqn:E; simpl; [done|].
  destruct (decide (hash = other)) as [<-|?].
  - by rewrite lookup_insert_eq, E.
  - by rewrite lookup_insert_ne.
Qed.

Section Properties.
Context `{Collaborators}.

Lemma set_texturesByHashes_same (c : TextureCache) :
  set_texturesByHashes (_texturesByHashes c) c = c.
Proof. by destruct c. Qed.

Lemma cacheTextureByHash_live hp hash texture c existing :
  liveEntry hp (_texturesByHashes c) hash = Some existing →
  cacheTextureByHash hp hash texture c = (c, Some existing).
Proof.
  intros E. unfold cacheTextureByHash.
  rewrite (cacheTextureByHash_map_live _ _ _ _ _ E).
  by rewrite set_texturesByHashes_same.
Qed.

Lemma cacheTextureByHash_free hp hash texture c :
  liveEntry hp (_texturesByHashes c) hash = None →
  cacheTextureByHash hp hash texture c
  = (set_texturesByHashes (<[hash := texture]> (_texturesByHashes c)) c, texture).
Proof.
  intros E. unfold cacheTextureByHash.
  by rewrite (cacheTextureByHash_map_free _ _ _ _ E).
Qed.

(** What the registry holds for the hash after the call is what the call
    returned, for a candidate that is a shared pointer. *)
Lemma cacheTextureByHash_holder hp hash texture c :
  strong hp texture →
  liveEntry hp (_texturesByHashes (cacheTextureByHash hp hash texture c).1) hash
  = (cacheTextureByHash hp hash texture c).2.
Proof.
  intros Hs.
  destruct (liveEntry hp (_texturesByHashes c) hash) as [e|] eqn:E.
  - by rewrite (cacheTextureByHash_live _ _ _ _ _ E).
  - rewrite (cacheTextureByHash_free _ _ _ _ E). simpl.
    rewrite liveEntry_insert. by apply lock_strong.
Qed.

Lemma cacheTextureByHash_others hp hash texture c other :
  other ≠ hash →
  liveEntry hp (_texturesByHashes (cacheTextureByHash hp hash texture c).1) other
  = liveEntry hp (_texturesByHashes c) other.
Proof.
  intros Hne.
  destruct (liveEntry hp (_texturesByHashes c) hash) as [e|] eqn:E.
  - by rewrite (cacheTextureByHash_live _ _ _ _ _ E).
  - rewrite (cacheTextureByHash_free _ _ _ _ E). simpl.
    by apply liveEntry_insert_ne.
Qed.

(** C1. [cacheTextureByHash(hash, texture)] when no live entry exists for the
    hash (no entry, an empty one, or one whose weak pointer has expired)
    stores the candidate and returns it; when a live entry exists it leaves
    the cache unchanged and returns the existing texture, the candidate being
    dropped.  Consequently the registry's holder for the hash is the returned
    texture, the other hashes keep theirs, and every later call for the hash
    returns that same texture without changing the registry. *)
Theorem cacheTextureByHash_installs_or_adopts
    (hp : Heap) (hash : string) (texture : TexturePointer) (c : TextureCache) :
  strong hp texture →
  (match liveEntry hp (_texturesByHashes c) hash with
   | None =>
       cacheTextureByHash hp hash texture c
       = (set_texturesByHashes (<[hash := texture]> (_texturesByHashes c)) c, texture)
   | Some existing =>
       cacheTextureByHash hp hash texture c = (c, Some existing)
   end)
  ∧ (let '(c', result) := cacheTextureByHash hp hash texture c in
     liveEntry hp (_texturesByHashes c') hash = result
     ∧ (∀ other, other ≠ hash →
          liveEntry hp (_texturesByHashes c') other
          = liveEntry hp (_texturesByHashes c) other)
     ∧ (is_Some result → ∀ later,
          cacheTextureByHash hp hash later c' = (c', result))).
Proof.
  intros Hs. split.
  - destruct (liveEntry hp (_texturesByHashes c) hash) as [e|] eqn:E.
    + by apply cacheTextureByHash_live.
    + by apply cacheTextureByHash_free.
  - pose proof (cacheTextureByHash_holder hp hash texture c Hs) as Hh.
    pose proof (cacheTextureByHash_others hp hash texture c) as Ho.
    destruct (cacheTextureByHash hp hash texture c) as [c' result]; simpl in *.
    split; [done|]. split; [done|].
    intros [id ->] later. by apply cacheTextureByHash_live.
Qed.

(** ** The fallback table *)

Lemma getWhiteTexture_constant c hp :
  unsetOr hp (_whiteTexture c) whiteTexture →
  pointsTo (getWhiteTexture c hp).2 (getWhiteTexture c hp).1.1 whiteTexture.
Proof.
  unfold getWhiteTexture, unsetOr, pointsTo.
  destruct (_whiteTexture c) as [id|]; simpl.
  - intros [?|?]; [done|]. done.
  - intros _. eexists. split; [done|]. apply lookup_insert_eq.
Qed.

Lemma getBlueTexture_constant c hp :
  unsetOr hp (_blueTexture c) blueTexture →
  pointsTo (getBlueTexture c hp).2 (getBlueTexture c hp).1.1 blueTexture.
Proof.
  unfold getBlueTexture, unsetOr, pointsTo.
  destruct (_blueTexture c) as [id|]; simpl.
  - intros [?|?]; [done|]. done.
  - intros _. eexists. split; [done|]. apply lookup_insert_eq.
Qed.

Lemma getBlackTexture_constant c hp :
  unsetOr hp (_blackTexture c) blackTexture →
  pointsTo (getBlackTexture c hp).2 (getBlackTexture c hp).1.1 blackTexture.
Proof.
  unfold getBlackTexture, unsetOr, pointsTo.
  destruct (_blackTexture c) as [id|]; simpl.
  - intros [?|?]; [done|]. done.
  - intros _. eexists. split; [done|]. apply lookup_insert_eq.
Qed.

Lemma constants_opaque :
  opaquePixel whiteTexture ∧ opaquePixel blueTexture ∧ opaquePixel blackTexture.
Proof. by repeat split. Qed.

(** C2, as the code has it.  In a world whose texture cache exists and whose
    constant members are null or own their constants, the lookup returns the
    blue constant for NORMAL_TEXTURE, the black constant for EMISSIVE_TEXTURE
    and LIGHTMAP_TEXTURE, and the white constant for DEFAULT_TEXTURE,
    ALBEDO_TEXTURE, ROUGHNESS_TEXTURE and OCCLUSION_TEXTURE, each one opaque
    pixel; for BUMP_TEXTURE, SPECULAR_TEXTURE, GLOSS_TEXTURE, CUBE_TEXTURE,
    STRICT_TEXTURE, CUSTOM_TEXTURE and any unnamed value it returns null and
    changes nothing. *)
Theorem getFallbackTextureForType_table (type : TextureType) (w : World) (c : TextureCache) :
  textureCache w = Some c →
  constantsIntact c (heap w) →
  let '(result, w') := getFallbackTextureForType type w in
  match type with
  | NORMAL_TEXTURE =>
      pointsTo (heap w') result blueTexture ∧ opaquePixel blueTexture
  | EMISSIVE_TEXTURE | LIGHTMAP_TEXTURE =>
      pointsTo (heap w') result blackTexture ∧ opaquePixel blackTexture
  | DEFAULT_TEXTURE | ALBEDO_TEXTURE | ROUGHNESS_TEXTURE | OCCLUSION_TEXTURE =>
      pointsTo (heap w') result whiteTexture ∧ opaquePixel whiteTexture
  | BUMP_TEXTURE | SPECULAR_TEXTURE | GLOSS_TEXTURE | CUBE_TEXTURE
  | STRICT_TEXTURE | CUSTOM_TEXTURE | OTHER_TEXTURE _ =>
      result = None ∧ w' = w
  end.
Proof.
  intros Hc (Hwhite & Hblue & Hblack).
  pose proof (getWhiteTexture_constant c (heap w) Hwhite) as Pw.
  pose proof (getBlueTexture_constant c (heap w) Hblue) as Pb.
  pose proof (getBlackTexture_constant c (heap w) Hblack) as Pk.
  destruct constants_opaque as (Ow & Ob & Ok).
  unfold getFallbackTextureForType. rewrite Hc.
  destruct (getWhiteTexture c (heap w)) as [[rw cw] hw].
  destruct (getBlueTexture c (heap w)) as [[rb cb] hb].
  destruct (getBlackTexture c (heap w)) as [[rk ck] hk].
  by destruct type.
Qed.

(** ** The resource *)

(** The resource after [setImage], member by member. *)
Lemma setImage_live (self : ResId) (texture : TexturePointer)
    (originalWidth originalHeight : Z) (w : World) (this : NetworkTexture) :
  resources w !! self = Some this →
  let w' := setImage self texture originalWidth originalHeight w in
  ∃ this',
    resources w' !! self = Some this'
    ∧ (∃ before, this' = finishedLoading true before)
    ∧ Ready this'
    ∧ _failedToLoad this' = _failedToLoad this
    ∧ _textureSource this' = texture
    ∧ _originalWidth this' = originalWidth
    ∧ _originalHeight this' = originalHeight
    ∧ emitted w' = emitted w ++ [networkTextureCreated self]
    ∧ threadPool w' = threadPool w
    ∧ match texture with
      | Some id => _width this' = width (deref (heap w) id)
                   ∧ _height this' = height (deref (heap w) id)
      | None => _width this' = 0%Z ∧ _height this' = 0%Z
      end.
Proof.
  intros Hthis. unfold setImage. rewrite Hthis. simpl.
  eexists. split; [apply lookup_insert_eq|].
  split; [by eexists|].
  destruct texture as [id|]; simpl; repeat split; try done.
Qed.

Lemma setImage_frame (self : ResId) (texture : TexturePointer)
    (originalWidth originalHeight : Z) (w : World) :
  let w' := setImage self texture originalWidth originalHeight w in
  heap w' = heap w ∧ textureCache w' = textureCache w
  ∧ queue w' = queue w ∧ threadPool w' = threadPool w.
Proof. unfold setImage. by destruct (resources w !! self). Qed.

(** C10. Every call of [setImage] on a live resource, with a texture or with
    null, finishes through [finishedLoading(true)]: the resource is loaded
    afterwards, its failure flag is as it was, it holds the texture it was
    given, and [networkTextureCreated] is emitted; with a null texture the
    width and the height are 0. *)
Theorem setImage_always_finishes_loaded
    (self : ResId) (texture : TexturePointer) (originalWidth originalHeight : Z)
    (w : World) (this : NetworkTexture) :
  resources w !! self = Some this →
  let w' := setImage self texture originalWidth originalHeight w in
  ∃ this',
    resources w' !! self = Some this'
    ∧ (∃ before, this' = finishedLoading true before)
    ∧ Ready this'
    ∧ _failedToLoad this' = _failedToLoad this
    ∧ _textureSource this' = texture
    ∧ emitted w' = emitted w ++ [networkTextureCreated self]
    ∧ (texture = None → _width this' = 0%Z ∧ _height this' = 0%Z).
Proof.
  intros Hthis.
  destruct (setImage_live self texture originalWidth originalHeight w this Hthis)
    as (this' & H1 & H2 & H3 & H4 & H5 & _ & _ & H8 & _ & H10).
  exists this'. do 6 (split; [done|]).
  intros ->. exact H10.
Qed.

(** C8, as the code has it.  A resource constructed with an invalid URL is
    loaded from construction on, holds no texture and has not failed, and the
    constructor creates no texture, touches no cache, schedules no task and
    emits nothing.  Without inline content nothing is queued either; with
    inline content a [loadContent] of that content is queued, as for any
    other URL. *)
Theorem NetworkTexture_new_invalid_url
    (self : ResId) (url : QUrl) (type : TextureType) (content : QByteArray)
    (maxNumPixels : Z) (w : World) :
  isValid url = false →
  let w' := NetworkTexture_new self url type content maxNumPixels w in
  (∃ this, resources w' !! self = Some this
           ∧ Ready this ∧ ¬ Failed this ∧ _textureSource this = None)
  ∧ heap w' = heap w
  ∧ textureCache w' = textureCache w
  ∧ threadPool w' = threadPool w
  ∧ emitted w' = emitted w
  ∧ (content = [] → queue w' = queue w)
  ∧ (content ≠ [] → queue w' = queue w ++ [invoke_loadContent self content]).
Proof.
  intros Hurl. unfold NetworkTexture_new. rewrite Hurl. simpl.
  destruct content as [|b content]; simpl.
  - split; [|done].
    eexists. split; [apply lookup_insert_eq|]. by repeat split.
  - split; [|by repeat split].
    eexists. split; [apply lookup_insert_eq|]. by repeat split.
Qed.

(** ** The decode task *)

(** An image within the budget goes on as it is. *)
Lemma downscale_within_budget (maxNumPixels : Z) (image : QImage) :
  (int_mul (image_width image) (image_height image) ≤ maxNumPixels)%Z →
  downscale maxNumPixels image = (image, image_width image, image_height image).
Proof.
  intros Hle. unfold downscale.
  destruct (Z.gtb_spec (int_mul (image_width image) (image_height image)) maxNumPixels);
    [lia|done].
Qed.

(** C3, as the code has it.  When the buffer does not parse as an image (zero
    width, zero height or invalid format) the task returns at once and leaves
    everything as it was: no texture is created or registered under the hash,
    nothing is delivered, and the originating resource stays in the state it
    was in, neither loaded nor failed by this task. *)
Theorem read_unparsable_changes_nothing
    (others : World → World) (task : ImageReader) (w : World) :
  notLoaded (parse task) = true →
  read others task w = Returned w
  ∧ run others task w = Returned (set_pendingProcessing (pendingProcessing w - 1) w).
Proof.
  intros Hbad.
  assert (Hread : ∀ w0, read others task w0 = Returned w0).
  { intros w0. unfold read, read_decode. by rewrite Hbad. }
  split; [done|].
  unfold run. rewrite Hread. by destruct (resources _ !! _).
Qed.

(** Calling a member through a shared pointer returns only for a non-null
    pointer. *)
Lemma through_Returned (texture : TexturePointer) (f : Texture → Texture) (hp hp' : Heap) :
  through texture f hp = Returned hp' → is_Some texture.
Proof. destruct texture; [by eexists|done]. Qed.

(** The image handed to the transform, and the URL it is labelled with. *)
Lemma read_decode_live (task : ImageReader) (w : World) (networkTexture : NetworkTexture) :
  notLoaded (parse task) = false →
  resources w !! _resource task = Some networkTexture →
  read_decode task w
  = (let d := downscale (reader_maxNumPixels task) (parse task) in
     let url := toString (reader_url task) in
     raw ← call (getTextureLoader networkTexture) d.1.1 url;
     let '(texture, hp) := reset raw (heap w) in
     hp ← through texture (setSource url) hp;
     '(w, texture) ← read_attach task networkTexture texture (set_heap hp w);
     Returned (w, Some (mkDecoded texture d.1.2 d.2))).
Proof.
  intros Hok Hres. unfold read_decode. rewrite Hok, Hres.
  by destruct (downscale _ _) as [[image iw] ih].
Qed.

(** C9. In a task whose image parsed and whose resource is alive, a transform
    that returns null makes [texture->setSource(url)] dereference a null
    pointer: the task faults, and no world, hence no failed resource, comes
    out of it.  The null check behind that call is reached only with a
    non-null texture: the call returns only for a non-null pointer, and
    whenever the task gets past it the transform had returned a texture. *)
Theorem read_null_texture_faults
    (task : ImageReader) (w : World) (networkTexture : NetworkTexture) :
  notLoaded (parse task) = false →
  resources w !! _resource task = Some networkTexture →
  let image := (downscale (reader_maxNumPixels task) (parse task)).1.1 in
  let url := toString (reader_url task) in
  (call (getTextureLoader networkTexture) image url = Returned None →
     read_decode task w = NullDereference
     ∧ ∀ others, read others task w = NullDereference
                 ∧ run others task w = NullDereference)
  ∧ (∀ texture hp hp', through texture (setSource url) hp = Returned hp' →
       is_Some texture)
  ∧ (∀ w' decoded, read_decode task w = Returned (w', decoded) →
       ∃ t, call (getTextureLoader networkTexture) image url = Returned (Some t)).
Proof.
  intros Hok Hres image url. split; [|split].
  - intros Hnull.
    assert (Hd : read_decode task w = NullDereference).
    { rewrite (read_decode_live _ _ _ Hok Hres). simpl.
      fold image url. by rewrite Hnull. }
    split; [done|]. intros others.
    assert (Hr : read others task w = NullDereference).
    { unfold read. by rewrite Hd. }
    split; [done|].
    unfold run. simpl. rewrite Hres. unfold read.
    assert (Hd' : read_decode task (set_pendingProcessing (pendingProcessing w - 1) w)
                  = NullDereference).
    { rewrite (read_decode_live _ _ networkTexture Hok); [|done]. simpl.
      fold image url. by rewrite Hnull. }
    by rewrite Hd'.
  - intros texture hp hp'. apply through_Returned.
  - intros w' decoded. rewrite (read_decode_live _ _ _ Hok Hres). simpl.
    fold image url.
    destruct (call (getTextureLoader networkTexture) image url) as [[t|]| | |]; simpl;
      [by eexists|done..].
Qed.

(** *** What the steps before the registry keep *)

Lemma keeps_refl (w : World) : keeps w w.
Proof. by repeat split. Qed.

Lemma keeps_trans (w0 w1 w2 : World) : keeps w0 w1 → keeps w1 w2 → keeps w0 w2.
Proof.
  intros (A1 & B1 & C1 & D1 & E1 & F1 & G1) (A2 & B2 & C2 & D2 & E2 & F2 & G2).
  split; [intros id ?; by apply A2, A1|].
  split; [intros rid; by rewrite B2, B1|].
  repeat split; congruence.
Qed.

Lemma alloc_alive (t : Texture) (hp : Heap) (id : TexId) :
  is_Some (objects hp !! id) → is_Some (objects (alloc t hp).2 !! id).
Proof.
  intros ?. simpl.
  destruct (decide (nextId hp = id)) as [->|?].
  - rewrite lookup_insert_eq. by eexists.
  - by rewrite lookup_insert_ne.
Qed.

Lemma alter_alive (f : Texture → Texture) (i id : TexId) (m : gmap TexId Texture) :
  is_Some (alter f i m !! id) ↔ is_Some (m !! id).
Proof. apply lookup_alter_is_Some. Qed.

Lemma keeps_alter (f : Texture → Texture) (i : TexId) (w : World) :
  keeps w (set_heap (mkHeap (alter f i (objects (heap w))) (nextId (heap w))) w).
Proof.
  repeat split; simpl; try done; try naive_solver.
  intros id. by rewrite alter_alive.
Qed.

Lemma keeps_getter (w : World) (c c' : TextureCache) (hp' : Heap) :
  textureCache w = Some c →
  _texturesByHashes c' = _texturesByHashes c →
  (∀ id, is_Some (objects (heap w) !! id) → is_Some (objects hp' !! id)) →
  keeps w (set_heap hp' (set_textureCache (Some c') w)).
Proof.
  intros Hc Hm Hhp. repeat split; simpl; try done; try naive_solver.
  rewrite Hc. simpl. by rewrite Hm.
Qed.

Lemma getFallbackTextureForType_keeps (type : TextureType) (w : World) :
  keeps w (getFallbackTextureForType type w).2.
Proof.
  unfold getFallbackTextureForType.
  destruct (textureCache w) as [c|] eqn:Hc; [|apply keeps_refl].
  assert (Kw : keeps w (set_heap (getWhiteTexture c (heap w)).2
                          (set_textureCache (Some (getWhiteTexture c (heap w)).1.2) w))).
  { unfold getWhiteTexture. destruct (_whiteTexture c); simpl.
    - by apply (keeps_getter _ c).
    - apply (keeps_getter _ c); [done|done|]. intros id. apply alloc_alive. }
  assert (Kb : keeps w (set_heap (getBlueTexture c (heap w)).2
                          (set_textureCache (Some (getBlueTexture c (heap w)).1.2) w))).
  { unfold getBlueTexture. destruct (_blueTexture c); simpl.
    - by apply (keeps_getter _ c).
    - apply (keeps_getter _ c); [done|done|]. intros id. apply alloc_alive. }
  assert (Kk : keeps w (set_heap (getBlackTexture c (heap w)).2
                          (set_textureCache (Some (getBlackTexture c (heap w)).1.2) w))).
  { unfold getBlackTexture. destruct (_blackTexture c); simpl.
    - by apply (keeps_getter _ c).
    - apply (keeps_getter _ c); [done|done|]. intros id. apply alloc_alive. }
  destruct (getWhiteTexture c (heap w)) as [[rw cw] hw].
  destruct (getBlueTexture c (heap w)) as [[rb cb] hb].
  destruct (getBlackTexture c (heap w)) as [[rk ck] hk].
  destruct type; simpl; first [done | apply keeps_refl].
Qed.

Lemma getFallbackTexture_keeps (this : NetworkTexture) (w : World) :
  keeps w (getFallbackTexture this w).2.
Proof.
  unfold getFallbackTexture.
  destruct (_type this); first [apply getFallbackTextureForType_keeps | apply keeps_refl].
Qed.

Lemma saveKtx_keeps (task : ImageReader) (texture : TexId) (memKtx : option KTX) (w : World) :
  keeps w (saveKtx task texture memKtx w).
Proof.
  unfold saveKtx.
  destruct memKtx as [ktx|]; [|apply keeps_refl].
  destruct (textureCache w) as [c|] eqn:Hc; [|apply keeps_refl].
  destruct (writeFile _ _ _ _) as [[file|] k].
  - assert (K : keeps w (set_resources
                (alter (set_file (Some file)) (_resource task)
                   (resources (set_textureCache (Some (set_ktxCache k c)) w)))
                (set_textureCache (Some (set_ktxCache k c)) w))).
    { split; [done|]. split; [intros rid; simpl; apply lookup_alter_is_Some|].
      repeat split; simpl; try done. by rewrite Hc. }
    destruct (getKTX file) as [fileKtx|]; [|done].
    eapply keeps_trans; [exact K|]. apply keeps_alter.
  - split; [done|]. split; [done|].
    repeat split; simpl; try done. by rewrite Hc.
Qed.

(** Without a container nothing is written; a refused write changes at most
    the file cache itself. *)
Lemma saveKtx_not_serialized (task : ImageReader) (texture : TexId) (w : World) :
  saveKtx task texture None w = w.
Proof. done. Qed.

Lemma saveKtx_not_written (task : ImageReader) (texture : TexId) (ktx : KTX)
    (w : World) (c : TextureCache) (k : KTXCache) :
  textureCache w = Some c →
  writeFile (_ktxCache c) (_storage ktx) (_hash task)
            (Z.of_nat (length (_storage ktx))) = (None, k) →
  saveKtx task texture (Some ktx) w = set_textureCache (Some (set_ktxCache k c)) w.
Proof. intros Hc Hw. unfold saveKtx. by rewrite Hc, Hw. Qed.

Lemma reconcile_registered (task : ImageReader) (id : TexId) (wc w1 : World)
    (texture : TexturePointer) :
  is_Some (objects (heap wc) !! id) →
  reconcile task (Some id) wc = (w1, texture) →
  heap w1 = heap wc
  ∧ resources w1 = resources wc
  ∧ queue w1 = queue wc
  ∧ threadPool w1 = threadPool wc
  ∧ emitted w1 = emitted wc
  ∧ is_Some texture
  ∧ strong (heap w1) texture
  ∧ (∀ c1, textureCache w1 = Some c1 →
       liveEntry (heap w1) (_texturesByHashes c1) (_hash task) = texture)
  ∧ (∀ c, textureCache wc = Some c →
       ∃ c1, textureCache w1 = Some c1
             ∧ cacheTextureByHash (heap w1) (_hash task) (Some id) c = (c1, texture)
             ∧ _ktxCache c1 = _ktxCache c)
  ∧ (textureCache wc = None → w1 = wc ∧ texture = Some id).
Proof.
  intros Hid. unfold reconcile.
  destruct (textureCache wc) as [c|] eqn:Hc.
  - pose proof (cacheTextureByHash_holder (heap wc) (_hash task) (Some id) c Hid) as Hh.
    destruct (cacheTextureByHash (heap wc) (_hash task) (Some id) c) as [c1 r] eqn:Hr.
    simpl in Hh. intros [= <- <-]. simpl.
    assert (Hsome : is_Some r).
    { destruct (liveEntry (heap wc) (_texturesByHashes c) (_hash task)) as [e|] eqn:E.
      - rewrite (cacheTextureByHash_live _ _ _ _ _ E) in Hr. injection Hr as <- <-. by eexists.
      - rewrite (cacheTextureByHash_free _ _ _ _ E) in Hr. injection Hr as <- <-. by eexists. }
    assert (Hk : _ktxCache c1 = _ktxCache c).
    { unfold cacheTextureByHash in Hr.
      destruct (cacheTextureByHash_map _ _ _ _) as [m r']. by injection Hr as <- <-. }
    do 5 (split; [done|]). split; [done|].
    split; [rewrite <- Hh; apply lock_is_strong|].
    split; [by intros c2 [= <-]|].
    split; [intros c0 [= <-]; by exists c1|]. done.
  - intros [= <- <-].
    do 5 (split; [done|]). split; [by eexists|]. split; [done|].
    split; [intros; congruence|]. split; [intros; congruence|]. done.
Qed.

(** With a non-null texture the block runs through to the registry leg, and
    what comes before it keeps the world in the sense of [keeps]. *)
Lemma read_attach_live (task : ImageReader) (networkTexture : NetworkTexture)
    (id : TexId) (w0 : World) :
  ∃ wc, keeps w0 wc
        ∧ read_attach task networkTexture (Some id) w0
          = Returned (reconcile task (Some id) wc).
Proof.
  unfold read_attach.
  pose proof (getFallbackTexture_keeps networkTexture w0) as Ka.
  destruct (getFallbackTexture networkTexture w0) as [fallback wa].
  simpl in *.
  eexists. split; [|reflexivity].
  eapply keeps_trans; [exact Ka|].
  eapply keeps_trans; [apply keeps_alter|].
  apply saveKtx_keeps.
Qed.

(** A task whose image parsed, whose resource is alive and whose transform
    returned a texture gets to the registry leg, with its new texture alive. *)
Lemma read_decode_transformed (task : ImageReader) (w : World)
    (networkTexture : NetworkTexture) (t : Texture) :
  notLoaded (parse task) = false →
  resources w !! _resource task = Some networkTexture →
  let d := downscale (reader_maxNumPixels task) (parse task) in
  call (getTextureLoader networkTexture) d.1.1 (toString (reader_url task))
  = Returned (Some t) →
  ∃ wc, keeps w wc
        ∧ is_Some (objects (heap wc) !! nextId (heap w))
        ∧ read_decode task w
          = Returned ((reconcile task (Some (nextId (heap w))) wc).1,
                      Some (mkDecoded (reconcile task (Some (nextId (heap w))) wc).2
                                      d.1.2 d.2)).
Proof.
  intros Hok Hres d Hcall.
  rewrite (read_decode_live _ _ _ Hok Hres). simpl. fold d. rewrite Hcall. simpl.
  set (id := nextId (heap w)).
  set (w0 := set_heap _ w).
  assert (K0 : keeps w w0).
  { split; [|by repeat split].
    intros i Hi. simpl. apply alter_alive.
    destruct (decide (id = i)) as [->|?].
    - rewrite lookup_insert_eq. by eexists.
    - by rewrite lookup_insert_ne. }
  assert (A0 : is_Some (objects (heap w0) !! id)).
  { simpl. apply alter_alive. rewrite lookup_insert_eq. by eexists. }
  destruct (read_attach_live task networkTexture id w0) as (wc & Kc & ->).
  exists wc. split; [eauto using keeps_trans|].
  split; [by apply Kc|].
  simpl. by destruct (reconcile task (Some id) wc).
Qed.

(** A task that reaches the deliver step came through the registry leg. *)
Lemma read_decode_Some (task : ImageReader) (w w1 : World) (d : Decoded) :
  read_decode task w = Returned (w1, Some d) →
  ∃ wc, keeps w wc
        ∧ is_Some (objects (heap wc) !! nextId (heap w))
        ∧ reconcile task (Some (nextId (heap w))) wc = (w1, decoded_texture d).
Proof.
  intros Hd.
  destruct (notLoaded (parse task)) eqn:Hok.
  { unfold read_decode in Hd. by rewrite Hok in Hd. }
  destruct (resources w !! _resource task) as [networkTexture|] eqn:Hres.
  2:{ unfold read_decode in Hd. rewrite Hok, Hres in Hd.
      by destruct (downscale _ _) as [[? ?] ?]. }
  destruct (call (getTextureLoader networkTexture)
              (downscale (reader_maxNumPixels task) (parse task)).1.1
              (toString (reader_url task))) as [[t|]| | |] eqn:Hcall.
  - destruct (read_decode_transformed task w networkTexture t Hok Hres Hcall)
      as (wc & K & A & E).
    rewrite E in Hd. injection Hd as <- <-.
    exists wc. split; [done|]. split; [done|].
    by destruct (reconcile _ _ wc).
  - rewrite (read_decode_live _ _ _ Hok Hres) in Hd. simpl in Hd.
    by rewrite Hcall in Hd.
  - rewrite (read_decode_live _ _ _ Hok Hres) in Hd. simpl in Hd.
    by rewrite Hcall in Hd.
  - rewrite (read_decode_live _ _ _ Hok Hres) in Hd. simpl in Hd.
    by rewrite Hcall in Hd.
  - rewrite (read_decode_live _ _ _ Hok Hres) in Hd. simpl in Hd.
    by rewrite Hcall in Hd.
Qed.

(** *** Letting go *)

Lemma rooted_queued (w : World) (id : TexId) (target : ResId) (ow oh : Z) :
  invoke_setImage target (Some id) ow oh ∈ queue w → rooted w id = true.
Proof.
  intros Hin. unfold rooted.
  assert (Hq : existsb (λ i, match i with
                             | invoke_setImage _ texture _ _ => bool_decide (texture = Some id)
                             | invoke_loadContent _ _ => false
                             end) (queue w) = true).
  { apply existsb_exists. exists (invoke_setImage target (Some id) ow oh).
    split; [by apply list_elem_of_In|]. by apply bool_decide_eq_true. }
  rewrite Hq. by rewrite !orb_true_r.
Qed.

Lemma rooted_owned (w : World) (id : TexId) : rooted w id = true → owned w id = true.
Proof. intros Hr. unfold owned. by rewrite Hr. Qed.

Lemma rooted_set_heap (hp : Heap) (w : World) (id : TexId) :
  rooted (set_heap hp w) id = rooted w id.
Proof. done. Qed.

Lemma letGo_owned (fuel : nat) (w : World) (id : TexId) :
  owned w id = true → letGo fuel (Some id) w = w.
Proof. intros Ho. destruct fuel; simpl; [done|]. by rewrite Ho. Qed.

Lemma release_owned (w : World) (id : TexId) :
  owned w id = true → release (Some id) w = w.
Proof. apply letGo_owned. Qed.

Lemma release_None (w : World) : release None w = w.
Proof. done. Qed.

(** Letting go removes objects and does nothing else. *)
Lemma letGo_frame (fuel : nat) (p : TexturePointer) (w : World) :
  textureCache (letGo fuel p w) = textureCache w
  ∧ resources (letGo fuel p w) = resources w
  ∧ queue (letGo fuel p w) = queue w
  ∧ threadPool (letGo fuel p w) = threadPool w
  ∧ emitted (letGo fuel p w) = emitted w
  ∧ pendingProcessing (letGo fuel p w) = pendingProcessing w
  ∧ elsewhere (letGo fuel p w) = elsewhere w
  ∧ nextId (heap (letGo fuel p w)) = nextId (heap w)
  ∧ (∀ id t, objects (heap (letGo fuel p w)) !! id = Some t →
             objects (heap w) !! id = Some t)
  ∧ (∀ id, rooted w id = true →
           objects (heap (letGo fuel p w)) !! id = objects (heap w) !! id).
Proof.
  revert p w. induction fuel as [|fuel IH]; intros p w; simpl; [by split_and!|].
  destruct p as [id|]; [|by split_and!].
  destruct (owned w id) eqn:Ho; [by split_and!|].
  destruct (objects (heap w) !! id) as [t|] eqn:Ht; [|by split_and!].
  destruct (IH (fallbackTexture t)
              (set_heap (mkHeap (delete id (objects (heap w))) (nextId (heap w))) w))
    as (A1 & A2 & A3 & A4 & A5 & A6 & A7 & A8 & A9 & A10).
  split_and!; try done.
  - intros id' t' Hl. apply A9 in Hl. simpl in Hl.
    apply lookup_delete_Some in Hl. by destruct Hl.
  - intros id' Hr. rewrite (A10 id' Hr). simpl.
    apply lookup_delete_ne. intros <-.
    apply rooted_owned in Hr. congruence.
Qed.

(** The fuel of [release] is never used up: more of it changes nothing. *)
Lemma letGo_fuel (fuel fuel' : nat) (p : TexturePointer) (w : World) :
  size (objects (heap w)) < fuel → fuel ≤ fuel' →
  letGo fuel' p w = letGo fuel p w.
Proof.
  revert fuel' p w. induction fuel as [|fuel IH]; intros fuel' p w Hsize Hle; [lia|].
  destruct fuel' as [|fuel']; [lia|]. simpl.
  destruct p as [id|]; [|done].
  destruct (owned w id); [done|].
  destruct (objects (heap w) !! id) as [t|] eqn:Ht; [|done].
  apply IH; [|lia]. simpl.
  rewrite map_size_delete_Some by (by eexists).
  assert (Hpos : size (objects (heap w)) ≠ 0)
    by (apply (map_size_ne_0_lookup_2 _ id); by eexists).
  destruct (size (objects (heap w))); [done|]. simpl. lia.
Qed.

Lemma release_frame (p : TexturePointer) (w : World) :
  textureCache (release p w) = textureCache w
  ∧ resources (release p w) = resources w
  ∧ queue (release p w) = queue w
  ∧ threadPool (release p w) = threadPool w
  ∧ emitted (release p w) = emitted w
  ∧ pendingProcessing (release p w) = pendingProcessing w
  ∧ elsewhere (release p w) = elsewhere w
  ∧ nextId (heap (release p w)) = nextId (heap w)
  ∧ (∀ id t, objects (heap (release p w)) !! id = Some t →
             objects (heap w) !! id = Some t)
  ∧ (∀ id, rooted w id = true →
           objects (heap (release p w)) !! id = objects (heap w) !! id).
Proof. apply letGo_frame. Qed.

Lemma release_gone (w : World) (id : TexId) :
  owned w id = false → objects (heap (release (Some id) w)) !! id = None.
Proof.
  intros Ho. unfold release. simpl. rewrite Ho.
  destruct (objects (heap w) !! id) as [t|] eqn:Ht; [|done].
  destruct (objects (heap (letGo _ _ _)) !! id) as [t'|] eqn:Hl; [|done].
  apply letGo_frame in Hl. simpl in Hl. by rewrite lookup_delete_eq in Hl.
Qed.

Lemma assign_frame (p q : TexturePointer) (w : World) :
  textureCache (assign p q w) = textureCache w
  ∧ resources (assign p q w) = resources w
  ∧ queue (assign p q w) = queue w
  ∧ threadPool (assign p q w) = threadPool w
  ∧ emitted (assign p q w) = emitted w
  ∧ pendingProcessing (assign p q w) = pendingProcessing w
  ∧ elsewhere (assign p q w) = elsewhere w
  ∧ nextId (heap (assign p q w)) = nextId (heap w)
  ∧ (∀ id t, objects (heap (assign p q w)) !! id = Some t →
             objects (heap w) !! id = Some t)
  ∧ (∀ id, rooted w id = true →
           objects (heap (assign p q w)) !! id = objects (heap w) !! id).
Proof.
  unfold assign. destruct (decide (p = q)); [by split_and!|apply release_frame].
Qed.

Lemma assign_same (p : TexturePointer) (w : World) : assign p p w = w.
Proof. unfold assign. by rewrite decide_True. Qed.

(** A delivery keeps the texture: the queued invocation owns it. *)
Lemma release_delivered (task : ImageReader) (d : Decoded) (w : World) :
  is_Some (resources w !! _resource task) →
  release (decoded_texture d) (read_deliver task d w)
  = set_queue (queue w ++ [invoke_setImage (_resource task) (decoded_texture d)
                                           (decoded_width d) (decoded_height d)]) w.
Proof.
  intros [r Hr]. unfold read_deliver. rewrite Hr.
  destruct (decoded_texture d) as [id|] eqn:Hid; [|done].
  apply release_owned, rooted_owned.
  eapply rooted_queued. simpl. apply elem_of_app. right. apply list_elem_of_singleton. done.
Qed.

(** C6. In a task whose transform produced a texture, with the texture cache
    present, nothing that [serialize] or [writeFile] returns (a null
    container, a failed write) stops the task: it returns normally, its
    texture has gone through [cacheTextureByHash] on a registry that was
    untouched until then, the registry's holder for the hash is the texture
    the task ends up with, and when the resource is still alive at the
    deliver step (a texture of the task that the registry did not take
    having been destroyed by the assignment that ends the block) exactly
    that texture is handed to [setImage], after which the resource is loaded
    and holds it. *)
Theorem read_delivers_whatever_the_file_cache_does
    (task : ImageReader) (w : World) (networkTexture : NetworkTexture)
    (c : TextureCache) (t : Texture) :
  notLoaded (parse task) = false →
  resources w !! _resource task = Some networkTexture →
  textureCache w = Some c →
  let d := downscale (reader_maxNumPixels task) (parse task) in
  call (getTextureLoader networkTexture) d.1.1 (toString (reader_url task))
  = Returned (Some t) →
  ∃ w1 c0 c1 texture,
    read_decode task w = Returned (w1, Some (mkDecoded texture d.1.2 d.2))
    ∧ _texturesByHashes c0 = _texturesByHashes c
    ∧ cacheTextureByHash (heap w1) (_hash task) (Some (nextId (heap w))) c0 = (c1, texture)
    ∧ textureCache w1 = Some c1
    ∧ is_Some texture
    ∧ strong (heap w1) texture
    ∧ liveEntry (heap w1) (_texturesByHashes c1) (_hash task) = texture
    ∧ ∀ others,
        let wa := assign (Some (nextId (heap w))) texture w1 in
        is_Some (resources (others wa) !! _resource task) →
        read others task w
        = Returned (set_queue (queue (others wa)
                               ++ [invoke_setImage (_resource task) texture d.1.2 d.2])
                              (others wa))
        ∧ ∀ w2, is_Some (resources w2 !! _resource task) →
            ∃ this', resources (setImage (_resource task) texture d.1.2 d.2 w2)
                       !! _resource task = Some this'
                     ∧ Ready this' ∧ _textureSource this' = texture.
Proof.
  intros Hok Hres Hc d Hcall.
  destruct (read_decode_transformed task w networkTexture t Hok Hres Hcall)
    as (wc & K & A & E).
  fold d in E.
  destruct (reconcile task (Some (nextId (heap w))) wc) as [w1 texture] eqn:Hrec.
  simpl in E.
  destruct (reconcile_registered task _ wc w1 texture A Hrec)
    as (Hheap & Hresources & Hqueue & Hpool & Hemit & Hsome & Hstrong & Hheld & Hvia & _).
  destruct K as (_ & _ & Kreg & _).
  rewrite Hc in Kreg. simpl in Kreg.
  destruct (textureCache wc) as [c0|] eqn:Hc0; [|done].
  injection Kreg as Kreg.
  destruct (Hvia c0 eq_refl) as (c1 & Hc1 & Hcache & _).
  exists w1, c0, c1, texture.
  do 6 (split; [done|]). split; [by apply Hheld|].
  intros others wa Halive. split.
  - unfold read. rewrite E. simpl. fold wa. f_equal.
    exact (release_delivered task (mkDecoded texture d.1.2 d.2) (others wa) Halive).
  - intros w2 [this Hthis].
    destruct (setImage_live (_resource task) texture d.1.2 d.2 w2 this Hthis)
      as (this' & H1 & _ & H3 & _ & H5 & _).
    by exists this'.
Qed.

(** C7, as the code has it.  When the originating resource is gone at the
    deliver step, the second lock of the weak back-reference fails and the
    task returns without posting anything.  What the block completed is not
    undone: the cache, with the container written to the file cache and the
    entry made in the registry, the resources, the queue and the signals are
    what the other threads left, and nothing but textures that lost their
    last owner has gone from the heap.  The registry holds the texture of the
    task only weakly and the local pointer of the task was its owner: when
    the task returns the texture stays if a resource, a queued delivery, the
    cache or a pointer elsewhere holds it by then; if nothing owns it, it is
    destroyed, and the entry that still names it has expired.  When the
    resource is destroyed right after the block, the cache is as the block
    left it, with the task's texture under the hash of the task, and nothing
    has been queued or emitted. *)
Theorem read_abandons_delivery
    (others : World → World) (task : ImageReader) (w w1 : World) (d : Decoded) :
  read_decode task w = Returned (w1, Some d) →
  let wa := assign (Some (nextId (heap w))) (decoded_texture d) w1 in
  let wo := others wa in
  resources wo !! _resource task = None →
  let w2 := release (decoded_texture d) wo in
  read others task w = Returned w2
  ∧ (textureCache w2 = textureCache wo ∧ resources w2 = resources wo
     ∧ queue w2 = queue wo ∧ threadPool w2 = threadPool wo ∧ emitted w2 = emitted wo
     ∧ pendingProcessing w2 = pendingProcessing wo ∧ elsewhere w2 = elsewhere wo)
  ∧ (∀ id t, objects (heap w2) !! id = Some t → objects (heap wo) !! id = Some t)
  ∧ (∀ id, rooted wo id = true → objects (heap w2) !! id = objects (heap wo) !! id)
  ∧ (∀ id, decoded_texture d = Some id →
       (rooted wo id = true → w2 = wo)
       ∧ (owned wo id = false →
          objects (heap w2) !! id = None
          ∧ ∀ c2, textureCache w2 = Some c2 →
              _texturesByHashes c2 !! _hash task = Some (Some id) →
              liveEntry (heap w2) (_texturesByHashes c2) (_hash task) = None))
  ∧ (let wd := destroyResource (_resource task) wa in
     resources wd !! _resource task = None
     ∧ textureCache wd = textureCache w1
     ∧ queue wd = queue w
     ∧ emitted wd = emitted w
     ∧ ∀ c1, textureCache w1 = Some c1 →
         _texturesByHashes c1 !! _hash task = Some (decoded_texture d)).
Proof.
  intros Hd wa wo Hnone w2.
  destruct (read_decode_Some task w w1 d Hd) as (wc & K & A & Hrec).
  destruct (reconcile_registered task _ wc w1 _ A Hrec)
    as (Hheap & Hresources & Hqueue & Hpool & Hemit & Hsome & Hstrong & Hheld & _).
  destruct K as (_ & _ & _ & Kq & _ & Ke & _).
  destruct (release_frame (decoded_texture d) wo)
    as (F1 & F2 & F3 & F4 & F5 & F6 & F7 & F8 & F9 & F10).
  split.
  { unfold read. rewrite Hd. simpl. fold wa wo.
    unfold read_deliver. by rewrite Hnone. }
  split; [by split_and!|]. split; [done|]. split; [done|]. split.
  { intros id Hid. split.
    - intros Hr. unfold w2. rewrite Hid. by apply release_owned, rooted_owned.
    - intros Ho. assert (Hgone : objects (heap w2) !! id = None).
      { unfold w2. rewrite Hid. by apply release_gone. }
      split; [done|]. intros c2 _ Hentry.
      unfold liveEntry. rewrite Hentry. simpl. by rewrite Hgone. }
  destruct (assign_frame (Some (nextId (heap w))) (decoded_texture d) w1)
    as (G1 & G2 & G3 & _ & G5 & _).
  fold wa in G1, G2, G3, G5.
  assert (Hwd : resources (destroyResource (_resource task) wa) !! _resource task = None
                ∧ textureCache (destroyResource (_resource task) wa) = textureCache wa
                ∧ queue (destroyResource (_resource task) wa) = queue wa
                ∧ emitted (destroyResource (_resource task) wa) = emitted wa).
  { unfold destroyResource.
    destruct (resources wa !! _resource task) as [this|] eqn:Hthis; [|done].
    destruct (release_frame (_textureSource this)
                (set_resources (delete (_resource task) (resources wa)) wa))
      as (R1 & R2 & R3 & _ & R5 & _).
    rewrite R1, R2, R3, R5. simpl. by rewrite lookup_delete_eq. }
  destruct Hwd as (W1 & W2 & W3 & W4).
  simpl. split; [done|]. split; [congruence|]. split; [congruence|]. split; [congruence|].
  intros c1 Hc1. specialize (Hheld c1 Hc1).
  destruct Hsome as [id Hid]. rewrite Hid in Hheld |- *.
  unfold liveEntry, lock in Hheld.
  destruct (_texturesByHashes c1 !! _hash task) as [[e|]|]; simpl in Hheld; try done.
  destruct (objects (heap w1) !! e); [|done]. by injection Hheld as ->.
Qed.

(** ** Content arrival *)

Lemma getTextureByHash_result hp hash c :
  getTextureByHash hp hash c
  = (set_texturesByHashes (subscript (_texturesByHashes c) hash).1 c,
     liveEntry hp (_texturesByHashes c) hash).
Proof.
  unfold getTextureByHash.
  pose proof (getTextureByHash_map_result hp (_texturesByHashes c) hash) as Hr.
  unfold getTextureByHash_map in *.
  destruct (subscript (_texturesByHashes c) hash) as [m wk]. simpl in *.
  by rewrite Hr.
Qed.

(** A candidate created after a registry miss is what the registry accepts:
    the only object that has come alive since is the candidate itself. *)
Lemma cacheTextureByHash_after_miss hp hp2 hash id c :
  liveEntry hp (_texturesByHashes c) hash = None →
  is_Some (objects hp2 !! id) →
  (∀ e, is_Some (objects hp2 !! e) → e = id ∨ is_Some (objects hp !! e)) →
  (cacheTextureByHash hp2 hash (Some id)
     (set_texturesByHashes (subscript (_texturesByHashes c) hash).1 c)).2 = Some id.
Proof.
  intros Hmiss Hid Honly.
  set (c1 := set_texturesByHashes _ c).
  destruct (liveEntry hp2 (_texturesByHashes c1) hash) as [e|] eqn:E.
  - rewrite (cacheTextureByHash_live _ _ _ _ _ E). simpl.
    unfold c1 in E. simpl in E. rewrite liveEntry_subscript in E.
    unfold liveEntry in *.
    apply lock_Some in E as [Hw He]. rewrite Hw in Hmiss.
    destruct (Honly e He) as [->|[t Ht]]; [done|].
    simpl in Hmiss. by rewrite Ht in Hmiss.
  - by rewrite (cacheTextureByHash_free _ _ _ _ E).
Qed.

Lemma fromKtxCache_hit hash c hp ktxFile ktx t :
  getFile (_ktxCache c) hash = Some ktxFile →
  getKTX ktxFile = Some ktx →
  unserialize ktx = Some t →
  let id := nextId hp in
  let hp2 := mkHeap (alter (setKtxBacking ktx) id (<[id := t]> (objects hp)))
                    (id + 1)%positive in
  fromKtxCache hash c hp
  = ((cacheTextureByHash hp2 hash (Some id) c).2,
     (cacheTextureByHash hp2 hash (Some id) c).1, hp2).
Proof.
  intros Hf Hk Hu. unfold fromKtxCache. rewrite Hf, Hk, Hu. simpl.
  by destruct (cacheTextureByHash _ _ _ _).
Qed.

Lemma fromKtxCache_unreadable hash c hp ktxFile :
  getFile (_ktxCache c) hash = Some ktxFile →
  getKTX ktxFile = None ∨ (∃ ktx, getKTX ktxFile = Some ktx ∧ unserialize ktx = None) →
  fromKtxCache hash c hp = (None, c, hp).
Proof.
  intros Hf [Hk|(ktx & Hk & Hu)]; unfold fromKtxCache; rewrite Hf, Hk; [done|].
  by rewrite Hu.
Qed.

Lemma fromKtxCache_absent hash c hp :
  getFile (_ktxCache c) hash = None → fromKtxCache hash c hp = (None, c, hp).
Proof. intros Hf. unfold fromKtxCache. by rewrite Hf. Qed.

(** C5. When content arrives at a resource attached to the texture cache,
    the live registry is asked first, by the hash of the content.  On a hit
    the resource takes the live texture and is loaded, and no task is
    scheduled.  On a miss the file cache is asked: an entry that yields a
    container and a texture becomes a new texture backed by the container,
    goes through [cacheTextureByHash], is held by the registry and by the
    resource, which is loaded, and no task is scheduled; an entry that fails
    at the container or at the texture, like no entry at all, leaves the
    resource as it was and schedules one decode task for the content. *)
Theorem loadContent_consults_registry_then_file_cache
    (self : ResId) (content : QByteArray) (w : World)
    (this : NetworkTexture) (c : TextureCache) :
  resources w !! self = Some this →
  _cache this = true →
  textureCache w = Some c →
  let hash := md5Hex content in
  let w' := loadContent self content w in
  let task := mkImageReader self (_url this) content hash (_maxNumPixels this) in
  (∀ id, liveEntry (heap w) (_texturesByHashes c) hash = Some id →
     threadPool w' = threadPool w
     ∧ ∃ this', resources w' !! self = Some this'
                ∧ Ready this' ∧ _textureSource this' = Some id)
  ∧ (liveEntry (heap w) (_texturesByHashes c) hash = None →
     (∀ ktxFile ktx t,
        getFile (_ktxCache c) hash = Some ktxFile →
        getKTX ktxFile = Some ktx →
        unserialize ktx = Some t →
        let id := nextId (heap w) in
        threadPool w' = threadPool w
        ∧ objects (heap w') !! id = Some (setKtxBacking ktx t)
        ∧ (∃ c', textureCache w' = Some c'
                 ∧ cacheTextureByHash (heap w') hash (Some id)
                     (getTextureByHash (heap w) hash c).1 = (c', Some id)
                 ∧ liveEntry (heap w') (_texturesByHashes c') hash = Some id)
        ∧ ∃ this', resources w' !! self = Some this'
                   ∧ Ready this' ∧ _textureSource this' = Some id
                   ∧ _width this' = width t ∧ _height this' = height t)
     ∧ (∀ ktxFile,
          getFile (_ktxCache c) hash = Some ktxFile →
          getKTX ktxFile = None
          ∨ (∃ ktx, getKTX ktxFile = Some ktx ∧ unserialize ktx = None) →
          threadPool w' = threadPool w ++ [task]
          ∧ resources w' = resources w
          ∧ queue w' = queue w
          ∧ emitted w' = emitted w)
     ∧ (getFile (_ktxCache c) hash = None →
          threadPool w' = threadPool w ++ [task]
          ∧ resources w' = resources w
          ∧ queue w' = queue w
          ∧ emitted w' = emitted w)).
Proof.
  intros Hthis Hattached Hc hash w' task.
  assert (Hw' : w' = loadContent self content w) by done.
  unfold loadContent in Hw'. rewrite Hthis, Hattached, Hc in Hw'.
  rewrite getTextureByHash_result in Hw'. fold hash in Hw'.
  set (c1 := set_texturesByHashes (subscript (_texturesByHashes c) hash).1 c) in *.
  split.
  - intros id Hhit. rewrite Hhit in Hw'. simpl in Hw'.
    set (w2 := set_heap _ _) in Hw'.
    destruct (setImage_live self (Some id) (width (deref (heap w) id))
                (height (deref (heap w) id)) w2 this Hthis)
      as (this' & H1 & _ & H3 & _ & H5 & _ & _ & _ & H9 & _).
    rewrite <- Hw' in *. split; [done|]. by exists this'.
  - intros Hmiss. rewrite Hmiss in Hw'.
    split; [|split].
    + intros ktxFile ktx t Hf Hk Hu id.
      assert (Hf1 : getFile (_ktxCache c1) hash = Some ktxFile) by done.
      rewrite (fromKtxCache_hit hash c1 (heap w) ktxFile ktx t Hf1 Hk Hu) in Hw'.
      fold id in Hw'.
      set (hp2 := mkHeap _ _) in Hw'.
      assert (Hid : objects hp2 !! id = Some (setKtxBacking ktx t)).
      { simpl. rewrite lookup_alter_eq, lookup_insert_eq. done. }
      assert (Hres : (cacheTextureByHash hp2 hash (Some id) c1).2 = Some id).
      { apply (cacheTextureByHash_after_miss (heap w)); [done|by eexists|].
        intros e. simpl. rewrite alter_alive.
        destruct (decide (id = e)) as [->|?]; [by left|].
        rewrite lookup_insert_ne by done. by right. }
      pose proof (cacheTextureByHash_holder hp2 hash (Some id) c1 (ex_intro _ _ Hid)) as Hh.
      destruct (cacheTextureByHash hp2 hash (Some id) c1) as [c' r] eqn:Hcache.
      simpl in Hres, Hh. subst r. simpl in Hw'.
      set (w2 := set_heap _ _) in Hw'.
      destruct (setImage_live self (Some id) (width (deref hp2 id))
                  (height (deref hp2 id)) w2 this Hthis)
        as (this' & H1 & _ & H3 & _ & H5 & _ & _ & _ & H9 & H10 & H11).
      destruct (setImage_frame self (Some id) (width (deref hp2 id))
                  (height (deref hp2 id)) w2) as (Hheap & Hcache' & _).
      rewrite <- Hw' in *. simpl in Hheap, Hcache'.
      split; [done|]. rewrite Hheap. split; [done|].
      split.
      { exists c'. rewrite getTextureByHash_result. simpl. fold c1. done. }
      exists this'. do 3 (split; [done|]).
      unfold deref in H10, H11. simpl in H10, H11.
      change (objects hp2 !! id) with
        (alter (setKtxBacking ktx) id (<[id:=t]> (objects (heap w))) !! id) in Hid.
      rewrite Hid in H10, H11. done.
    + intros ktxFile Hf Hbad.
      assert (Hf1 : getFile (_ktxCache c1) hash = Some ktxFile) by done.
      rewrite (fromKtxCache_unreadable hash c1 (heap w) ktxFile Hf1 Hbad) in Hw'.
      by rewrite Hw'.
    + intros Hf.
      assert (Hf1 : getFile (_ktxCache c1) hash = None) by done.
      rewrite (fromKtxCache_absent hash c1 (heap w) Hf1) in Hw'.
      by rewrite Hw'.
Qed.

End Properties.

(** * Single precision *)

(** Every operation of the budget step returns a neighbour of the exact
    result: a relative error of at most [2^-23].  The operands that matter
    are positive and normal, so subnormal numbers and overflow do not arise. *)

(** ** Digits *)

(** The number of binary digits of a positive number. *)
Lemma digits2_pos_bounds (m : positive) :
  (2 ^ (Zpos (digits2_pos m) - 1) <= Zpos m < 2 ^ Zpos (digits2_pos m))%Z.
Proof.
  induction m as [m IH|m IH|]; simpl digits2_pos.
  - rewrite Pos2Z.inj_succ, Z.pow_succ_r by lia.
    replace (Z.succ (Zpos (digits2_pos m)) - 1)%Z with (Z.succ (Zpos (digits2_pos m) - 1)) by lia.
    rewrite Z.pow_succ_r by lia. lia.
  - rewrite Pos2Z.inj_succ, Z.pow_succ_r by lia.
    replace (Z.succ (Zpos (digits2_pos m)) - 1)%Z with (Z.succ (Zpos (digits2_pos m) - 1)) by lia.
    rewrite Z.pow_succ_r by lia. lia.
  - simpl. lia.
Qed.

Lemma Zdigits2_bounds (m : Z) :
  (0 < m)%Z → (2 ^ (Zdigits2 m - 1) <= m < 2 ^ Zdigits2 m)%Z ∧ (1 <= Zdigits2 m)%Z.
Proof.
  destruct m as [|p|p]; try lia. intros _. simpl Zdigits2.
  split; [apply digits2_pos_bounds | lia].
Qed.

Lemma Zdigits2_unique (m k : Z) :
  (0 < m)%Z → (2 ^ (k - 1) <= m < 2 ^ k)%Z → Zdigits2 m = k.
Proof.
  intros Hm [Hlo Hhi].
  destruct (Zdigits2_bounds m Hm) as [[Dlo Dhi] D1].
  assert (0 <= k)%Z.
  { destruct (Z.lt_ge_cases k 0) as [Hk|]; [|done].
    rewrite (Z.pow_neg_r 2 k) in Hhi by done. lia. }
  assert (k - 1 < Zdigits2 m)%Z.
  { apply (Z.pow_lt_mono_r_iff 2); lia. }
  assert (Zdigits2 m - 1 < k)%Z.
  { apply (Z.pow_lt_mono_r_iff 2); lia. }
  lia.
Qed.

(** ** Shifting right and rounding *)

Lemma shr_1_m (mrs : shr_record) :
  (0 <= shr_m mrs)%Z → shr_m (shr_1 mrs) = (shr_m mrs / 2)%Z ∧ (0 <= shr_m (shr_1 mrs))%Z.
Proof.
  destruct mrs as [m r s]. simpl. intros Hm.
  destruct m as [|[p|p|]|p]; simpl; try lia; (split; [|lia]).
  - done.
  - apply Z.div_unique with 1%Z; lia.
  - apply Z.div_unique with 0%Z; lia.
  - done.
Qed.

Lemma pow2_xO (p : positive) : (2 ^ Zpos p~0 = 2 ^ Zpos p * 2 ^ Zpos p)%Z.
Proof. replace (Zpos p~0) with (Zpos p + Zpos p)%Z by lia. by rewrite Z.pow_add_r by lia. Qed.

Lemma pow2_xI (p : positive) : (2 ^ Zpos p~1 = 2 * (2 ^ Zpos p * 2 ^ Zpos p))%Z.
Proof.
  replace (Zpos p~1) with (1 + (Zpos p + Zpos p))%Z by lia.
  by rewrite !Z.pow_add_r by lia.
Qed.

Lemma iter_pos_shr_1 (p : positive) (mrs : shr_record) :
  (0 <= shr_m mrs)%Z →
  shr_m (SpecFloat.iter_pos shr_1 p mrs) = (shr_m mrs / 2 ^ Zpos p)%Z
  ∧ (0 <= shr_m (SpecFloat.iter_pos shr_1 p mrs))%Z.
Proof.
  revert mrs. induction p as [p IH|p IH|]; intros mrs Hm; simpl SpecFloat.iter_pos.
  - destruct (shr_1_m mrs Hm) as [E1 P1].
    destruct (IH _ P1) as [E2 P2]. destruct (IH _ P2) as [E3 P3].
    split; [|done]. rewrite E3, E2, E1.
    assert (0 < 2 ^ Z.pos p)%Z by (apply Z.pow_pos_nonneg; lia).
    rewrite !Z.div_div by lia. by rewrite pow2_xI.
  - destruct (IH _ Hm) as [E2 P2]. destruct (IH _ P2) as [E3 P3].
    split; [|done]. rewrite E3, E2.
    assert (0 < 2 ^ Z.pos p)%Z by (apply Z.pow_pos_nonneg; lia).
    rewrite !Z.div_div by lia. by rewrite pow2_xO.
  - destruct (shr_1_m mrs Hm) as [E1 P1]. split; [|done]. rewrite E1. done.
Qed.

(** A significand of 24 to 26 bits is shifted down to 24 bits. *)
Lemma shr_fexp_normal (m e : Z) (l : location) :
  (0 < m)%Z → (24 <= Zdigits2 m)%Z → (-149 <= Zdigits2 m + e - 24)%Z →
  ∃ mrs, shr_fexp 24 128 m e l = (mrs, Zdigits2 m + e - 24)%Z
         ∧ shr_m mrs = (m / 2 ^ (Zdigits2 m - 24))%Z
         ∧ (Zdigits2 m = 24%Z → mrs = shr_record_of_loc m l).
Proof.
  intros Hm Hd He. unfold shr_fexp, shr, fexp, emin.
  replace (Z.max (Zdigits2 m + e - 24) (3 - 128 - 24) - e)%Z with (Zdigits2 m - 24)%Z by lia.
  destruct (Zdigits2 m - 24)%Z as [|p|p] eqn:En; [| |lia].
  - eexists; split; [f_equal; lia|]. split; [|done].
    rewrite Z.div_1_r. by destruct l as [|[]].
  - assert (H0 : (0 <= shr_m (shr_record_of_loc m l))%Z) by (destruct l as [|[]]; simpl; lia).
    destruct (iter_pos_shr_1 p _ H0) as [E _].
    eexists; split; [f_equal; lia|]. split; [|lia].
    rewrite E. by destruct l as [|[]].
Qed.

Lemma round_nearest_even_range (m : Z) (l : location) :
  round_nearest_even m l = m ∨ round_nearest_even m l = (m + 1)%Z.
Proof. destruct l as [|[]]; simpl; auto. destruct (Z.even m); auto. Qed.

Lemma round_nearest_even_exact (m : Z) : round_nearest_even m loc_Exact = m.
Proof. done. Qed.

Lemma normal_quotient (mx : Z) :
  (0 < mx)%Z → (24 <= Zdigits2 mx)%Z →
  (8388608 <= mx / 2 ^ (Zdigits2 mx - 24) < 16777216)%Z
  ∧ (mx / 2 ^ (Zdigits2 mx - 24) * 2 ^ (Zdigits2 mx - 24) <= mx
     < (mx / 2 ^ (Zdigits2 mx - 24) + 1) * 2 ^ (Zdigits2 mx - 24))%Z
  ∧ (8388608 * 2 ^ (Zdigits2 mx - 24) <= mx)%Z.
Proof.
  intros Hm Hd. destruct (Zdigits2_bounds mx Hm) as [[Hlo Hhi] _].
  set (n := (Zdigits2 mx - 24)%Z) in *.
  assert (Hn : (0 <= n)%Z) by lia.
  assert (Hp : (0 < 2 ^ n)%Z) by (apply Z.pow_pos_nonneg; lia).
  replace (Zdigits2 mx - 1)%Z with (23 + n)%Z in Hlo by lia.
  replace (Zdigits2 mx) with (24 + n)%Z in Hhi by lia.
  rewrite Z.pow_add_r in Hlo, Hhi by lia.
  change (2 ^ 23)%Z with 8388608%Z in Hlo. change (2 ^ 24)%Z with 16777216%Z in Hhi.
  pose proof (Z.div_mod mx (2 ^ n) ltac:(lia)) as Hdm.
  pose proof (Z.mod_pos_bound mx (2 ^ n) Hp) as Hmod.
  repeat split; try nia.
Qed.

(** Rounding a significand of 24 to 26 bits gives a normal number, or the
    next power of two. *)
Lemma binary_round_aux_normal (sx : bool) (mx ex : Z) (lx : location) :
  (0 < mx)%Z → (24 <= Zdigits2 mx)%Z → (-149 <= Zdigits2 mx + ex - 24)%Z →
  (Zdigits2 mx + ex <= 127)%Z →
  ∃ m e m2,
    binary_round_aux 24 128 sx mx ex lx = S754_finite sx m e
    ∧ (8388608 <= Zpos m < 16777216)%Z
    ∧ (m2 = mx / 2 ^ (Zdigits2 mx - 24) ∨ m2 = mx / 2 ^ (Zdigits2 mx - 24) + 1)%Z
    ∧ ((e = Zdigits2 mx + ex - 24 ∧ Zpos m = m2)%Z
       ∨ (e = Zdigits2 mx + ex - 24 + 1 ∧ 2 * Zpos m = m2)%Z)
    ∧ (Zdigits2 mx = 24%Z → lx = loc_Exact → m2 = mx).
Proof.
  intros Hm Hd He Hmax.
  destruct (normal_quotient mx Hm Hd) as ([Qlo Qhi] & _ & _).
  destruct (shr_fexp_normal mx ex lx Hm Hd He) as (mrs & Hshr & Hmrs & Hsame).
  unfold binary_round_aux. rewrite Hshr.
  set (m1 := (mx / 2 ^ (Zdigits2 mx - 24))%Z) in *.
  set (m2 := round_nearest_even (shr_m mrs) (loc_of_shr_record mrs)).
  assert (Hm2 : m2 = m1 ∨ m2 = (m1 + 1)%Z).
  { unfold m2. rewrite Hmrs. apply round_nearest_even_range. }
  assert (Hex : Zdigits2 mx = 24%Z → lx = loc_Exact → m2 = mx).
  { intros E24 ->. unfold m2. rewrite (Hsame E24). done. }
  set (e1 := (Zdigits2 mx + ex - 24)%Z) in *.
  assert (Hpos2 : (0 < m2)%Z) by lia.
  destruct (Z.lt_ge_cases m2 16777216) as [Hlt|Hge].
  - assert (D2 : Zdigits2 m2 = 24%Z) by (apply Zdigits2_unique; [lia|]; change (2^(24-1))%Z with 8388608%Z; change (2^24)%Z with 16777216%Z; lia).
    destruct (shr_fexp_normal m2 e1 loc_Exact Hpos2) as (mrs2 & Hshr2 & Hmrs2 & _); [lia|lia|].
    rewrite Hshr2. rewrite D2 in Hmrs2 |- *. rewrite Z.div_1_r in Hmrs2. rewrite Hmrs2.
    destruct m2 as [|p2|p2] eqn:Ep; try lia.
    replace (24 + e1 - 24 <=? 128 - 24)%Z with true by (symmetry; apply Z.leb_le; lia).
    exists p2, (24 + e1 - 24)%Z, (Zpos p2).
    split; [done|]. split; [lia|]. split; [done|]. split; [left; lia|done].
  - assert (E2 : m2 = 16777216%Z) by lia.
    assert (D2 : Zdigits2 m2 = 25%Z) by (rewrite E2; done).
    destruct (shr_fexp_normal m2 e1 loc_Exact Hpos2) as (mrs2 & Hshr2 & Hmrs2 & _); [lia|lia|].
    rewrite Hshr2. rewrite D2 in Hmrs2 |- *. rewrite E2 in Hmrs2.
    change (16777216 / 2 ^ (25 - 24))%Z with 8388608%Z in Hmrs2. rewrite Hmrs2.
    replace (25 + e1 - 24 <=? 128 - 24)%Z with true by (symmetry; apply Z.leb_le; lia).
    exists 8388608%positive, (25 + e1 - 24)%Z, m2.
    split; [done|]. split; [lia|]. split; [done|]. split; [right; lia|done].
Qed.

Lemma bpow_pos (e : Z) : (0 < bpow e)%R.
Proof. apply powerRZ_lt. lra. Qed.

Lemma bpow_add (a b : Z) : bpow (a + b) = (bpow a * bpow b)%R.
Proof. apply powerRZ_add. lra. Qed.

Lemma bpow_IZR (e : Z) : (0 <= e)%Z → bpow e = IZR (2 ^ e).
Proof.
  intros He. destruct e as [|p|p]; [done| |lia].
  unfold bpow. rewrite <- Zpower_pos_powerRZ. done.
Qed.

Lemma bpow_1 : bpow 1 = 2%R.
Proof. rewrite bpow_IZR by lia. done. Qed.

Lemma bpow_le (a b : Z) : (a <= b)%Z → (bpow a <= bpow b)%R.
Proof.
  intros H. replace b with (a + (b - a))%Z by lia. rewrite bpow_add.
  assert (1 <= bpow (b - a))%R.
  { rewrite bpow_IZR by lia. apply IZR_le.
    assert (0 < 2 ^ (b - a))%Z by (apply Z.pow_pos_nonneg; lia). lia. }
  pose proof (bpow_pos a). nra.
Qed.

(** Rounding is faithful: the result is finite, normal and within a
    relative [2^-23] of the exact value, and exact for an exact significand of
    24 bits. *)
Lemma binary_round_aux_faithful (sx : bool) (mx ex : Z) (lx : location) (x : R) :
  (0 < mx)%Z → (24 <= Zdigits2 mx)%Z → (-149 <= Zdigits2 mx + ex - 24)%Z →
  (Zdigits2 mx + ex <= 127)%Z →
  (IZR mx * bpow ex <= x < (IZR mx + 1) * bpow ex)%R →
  ∃ m e,
    binary_round_aux 24 128 sx mx ex lx = S754_finite sx m e
    ∧ (8388608 <= Zpos m < 16777216)%Z
    ∧ (Zdigits2 mx + ex - 24 <= e <= Zdigits2 mx + ex - 23)%Z
    ∧ (Rabs (IZR (Zpos m) * bpow e - x) <= x / 8388608)%R
    ∧ (Zdigits2 mx = 24%Z → lx = loc_Exact →
       (IZR (Zpos m) * bpow e = IZR mx * bpow ex)%R).
Proof.
  intros Hm Hd He Hmax Hx.
  destruct (binary_round_aux_normal sx mx ex lx Hm Hd He Hmax)
    as (m & e & m2 & Hr & Hb & Hm2 & Hcase & Hexact).
  destruct (normal_quotient mx Hm Hd) as (_ & [Qlo Qhi] & Qn).
  set (n := (Zdigits2 mx - 24)%Z) in *.
  set (m1 := (mx / 2 ^ n)%Z) in *.
  assert (Hn : (0 <= n)%Z) by lia.
  set (E := (Zdigits2 mx + ex - 24)%Z) in *.
  assert (HE : bpow E = (bpow ex * IZR (2 ^ n))%R).
  { replace E with (ex + n)%Z by lia. by rewrite bpow_add, (bpow_IZR n). }
  assert (Hval : (IZR (Zpos m) * bpow e = IZR m2 * bpow E)%R).
  { destruct Hcase as [[-> ->]|[-> <-]]; [done|].
    rewrite bpow_add, bpow_1, mult_IZR. lra. }
  pose proof (bpow_pos ex) as Pex. pose proof (bpow_pos E) as PE.
  assert (L1 : (IZR m1 * bpow E <= x)%R).
  { apply IZR_le in Qlo. rewrite mult_IZR in Qlo. rewrite HE. nra. }
  assert (L2 : (x <= (IZR m1 + 1) * bpow E)%R).
  { assert (mx + 1 <= (m1 + 1) * 2 ^ n)%Z as Q by lia.
    apply IZR_le in Q. rewrite mult_IZR, !plus_IZR in Q. rewrite HE. nra. }
  assert (L3 : (8388608 * bpow E <= x)%R).
  { apply IZR_le in Qn. rewrite mult_IZR in Qn. rewrite HE. nra. }
  exists m, e. split; [done|]. split; [done|]. split.
  { destruct Hcase as [[-> _]|[-> _]]; lia. }
  split.
  { rewrite Hval. apply Rabs_le.
    destruct Hm2 as [->| ->]; rewrite ?plus_IZR; split; nra. }
  intros E24 El. rewrite Hval, (Hexact E24 El). rewrite HE.
  unfold n. rewrite E24. change (2 ^ (24 - 24))%Z with 1%Z. lra.
Qed.

Lemma Zdigits2_range (m a b : Z) :
  (0 <= a)%Z → (2 ^ a <= m < 2 ^ b)%Z → (a < Zdigits2 m <= b)%Z.
Proof.
  intros Ha [Hlo Hhi].
  assert (Hm : (0 < m)%Z) by (assert (0 < 2 ^ a)%Z by (apply Z.pow_pos_nonneg; lia); lia).
  destruct (Zdigits2_bounds m Hm) as [[Dlo Dhi] D1].
  assert (0 <= b)%Z.
  { destruct (Z.lt_ge_cases b 0) as [Hk|]; [|done].
    rewrite (Z.pow_neg_r 2 b) in Hhi by done. lia. }
  split.
  - apply (Z.pow_lt_mono_r_iff 2); lia.
  - assert (Zdigits2 m - 1 < b)%Z; [|lia].
    apply (Z.pow_lt_mono_r_iff 2); lia.
Qed.

Lemma Zdigits2_normal (m : positive) :
  (8388608 <= Zpos m < 16777216)%Z → Zdigits2 (Zpos m) = 24%Z.
Proof. intros H. apply Zdigits2_unique; [lia|]. done. Qed.

Lemma F2R_normal (f : spec_float) (m : positive) (e : Z) :
  normal f m e → F2R f = (IZR (Zpos m) * bpow e)%R ∧ (8388608 * bpow e <= F2R f < 16777216 * bpow e)%R.
Proof.
  intros [-> [Hlo Hhi]]. simpl F2R. split; [lra|].
  pose proof (bpow_pos e). apply IZR_le in Hlo. apply IZR_lt in Hhi. nra.
Qed.

(** ** Multiplication *)

(** The product of two normal numbers of moderate exponent. *)
Lemma SFmul_faithful (a b : spec_float) (ma mb : positive) (ea eb : Z) :
  normal a ma ea → normal b mb eb → (-125 <= ea + eb <= 70)%Z →
  ∃ m e, normal (SFmul 24 128 a b) m e
         ∧ (ea + eb + 23 <= e <= ea + eb + 25)%Z
         ∧ (Rabs (F2R (SFmul 24 128 a b) - F2R a * F2R b) <= F2R a * F2R b / 8388608)%R.
Proof.
  intros [-> [Alo Ahi]] [-> [Blo Bhi]] He. simpl SFmul.
  set (P := Zpos (ma * mb)).
  assert (HP : (2 ^ 46 <= P < 2 ^ 48)%Z).
  { unfold P. rewrite Pos2Z.inj_mul. change (2 ^ 46)%Z with (8388608 * 8388608)%Z.
    change (2 ^ 48)%Z with (16777216 * 16777216)%Z. nia. }
  destruct (Zdigits2_range P 46 48 ltac:(lia) HP) as [D1 D2].
  destruct (binary_round_aux_faithful false P (ea + eb) loc_Exact
              (IZR (Zpos ma) * bpow ea * (IZR (Zpos mb) * bpow eb)))
    as (m & e & Hr & Hb & Hex & Habs & _); [lia|lia|lia|lia| |].
  { unfold P. rewrite Pos2Z.inj_mul, mult_IZR, bpow_add.
    pose proof (bpow_pos ea). pose proof (bpow_pos eb).
    assert (0 < bpow ea * bpow eb)%R by nra. split; nra. }
  exists m, e. rewrite Hr. split; [done|]. split; [lia|].
  simpl F2R. replace (1 * IZR (Z.pos ma) * bpow ea * (1 * IZR (Z.pos mb) * bpow eb))%R
    with (IZR (Z.pos ma) * bpow ea * (IZR (Z.pos mb) * bpow eb))%R by lra.
  replace (1 * IZR (Z.pos m) * bpow e)%R with (IZR (Z.pos m) * bpow e)%R by lra.
  done.
Qed.

(** ** Division *)

Lemma SFdiv_core_normal (ma mb : positive) (ea eb : Z) :
  (8388608 <= Zpos ma < 16777216)%Z → (8388608 <= Zpos mb < 16777216)%Z →
  (-125 <= ea - eb - 24)%Z →
  ∃ q l, SFdiv_core_binary 24 128 (Zpos ma) ea (Zpos mb) eb = (q, (ea - eb - 24)%Z, l)
         ∧ (8388608 <= q < 33554432)%Z
         ∧ (q * Zpos mb <= Zpos ma * 16777216 < (q + 1) * Zpos mb)%Z.
Proof.
  intros Ha Hb He. unfold SFdiv_core_binary.
  rewrite !Zdigits2_normal by done. unfold fexp, emin.
  replace (Z.min (Z.max (24 + ea - (24 + eb) - 24) (3 - 128 - 24)) (ea - eb))
    with (ea - eb - 24)%Z by lia.
  replace (ea - eb - (ea - eb - 24))%Z with 24%Z by lia.
  rewrite Z.shiftl_mul_pow2 by lia. change (2 ^ 24)%Z with 16777216%Z.
  pose proof (Z.div_eucl_eq (Zpos ma * 16777216) (Zpos mb) ltac:(lia)) as Heq.
  pose proof (Z.mod_pos_bound (Zpos ma * 16777216) (Zpos mb) ltac:(lia)) as Hmod.
  unfold Z.modulo in Hmod.
  destruct (Z.div_eucl (Zpos ma * 16777216) (Zpos mb)) as [q r].
  exists q, (new_location (Zpos mb) r). split; [done|].
  split; nia.
Qed.

(** The quotient of two normal numbers of moderate exponent. *)
Lemma SFdiv_faithful (a b : spec_float) (ma mb : positive) (ea eb : Z) :
  normal a ma ea → normal b mb eb → (-100 <= ea - eb <= 100)%Z →
  ∃ m e, normal (SFdiv 24 128 a b) m e
         ∧ (ea - eb - 24 <= e <= ea - eb - 22)%Z
         ∧ (Rabs (F2R (SFdiv 24 128 a b) - F2R a / F2R b) <= F2R a / F2R b / 8388608)%R.
Proof.
  intros [-> Ha] [-> Hb] He. simpl SFdiv.
  destruct (SFdiv_core_normal ma mb ea eb Ha Hb ltac:(lia)) as (q & l & -> & Hq & Hqm).
  assert (Hq' : (2 ^ 23 <= q < 2 ^ 25)%Z) by (change (2^23)%Z with 8388608%Z; change (2^25)%Z with 33554432%Z; lia).
  destruct (Zdigits2_range q 23 25 ltac:(lia) Hq') as [D1 D2].
  pose proof (bpow_pos ea) as Pa. pose proof (bpow_pos eb) as Pb.
  pose proof (bpow_pos (ea - eb - 24)) as Pe.
  assert (Hbe : (bpow ea = bpow (ea - eb - 24) * 16777216 * bpow eb)%R).
  { replace ea with ((ea - eb - 24) + 24 + eb)%Z at 1 by lia.
    rewrite !bpow_add, (bpow_IZR 24) by lia. done. }
  set (x := (IZR (Zpos ma) * bpow ea / (IZR (Zpos mb) * bpow eb))%R).
  assert (Hx : x = (IZR (Zpos ma) * 16777216 / IZR (Zpos mb) * bpow (ea - eb - 24))%R).
  { assert (Nmb : (IZR (Zpos mb) <> 0)%R) by (apply not_0_IZR; lia).
    unfold x. rewrite Hbe. field.
    repeat split; first [done | lra
                        | apply Rmult_integral_contrapositive_currified; first [done | lra]]. }
  assert (Pmb : (0 < IZR (Zpos mb))%R) by (apply IZR_lt; lia).
  destruct (binary_round_aux_faithful false q (ea - eb - 24) l x)
    as (m & e & Hr & Hbm & Hex & Habs & _); [lia|lia|lia|lia| |].
  { rewrite Hx. destruct Hqm as [Q1 Q2]. apply IZR_le in Q1. apply IZR_lt in Q2.
    rewrite !mult_IZR in Q1, Q2. rewrite plus_IZR in Q2.
    assert (IZR q <= IZR (Zpos ma) * 16777216 / IZR (Zpos mb) < IZR q + 1)%R.
    { assert (Hdiv : (IZR (Zpos ma) * 16777216 / IZR (Zpos mb) * IZR (Zpos mb)
                      = IZR (Zpos ma) * 16777216)%R) by (field; lra).
      split.
      - apply Rmult_le_reg_r with (IZR (Zpos mb)); [done|]. rewrite Hdiv. lra.
      - apply Rmult_lt_reg_r with (IZR (Zpos mb)); [done|]. rewrite Hdiv. lra. }
    split; nra. }
  exists m, e. rewrite Hr. split; [done|]. split; [lia|].
  simpl F2R.
  replace (1 * IZR (Z.pos ma) * bpow ea / (1 * IZR (Z.pos mb) * bpow eb))%R with x
    by (unfold x; f_equal; lra).
  replace (1 * IZR (Z.pos m) * bpow e)%R with (IZR (Z.pos m) * bpow e)%R by lra.
  done.
Qed.

(** ** Square root *)

Lemma SFsqrt_core_normal (ma : positive) (ea : Z) :
  (8388608 <= Zpos ma < 16777216)%Z → (-250 <= ea)%Z →
  ∃ q l s, SFsqrt_core_binary 24 128 (Zpos ma) ea = (q, ((ea - 23) / 2)%Z, l)
         ∧ (8388608 <= q < 16777216)%Z
         ∧ (s = 23 ∨ s = 24)%Z ∧ (ea = 2 * ((ea - 23) / 2) + s)%Z
         ∧ (q * q <= Zpos ma * 2 ^ s < (q + 1) * (q + 1))%Z.
Proof.
  intros Ha He. unfold SFsqrt_core_binary.
  rewrite Zdigits2_normal by done. unfold fexp, emin. rewrite !Z.div2_div.
  set (e' := ((ea - 23) / 2)%Z).
  assert (He' : (2 * e' <= ea - 23 < 2 * e' + 2)%Z).
  { unfold e'. pose proof (Z.div_mod (ea - 23) 2 ltac:(lia)).
    pose proof (Z.mod_pos_bound (ea - 23) 2 ltac:(lia)). lia. }
  assert (E1 : ((24 + ea + 1) / 2 = e' + 24)%Z).
  { symmetry. apply Z.div_unique with (ea - 23 - 2 * e')%Z; lia. }
  assert (E2 : (e' <= ea / 2)%Z).
  { apply Z.div_le_lower_bound; lia. }
  rewrite E1.
  replace (Z.min (Z.max (e' + 24 - 24) (3 - 128 - 24)) (ea / 2)) with e' by lia.
  set (s := (ea - 2 * e')%Z).
  assert (Hs : s = 23%Z ∨ s = 24%Z) by lia.
  assert (Hm' : match s with Z.pos _ => Z.shiftl (Z.pos ma) s | 0%Z => Z.pos ma | Z.neg _ => 0%Z end
                = (Zpos ma * 2 ^ s)%Z).
  { destruct Hs as [-> | ->]; by rewrite Z.shiftl_mul_pow2 by lia. }
  rewrite Hm'.
  assert (Hrange : (2 ^ 46 <= Zpos ma * 2 ^ s < 2 ^ 48)%Z).
  { destruct Hs as [-> | ->].
    - change (2 ^ 23)%Z with 8388608%Z. change (2^46)%Z with (8388608*8388608)%Z.
      change (2^48)%Z with (16777216 * 16777216)%Z. nia.
    - change (2 ^ 24)%Z with 16777216%Z. change (2^46)%Z with (8388608*8388608)%Z.
      change (2^48)%Z with (16777216 * 16777216)%Z. nia. }
  pose proof (Z.sqrtrem_spec (Zpos ma * 2 ^ s) ltac:(lia)) as Hspec.
  destruct (Z.sqrtrem (Z.pos ma * 2 ^ s)) as [q r].
  destruct Hspec as [Hqr Hr].
  eexists q, _, s. split; [done|].
  change (2 ^ 46)%Z with (8388608*8388608)%Z in Hrange.
  change (2 ^ 48)%Z with (16777216*16777216)%Z in Hrange.
  assert (0 <= q)%Z by lia.
  split; [nia|]. split; [done|]. split; [lia|]. nia.
Qed.

Lemma sqrt_between (q x : R) :
  (0 <= q)%R → (q * q <= x < (q + 1) * (q + 1))%R → (q <= sqrt x < q + 1)%R.
Proof.
  intros Hq [H1 H2]. split.
  - rewrite <- (sqrt_square q) at 1 by done. apply sqrt_le_1; nra.
  - rewrite <- (sqrt_square (q + 1)) by lra. apply sqrt_lt_1; nra.
Qed.

Lemma sqrt_bpow_square (e : Z) : sqrt (bpow e * bpow e) = bpow e.
Proof. apply sqrt_square. pose proof (bpow_pos e). lra. Qed.

(** The square root of a normal number of moderate exponent. *)
Lemma SFsqrt_faithful (a : spec_float) (ma : positive) (ea : Z) :
  normal a ma ea → (-200 <= ea <= 200)%Z →
  ∃ m e, normal (SFsqrt 24 128 a) m e
         ∧ ((ea - 23) / 2 <= e <= (ea - 23) / 2 + 1)%Z
         ∧ (Rabs (F2R (SFsqrt 24 128 a) - sqrt (F2R a)) <= sqrt (F2R a) / 8388608)%R.
Proof.
  intros [-> Ha] He. simpl SFsqrt.
  destruct (SFsqrt_core_normal ma ea Ha ltac:(lia)) as (q & l & s & -> & Hq & Hs & Hea & Hqq).
  set (e' := ((ea - 23) / 2)%Z) in *.
  assert (Hd : Zdigits2 q = 24%Z).
  { destruct q as [|p|p]; try lia. by apply Zdigits2_normal. }
  pose proof (bpow_pos e') as Pe.
  set (x := sqrt (IZR (Zpos ma) * bpow ea)).
  assert (Hx : x = (sqrt (IZR (Zpos ma * 2 ^ s)) * bpow e')%R).
  { unfold x.
    transitivity (sqrt (IZR (Zpos ma * 2 ^ s)) * sqrt (bpow e' * bpow e'))%R;
      [|by rewrite sqrt_bpow_square].
    rewrite <- sqrt_mult.
    - f_equal. rewrite Hea at 1. replace (2 * e' + s)%Z with (s + e' + e')%Z by lia.
      rewrite !bpow_add, mult_IZR, (bpow_IZR s) by lia. lra.
    - apply IZR_le. assert (0 < 2 ^ s)%Z by (apply Z.pow_pos_nonneg; lia). lia.
    - nra. }
  destruct (binary_round_aux_faithful false q e' l x)
    as (m & e & Hr & Hbm & Hex & Habs & _); [lia|lia|lia|lia| |].
  { rewrite Hx. destruct Hqq as [Q1 Q2]. apply IZR_le in Q1. apply IZR_lt in Q2.
    rewrite !mult_IZR in Q1, Q2. rewrite !plus_IZR in Q2. rewrite mult_IZR.
    assert (0 <= IZR q)%R by (apply IZR_le; lia).
    pose proof (sqrt_between (IZR q) (IZR (Z.pos ma) * IZR (2 ^ s)) ltac:(done) ltac:(lra)).
    split; nra. }
  exists m, e. rewrite Hr. split; [done|]. split; [lia|].
  simpl F2R.
  replace (1 * IZR (Z.pos ma) * bpow ea)%R with (IZR (Z.pos ma) * bpow ea)%R by lra.
  replace (1 * IZR (Z.pos m) * bpow e)%R with (IZR (Z.pos m) * bpow e)%R by lra.
  done.
Qed.

(** ** Rounding an integer *)

Lemma Pos_iter_xO (m k : positive) : Zpos (Pos.iter xO m k) = (Zpos m * 2 ^ Zpos k)%Z.
Proof.
  induction k as [|k IH] using Pos.peano_ind.
  - simpl. lia.
  - rewrite Pos.iter_succ, Pos2Z.inj_succ, Z.pow_succ_r by lia.
    rewrite Pos2Z.inj_xO, IH. lia.
Qed.

(** Rounding an integer significand of any size. *)
Lemma binary_round_faithful (sx : bool) (mx : positive) (ex : Z) :
  (-149 <= Zdigits2 (Zpos mx) + ex - 24)%Z → (Zdigits2 (Zpos mx) + ex <= 127)%Z →
  ∃ m e, binary_round 24 128 sx mx ex = S754_finite sx m e
         ∧ (8388608 <= Zpos m < 16777216)%Z
         ∧ (Zdigits2 (Zpos mx) + ex - 24 <= e <= Zdigits2 (Zpos mx) + ex - 23)%Z
         ∧ (Rabs (IZR (Zpos m) * bpow e - IZR (Zpos mx) * bpow ex)
            <= IZR (Zpos mx) * bpow ex / 8388608)%R
         ∧ ((Zdigits2 (Zpos mx) <= 24)%Z →
            (IZR (Zpos m) * bpow e = IZR (Zpos mx) * bpow ex)%R).
Proof.
  intros He Hmax. unfold binary_round, shl_align, fexp, emin.
  change (Zpos (digits2_pos mx)) with (Zdigits2 (Zpos mx)).
  set (d := Zdigits2 (Zpos mx)) in *.
  destruct (Zdigits2_bounds (Zpos mx) ltac:(lia)) as [[Dlo Dhi] D1]. fold d in Dlo, Dhi, D1.
  replace (Z.max (d + ex - 24) (3 - 128 - 24) - ex)%Z with (d - 24)%Z by lia.
  replace (Z.max (d + ex - 24) (3 - 128 - 24))%Z with (d + ex - 24)%Z by lia.
  pose proof (bpow_pos ex) as Pex.
  assert (Pmx : (0 < IZR (Zpos mx))%R) by (apply IZR_lt; lia).
  destruct (d - 24)%Z as [|k|k] eqn:Ek.
  - destruct (binary_round_aux_faithful sx (Zpos mx) ex loc_Exact (IZR (Zpos mx) * bpow ex))
      as (m & e & Hr & Hbm & Hex & Habs & Hexact); [lia|fold d; lia|fold d; lia|fold d; lia|nra|].
    exists m, e. fold d in Hex. split; [done|]. split; [done|]. split; [lia|]. split; [done|].
    intros _. apply Hexact; [fold d; lia|done].
  - destruct (binary_round_aux_faithful sx (Zpos mx) ex loc_Exact (IZR (Zpos mx) * bpow ex))
      as (m & e & Hr & Hbm & Hex & Habs & Hexact); [lia|fold d; lia|fold d; lia|fold d; lia|nra|].
    exists m, e. fold d in Hex. split; [done|]. split; [done|]. split; [lia|]. split; [done|].
    intros ?. lia.
  - set (m' := Pos.iter xO mx k).
    assert (Hm' : Zpos m' = (Zpos mx * 2 ^ Zpos k)%Z) by apply Pos_iter_xO.
    assert (Hk : (Zpos k = 24 - d)%Z) by lia.
    assert (Hd' : Zdigits2 (Zpos m') = 24%Z).
    { apply Zdigits2_unique; [lia|]. rewrite Hm', Hk.
      assert (P23 : (2 ^ (24 - 1) = 2 ^ (d - 1) * 2 ^ (24 - d))%Z)
        by (rewrite <- Z.pow_add_r by lia; f_equal; lia).
      assert (P24 : (2 ^ 24 = 2 ^ d * 2 ^ (24 - d))%Z)
        by (rewrite <- Z.pow_add_r by lia; f_equal; lia).
      rewrite P23, P24.
      assert (0 < 2 ^ (24 - d))%Z by (apply Z.pow_pos_nonneg; lia). nia. }
    assert (Hval : (IZR (Zpos m') * bpow (d + ex - 24) = IZR (Zpos mx) * bpow ex)%R).
    { rewrite Hm', mult_IZR, <- (bpow_IZR (Zpos k)) by lia.
      rewrite Rmult_assoc, <- bpow_add. do 2 f_equal. lia. }
    destruct (binary_round_aux_faithful sx (Zpos m') (d + ex - 24) loc_Exact
                (IZR (Zpos mx) * bpow ex))
      as (m & e & Hr & Hbm & Hex & Habs & Hexact);
      [lia|lia|lia|lia| |].
    { rewrite <- Hval. pose proof (bpow_pos (d + ex - 24)). nra. }
    exists m, e. rewrite Hd' in Hex. split; [done|]. split; [done|]. split; [lia|].
    split; [done|]. intros _. rewrite <- Hval. by apply Hexact.
Qed.

Lemma bpow_neg_IZR (e : Z) : (0 <= e)%Z → (bpow (- e) * IZR (2 ^ e) = 1)%R.
Proof.
  intros He. rewrite <- bpow_IZR by done. rewrite <- bpow_add.
  replace (- e + e)%Z with 0%Z by lia. done.
Qed.

(** ** Conversion from [int] *)

(** [(float)z] for a positive [int]: normal, with an exponent between -23
    and 8, and within a relative [2^-23] of [z]. *)
Lemma float_of_int_faithful (z : Z) :
  (1 <= z <= 2147483647)%Z →
  ∃ m e, normal (float_of_int z) m e ∧ (-23 <= e <= 8)%Z
         ∧ (Rabs (F2R (float_of_int z) - IZR z) <= IZR z / 8388608)%R.
Proof.
  intros Hz. destruct z as [|p|p]; try lia. unfold float_of_int. simpl binary_normalize.
  assert (Hr : (2 ^ 0 <= Zpos p < 2 ^ 31)%Z) by (change (2^0)%Z with 1%Z; change (2^31)%Z with 2147483648%Z; lia).
  destruct (Zdigits2_range (Zpos p) 0 31 ltac:(lia) Hr) as [D1 D2].
  destruct (binary_round_faithful false p 0 ltac:(lia) ltac:(lia))
    as (m & e & Hb & Hm & He & Habs & _).
  exists m, e. rewrite Hb. split; [done|]. split; [lia|].
  simpl F2R. change (bpow 0) with 1%R in Habs.
  replace (1 * IZR (Z.pos m) * bpow e)%R with (IZR (Z.pos m) * bpow e)%R by lra.
  replace (IZR (Z.pos p) * 1)%R with (IZR (Z.pos p)) in Habs by lra. done.
Qed.

(** ** Adding one half *)

Lemma shl_align_value (mx : positive) (ex ez : Z) :
  (ez <= ex)%Z → Zpos (fst (shl_align mx ex ez)) = (Zpos mx * 2 ^ (ex - ez))%Z.
Proof.
  intros H. unfold shl_align. destruct (ez - ex)%Z as [|k|k] eqn:E; simpl fst.
  - replace (ex - ez)%Z with 0%Z by lia. lia.
  - lia.
  - rewrite Pos_iter_xO. f_equal. f_equal. lia.
Qed.

(** Adding [0.5f] to a normal number of moderate exponent. *)
Lemma SFadd_half_faithful (a : spec_float) (ma : positive) (ea : Z) :
  normal a ma ea → (-100 <= ea <= 100)%Z →
  ∃ m e, normal (SFadd 24 128 a half) m e
         ∧ (Rabs (F2R (SFadd 24 128 a half) - (F2R a + / 2)) <= (F2R a + / 2) / 8388608)%R.
Proof.
  intros [-> Ha] He. unfold half, SFadd. cbv beta iota zeta. unfold cond_Zopp.
  set (ez := Z.min ea (-24)).
  rewrite !shl_align_value by lia.
  set (M := (Z.pos ma * 2 ^ (ea - ez) + 8388608 * 2 ^ (-24 - ez))%Z).
  assert (P1 : (0 < 2 ^ (ea - ez))%Z) by (apply Z.pow_pos_nonneg; lia).
  assert (P2 : (0 < 2 ^ (-24 - ez))%Z) by (apply Z.pow_pos_nonneg; lia).
  assert (HM0 : (0 < M)%Z) by (unfold M; nia).
  (* the value *)
  assert (Hval : (IZR M * bpow ez = IZR (Zpos ma) * bpow ea + / 2)%R).
  { unfold M. rewrite plus_IZR, !mult_IZR, <- !bpow_IZR by lia.
    rewrite Rmult_plus_distr_r, !Rmult_assoc, <- !bpow_add.
    replace (ea - ez + ez)%Z with ea by lia. replace (-24 - ez + ez)%Z with (-24)%Z by lia.
    pose proof (bpow_neg_IZR 24 ltac:(lia)) as H24. change (2 ^ 24)%Z with 16777216%Z in H24.
    change (- (24))%Z with (-24)%Z in H24. lra. }
  (* the number of digits *)
  set (b := (Z.max (24 + ea) (-1) - ez + 1)%Z).
  assert (Hrange : (2 ^ (-1 - ez) <= M < 2 ^ b)%Z).
  { assert (E1 : (8388608 * 2 ^ (-24 - ez) = 2 ^ (-1 - ez))%Z).
    { change 8388608%Z with (2 ^ 23)%Z. rewrite <- Z.pow_add_r by lia. f_equal. lia. }
    assert (E2 : (Zpos ma * 2 ^ (ea - ez) < 2 ^ (24 + ea - ez))%Z).
    { replace (24 + ea - ez)%Z with (24 + (ea - ez))%Z by lia. rewrite Z.pow_add_r by lia.
      change (2 ^ 24)%Z with 16777216%Z. nia. }
    assert (E3 : (2 ^ (24 + ea - ez) <= 2 ^ (b - 1))%Z) by (apply Z.pow_le_mono_r; lia).
    assert (E4 : (2 ^ (-1 - ez) <= 2 ^ (b - 1))%Z) by (apply Z.pow_le_mono_r; lia).
    assert (E5 : (2 ^ b = 2 * 2 ^ (b - 1))%Z).
    { replace b with (Z.succ (b - 1)) at 1 by lia. rewrite Z.pow_succ_r by lia. done. }
    unfold M. rewrite E1. split; [nia|lia]. }
  destruct (Zdigits2_range M (-1 - ez) b ltac:(lia) Hrange) as [D1 D2].
  destruct M as [|pM|pM] eqn:EM; try lia.
  simpl binary_normalize.
  destruct (binary_round_faithful false pM ez ltac:(lia) ltac:(lia))
    as (m & e & Hb & Hm & Hex & Habs & _).
  exists m, e. rewrite Hb. split; [done|].
  simpl F2R. rewrite Hval in Habs.
  replace (1 * IZR (Z.pos m) * bpow e)%R with (IZR (Z.pos m) * bpow e)%R by lra.
  replace (1 * IZR (Z.pos ma) * bpow ea)%R with (IZR (Z.pos ma) * bpow ea)%R by lra.
  done.
Qed.

(** ** Conversion to [int] *)

(** Truncation is the floor of the value. *)
Lemma truncate_floor (m : positive) (e : Z) :
  (0 <= truncate m e)%Z
  ∧ (IZR (truncate m e) <= IZR (Zpos m) * bpow e < IZR (truncate m e) + 1)%R.
Proof.
  destruct e as [|p|p]; unfold truncate.
  - change (bpow 0) with 1%R. split; [lia|lra].
  - assert (0 < 2 ^ Zpos p)%Z by (apply Z.pow_pos_nonneg; lia).
    split; [lia|]. rewrite mult_IZR, <- bpow_IZR by lia. lra.
  - assert (Hp : (0 < 2 ^ Zpos p)%Z) by (apply Z.pow_pos_nonneg; lia).
    pose proof (Z.div_mod (Zpos m) (2 ^ Zpos p) ltac:(lia)) as Hdm.
    pose proof (Z.mod_pos_bound (Zpos m) (2 ^ Zpos p) Hp) as Hmod.
    set (z := (Zpos m / 2 ^ Zpos p)%Z) in *.
    assert (Hz : (0 <= z)%Z) by (unfold z; apply Z.div_pos; lia).
    split; [done|].
    pose proof (bpow_neg_IZR (Zpos p) ltac:(lia)) as Hinv.
    change (- Zpos p)%Z with (Zneg p) in Hinv.
    assert (Q1 : (z * 2 ^ Zpos p <= Zpos m)%Z) by lia.
    assert (Q2 : (Zpos m + 1 <= (z + 1) * 2 ^ Zpos p)%Z) by lia.
    apply IZR_le in Q1, Q2. rewrite mult_IZR in Q1, Q2. rewrite !plus_IZR in Q2.
    pose proof (bpow_pos (Zneg p)) as Pb.
    assert (Pp : (0 < IZR (2 ^ Zpos p))%R) by (apply IZR_lt; lia).
    split.
    + replace (IZR z) with (IZR z * IZR (2 ^ Zpos p) * bpow (Zneg p))%R by (rewrite Rmult_assoc, (Rmult_comm (IZR _) (bpow _)), Hinv; lra).
      apply Rmult_le_compat_r; lra.
    + replace (IZR z + 1)%R with ((IZR z + 1) * IZR (2 ^ Zpos p) * bpow (Zneg p))%R by (rewrite Rmult_assoc, (Rmult_comm (IZR _) (bpow _)), Hinv; lra).
      apply Rmult_lt_compat_r; lra.
Qed.

Lemma int_of_float_Some (f : spec_float) (m : positive) (e : Z) (z : Z) :
  normal f m e → int_of_float f = Some z →
  (0 <= z)%Z ∧ (IZR z <= F2R f < IZR z + 1)%R.
Proof.
  intros [-> Hm]. simpl. destruct (truncate_floor m e) as [H0 Hfl].
  destruct (_ && _); [|done]. intros [= <-]. split; [done|]. lra.
Qed.

(** The conversion of a positive number below [2^31] is defined. *)
Lemma int_of_float_defined (f : spec_float) (m : positive) (e : Z) :
  normal f m e → (F2R f < 2147483648)%R → is_Some (int_of_float f).
Proof.
  intros [-> Hm] Hlt. simpl in *. destruct (truncate_floor m e) as [H0 Hfl].
  assert (truncate m e < 2147483648)%Z by (apply lt_IZR; lra).
  replace (-2147483648 <=? truncate m e)%Z with true by (symmetry; apply Z.leb_le; lia).
  replace (truncate m e <=? 2147483647)%Z with true by (symmetry; apply Z.leb_le; lia).
  by eexists.
Qed.

Lemma scaledDimension_checked_eq (B n dim : Z) :
  scaledDimension_checked B n dim = int_of_float (scaledValue B n dim).
Proof. done. Qed.

Lemma float_of_int_finite (z : Z) :
  (1 <= z <= 2147483647)%Z → ∃ m e, float_of_int z = S754_finite false m e.
Proof.
  intros Hz. destruct (float_of_int_faithful z Hz) as (m & e & [-> _] & _). by eexists _, _.
Qed.

(** A budget of 0 scales every dimension to 0. *)
Lemma scaledDimension_checked_zero (n dim : Z) :
  (1 <= n <= 2147483647)%Z → (1 <= dim <= 2147483647)%Z →
  scaledDimension_checked 0 n dim = Some 0%Z.
Proof.
  intros Hn Hd. unfold scaledDimension_checked, scaledValue.
  destruct (float_of_int_finite n Hn) as (mn & en & ->).
  destruct (float_of_int_finite dim Hd) as (md & ed & ->).
  done.
Qed.


Section Errors.
Local Open Scope R_scope.


(** The error bounds as pairs of inequalities, and how they combine through
    the quotient, the root, the product and the sum. *)
Lemma faithful_bounds (v v0 : R) :
  Rabs (v - v0) <= v0 / 8388608 →
  v0 * (1 - / 8388608) <= v <= v0 * (1 + / 8388608).
Proof. intros H. unfold Rabs in H. destruct (Rcase_abs _); lra. Qed.

Lemma quotient_bounds (a a0 b b0 q : R) :
  0 < a0 → 0 < b0 →
  a0 * (1 - / 8388608) <= a <= a0 * (1 + / 8388608) →
  b0 * (1 - / 8388608) <= b <= b0 * (1 + / 8388608) →
  a / b * (1 - / 8388608) <= q <= a / b * (1 + / 8388608) →
  a0 / b0 * (1 - 3 / 8388608) <= q <= a0 / b0 * (1 + 5 / 8388608).
Proof.
  intros Ha0 Hb0 Ha Hb Hq.
  assert (Hb' : 0 < b) by nra.
  set (t := a / b) in *. set (t0 := a0 / b0).
  assert (Ht : t * b = a) by (unfold t; field; lra).
  assert (Ht0 : t0 * b0 = a0) by (unfold t0; field; lra).
  assert (Ht0p : 0 < t0) by (unfold t0; apply Rdiv_lt_0_compat; lra).
  assert (Hhi : t <= t0 * (1 + 3 / 8388608)).
  { apply Rmult_le_reg_r with b; [done|]. rewrite Ht.
    apply Rle_trans with (a0 * (1 + / 8388608)); [lra|]. rewrite <- Ht0. nra. }
  assert (Hlo : t0 * (1 - 2 / 8388608) <= t).
  { apply Rmult_le_reg_r with b; [done|]. rewrite Ht.
    apply Rle_trans with (a0 * (1 - / 8388608)); [|lra]. rewrite <- Ht0. nra. }
  assert (0 < t) by nra.
  split; nra.
Qed.

Lemma root_bounds (r q s : R) :
  0 <= r →
  r * (1 - 3 / 8388608) <= q <= r * (1 + 5 / 8388608) →
  sqrt q * (1 - / 8388608) <= s <= sqrt q * (1 + / 8388608) →
  sqrt r * (1 - 4 / 8388608) <= s <= sqrt r * (1 + 5 / 8388608).
Proof.
  intros Hr Hq Hs.
  pose proof (sqrt_pos r) as Pr. pose proof (sqrt_pos q) as Pq.
  assert (Hhi : sqrt q <= sqrt r * (1 + 3 / 8388608)).
  { rewrite <- (sqrt_square (1 + 3 / 8388608)) by lra. rewrite <- sqrt_mult by nra.
    apply sqrt_le_1; nra. }
  assert (Hlo : sqrt r * (1 - 3 / 8388608) <= sqrt q).
  { rewrite <- (sqrt_square (1 - 3 / 8388608)) by lra. rewrite <- sqrt_mult by nra.
    apply sqrt_le_1; nra. }
  split; nra.
Qed.

Lemma product_bounds (s0 w0 s w p : R) :
  0 <= s0 → 0 <= w0 →
  s0 * (1 - 4 / 8388608) <= s <= s0 * (1 + 5 / 8388608) →
  w0 * (1 - / 8388608) <= w <= w0 * (1 + / 8388608) →
  s * w * (1 - / 8388608) <= p <= s * w * (1 + / 8388608) →
  w0 * s0 * (1 - 6 / 8388608) <= p <= w0 * s0 * (1 + 9 / 8388608).
Proof.
  intros Hs0 Hw0 Hs Hw Hp.
  assert (0 <= s) by nra. assert (0 <= w) by nra.
  assert (Hsw : s0 * w0 * (1 - 5 / 8388608) <= s * w <= s0 * w0 * (1 + 7 / 8388608)).
  { assert (s * w <= s0 * (1 + 5 / 8388608) * (w0 * (1 + / 8388608))) by (apply Rmult_le_compat; lra).
    assert (s0 * (1 - 4 / 8388608) * (w0 * (1 - / 8388608)) <= s * w) by (apply Rmult_le_compat; nra).
    assert (0 <= s0 * w0) by nra. split; nra. }
  assert (0 <= s0 * w0) by nra. assert (0 <= s * w) by nra.
  split; nra.
Qed.

Lemma sum_bounds (X p a : R) :
  0 <= X →
  X * (1 - 6 / 8388608) <= p <= X * (1 + 9 / 8388608) →
  (p + / 2) * (1 - / 8388608) <= a <= (p + / 2) * (1 + / 8388608) →
  X * (1 - 7 / 8388608) + / 2 - / 16777216 <= a
  <= X * (1 + 11 / 8388608) + / 2 + / 16777216.
Proof. intros HX Hp Ha. assert (0 <= p) by nra. split; nra. Qed.

(** The value that is converted to [int] is the exactly scaled dimension
    plus one half, up to a relative error of [11 * 2^-23] of the former. *)
Lemma scaledValue_faithful (B n dim : Z) :
  (1 <= B <= 2147483647)%Z → (1 <= n <= 2147483647)%Z → (1 <= dim <= 2147483647)%Z →
  let X := IZR dim * sqrt (IZR B / IZR n) in
  ∃ m e, normal (scaledValue B n dim) m e
         ∧ X * (1 - 7 / 8388608) + / 2 - / 16777216 <= F2R (scaledValue B n dim)
           <= X * (1 + 11 / 8388608) + / 2 + / 16777216.
Proof.
  intros HB Hn Hdim X. unfold scaledValue.
  destruct (float_of_int_faithful B HB) as (mB & eB & NB & EB & AB).
  destruct (float_of_int_faithful n Hn) as (mn & en & Nn & En & An).
  destruct (float_of_int_faithful dim Hdim) as (mw & ew & Nw & Ew & Aw).
  destruct (SFdiv_faithful _ _ _ _ _ _ NB Nn ltac:(lia)) as (mq & eq & Nq & Eq & Aq).
  destruct (SFsqrt_faithful _ _ _ Nq ltac:(lia)) as (ms & es & Ns & Es & As).
  assert (Hes : (-40 <= es <= -5)%Z).
  { assert ((-79 <= eq - 23)%Z ∧ (eq - 23 <= -13)%Z) as [Q1 Q2] by lia.
    pose proof (Z.div_le_mono _ _ 2 ltac:(lia) Q1) as Q3.
    pose proof (Z.div_le_mono _ _ 2 ltac:(lia) Q2) as Q4.
    change (-79 / 2)%Z with (-40)%Z in Q3. change (-13 / 2)%Z with (-7)%Z in Q4. lia. }
  destruct (SFmul_faithful _ _ _ _ _ _ Ns Nw ltac:(lia)) as (mp & ep & Np & Ep & Ap).
  destruct (SFadd_half_faithful _ _ _ Np ltac:(lia)) as (ma & ea & Na & Aa).
  exists ma, ea. split; [done|].
  apply faithful_bounds in AB, An, Aw, Aq, As, Ap, Aa.
  assert (PB : 0 < IZR B) by (apply IZR_lt; lia).
  assert (Pn : 0 < IZR n) by (apply IZR_lt; lia).
  assert (Pw : 0 <= IZR dim) by (apply IZR_le; lia).
  pose proof (quotient_bounds _ _ _ _ _ PB Pn AB An Aq) as Hq.
  assert (Pr : 0 <= IZR B / IZR n) by (apply Rlt_le, Rdiv_lt_0_compat; lra).
  pose proof (root_bounds _ _ _ Pr Hq As) as Hs.
  pose proof (product_bounds _ _ _ _ _ (sqrt_pos _) Pw Hs Aw Ap) as Hp.
  assert (PX : 0 <= X) by (unfold X; pose proof (sqrt_pos (IZR B / IZR n)); nra).
  exact (sum_bounds X _ _ PX Hp Aa).
Qed.


Lemma sqrt_ratio_le_1 (B n : Z) :
  (0 <= B <= n)%Z → (1 <= n)%Z → 0 <= sqrt (IZR B / IZR n) <= 1.
Proof.
  intros HB Hn. split; [apply sqrt_pos|].
  rewrite <- sqrt_1. apply sqrt_le_1_alt.
  assert (0 < IZR n) by (apply IZR_lt; lia).
  assert (IZR B <= IZR n) by (apply IZR_le; lia).
  apply Rmult_le_reg_r with (IZR n); [done|].
  replace (IZR B / IZR n * IZR n) with (IZR B) by (field; lra). lra.
Qed.

(** The converted dimension is the floor of that value. *)
Lemma scaledDimension_checked_bounds (B n dim z : Z) :
  (1 <= B <= 2147483647)%Z → (1 <= n <= 2147483647)%Z → (1 <= dim <= 2147483647)%Z →
  scaledDimension_checked B n dim = Some z →
  let X := IZR dim * sqrt (IZR B / IZR n) in
  (0 <= z)%Z
  ∧ X * (1 - 7 / 8388608) - / 2 - / 16777216 <= IZR z
    <= X * (1 + 11 / 8388608) + / 2 + / 16777216.
Proof.
  intros HB Hn Hd Hz X. rewrite scaledDimension_checked_eq in Hz.
  destruct (scaledValue_faithful B n dim HB Hn Hd) as (m & e & Hnorm & Hb).
  destruct (int_of_float_Some _ _ _ _ Hnorm Hz) as [H0 Hfl].
  fold X in Hb. split; [done|]. lra.
Qed.

(** For a dimension of at most [2^30] the conversion is defined. *)
Lemma scaledDimension_checked_defined (B n dim : Z) :
  (0 <= B <= n)%Z → (1 <= n <= 2147483647)%Z → (1 <= dim <= 1073741824)%Z →
  is_Some (scaledDimension_checked B n dim).
Proof.
  intros HB Hn Hd. destruct (Z.eq_dec B 0%Z) as [->|HB0].
  { rewrite scaledDimension_checked_zero by lia. by eexists. }
  rewrite scaledDimension_checked_eq.
  destruct (scaledValue_faithful B n dim ltac:(lia) Hn ltac:(lia)) as (m & e & Hnorm & Hb).
  apply (int_of_float_defined _ _ _ Hnorm).
  pose proof (sqrt_ratio_le_1 B n ltac:(lia) ltac:(lia)) as Hs.
  assert (IZR dim <= 1073741824) by (apply IZR_le; lia).
  assert (0 <= IZR dim) by (apply IZR_le; lia).
  cbv zeta in Hb. nra.
Qed.

(** The arithmetic of the budget: two numbers that are each at most one half
    (and the relative error) above [X] and [Y] with [X * Y = B], one taken
    off each, have a product of at most [B]. *)
Lemma budget_arithmetic (B X Y a b : R) :
  1 <= B <= 2147483647 → 0 <= X → 0 <= Y → X * Y = B →
  -1 <= a <= X * (1 + 11 / 8388608) + / 2 + / 16777216 - 1 →
  -1 <= b <= Y * (1 + 11 / 8388608) + / 2 + / 16777216 - 1 →
  a * b <= B.
Proof.
  intros HB HX HY HXY Ha Hb.
  destruct (Rle_or_lt a 0) as [Ha0|Ha0]; destruct (Rle_or_lt b 0) as [Hb0|Hb0]; try nra.
  set (t := sqrt B).
  assert (Ht : t * t = B) by (apply sqrt_sqrt; lra).
  assert (Ht0 : 0 <= t) by apply sqrt_pos.
  assert (Ht1 : 1 <= t).
  { destruct (Rle_or_lt 1 t) as [|Hlt]; [done|]. exfalso.
    assert (t * t <= 1 * t) by (apply Rmult_le_compat_r; lra). lra. }
  assert (HtT : t <= 46341).
  { destruct (Rle_or_lt t 46341) as [|Hlt]; [done|]. exfalso.
    assert (46341 * 46341 <= t * t) by (apply Rmult_le_compat; lra). lra. }
  assert (Hsum : 2 * t <= X + Y).
  { destruct (Rle_or_lt (2 * t) (X + Y)) as [|Hlt]; [done|]. exfalso.
    assert ((X + Y) * (X + Y) <= 2 * t * (2 * t)) by (apply Rmult_le_compat; lra).
    pose proof (Rle_0_sqr (X - Y)) as Hsq0. unfold Rsqr in Hsq0.
    assert (Hsq : (X + Y) * (X + Y) < 2 * t * (2 * t)).
    { apply Rle_lt_trans with ((X + Y) * (2 * t)).
      - apply Rmult_le_compat_l; lra.
      - apply Rmult_lt_compat_r; lra. }
    nra. }
  assert (Hconv : t * t <= 46342 * t - 46341).
  { assert (0 <= (t - 1) * (46341 - t)) by (apply Rmult_le_pos; lra). lra. }
  assert (Ha' : a <= X * (8388619 / 8388608) - 8388607 / 16777216) by lra.
  assert (Hb' : b <= Y * (8388619 / 8388608) - 8388607 / 16777216) by lra.
  assert (Hab : a * b <= (X * (8388619 / 8388608) - 8388607 / 16777216)
                         * (Y * (8388619 / 8388608) - 8388607 / 16777216)).
  { apply Rmult_le_compat; lra. }
  assert (Hexp : (X * (8388619 / 8388608) - 8388607 / 16777216)
                 * (Y * (8388619 / 8388608) - 8388607 / 16777216)
                 = X * Y * (8388619 / 8388608 * (8388619 / 8388608))
                   - 8388607 / 16777216 * (8388619 / 8388608) * (X + Y)
                   + 8388607 / 16777216 * (8388607 / 16777216)) by ring.
  rewrite HXY in Hexp. rewrite <- Ht in Hexp at 1.
  lra.
Qed.

End Errors.

(** A scaled dimension is near the exactly scaled one. *)
Lemma scaled_near_exact (B n dim z : Z) :
  (0 <= B <= n)%Z → (1 <= n <= 2147483647)%Z → (1 <= dim <= 2147483647)%Z →
  scaledDimension_checked B n dim = Some z →
  (Rabs (IZR z - IZR dim * sqrt (IZR B / IZR n)) <= / 2 + IZR dim / 524288)%R.
Proof.
  intros HB Hn Hd Hz.
  assert (Pd : (1 <= IZR dim)%R) by (apply IZR_le; lia).
  destruct (Z.eq_dec B 0%Z) as [->|HB0].
  { rewrite scaledDimension_checked_zero in Hz by lia. injection Hz as <-.
    replace (0 / IZR n)%R with 0%R by (unfold Rdiv; lra). rewrite sqrt_0.
    replace (0 - IZR dim * 0)%R with 0%R by lra. rewrite Rabs_R0. lra. }
  destruct (scaledDimension_checked_bounds B n dim z ltac:(lia) Hn Hd Hz) as [_ Hb].
  pose proof (sqrt_ratio_le_1 B n ltac:(lia) ltac:(lia)) as Hs.
  set (X := (IZR dim * sqrt (IZR B / IZR n))%R) in *.
  assert (0 <= X <= IZR dim)%R by (unfold X; split; nra).
  apply Rabs_le. split; lra.
Qed.

(** The two scaled dimensions of an image above the budget, one pixel taken
    off each, are within the budget. *)
Lemma scaled_within_budget (w h B w' h' : Z) :
  (1 <= w)%Z → (1 <= h)%Z → (w * h <= 2147483647)%Z → (0 <= B < w * h)%Z →
  scaledDimension_checked B (w * h) w = Some w' →
  scaledDimension_checked B (w * h) h = Some h' →
  (0 <= w')%Z ∧ (0 <= h')%Z
  ∧ ((1 <= B)%Z → ((w' - 1) * (h' - 1) <= B)%Z)
  ∧ (B = 0%Z → w' = 0%Z ∧ h' = 0%Z).
Proof.
  intros Hw Hh Hn HB Hw' Hh'.
  assert (Hwn : (w <= 2147483647)%Z) by nia.
  assert (Hhn : (h <= 2147483647)%Z) by nia.
  destruct (Z.eq_dec B 0%Z) as [->|HB0].
  { rewrite scaledDimension_checked_zero in Hw', Hh' by lia.
    injection Hw' as <-. injection Hh' as <-. repeat split; lia. }
  destruct (scaledDimension_checked_bounds B (w * h) w w' ltac:(lia) ltac:(lia) ltac:(lia) Hw')
    as [W0 Wb].
  destruct (scaledDimension_checked_bounds B (w * h) h h' ltac:(lia) ltac:(lia) ltac:(lia) Hh')
    as [H0 Hb].
  split; [done|]. split; [done|]. split; [|lia]. intros _.
  apply le_IZR. rewrite mult_IZR, !minus_IZR.
  set (s := sqrt (IZR B / IZR (w * h))) in *.
  assert (Pn : (0 < IZR (w * h))%R) by (apply IZR_lt; lia).
  assert (Hss : (s * s = IZR B / IZR (w * h))%R).
  { apply sqrt_sqrt. apply Rlt_le, Rdiv_lt_0_compat; [apply IZR_lt; lia|done]. }
  apply (budget_arithmetic (IZR B) (IZR w * s) (IZR h * s)).
  - split; apply IZR_le; lia.
  - pose proof (sqrt_pos (IZR B / IZR (w * h))). fold s in H.
    apply Rmult_le_pos; [apply IZR_le; lia|done].
  - pose proof (sqrt_pos (IZR B / IZR (w * h))). fold s in H.
    apply Rmult_le_pos; [apply IZR_le; lia|done].
  - replace (IZR w * s * (IZR h * s))%R with (IZR w * IZR h * (s * s))%R by ring.
    rewrite Hss, <- mult_IZR. field. lra.
  - apply IZR_le in W0. split; lra.
  - apply IZR_le in H0. split; lra.
Qed.

(** Two dimensions that are each near the exactly scaled one keep the ratio
    of the image, cross-multiplied. *)
Lemma ratio_kept (w h w' h' s : R) :
  (1 <= w)%R → (1 <= h)%R →
  (Rabs (w' - w * s) <= / 2 + w / 524288)%R →
  (Rabs (h' - h * s) <= / 2 + h / 524288)%R →
  (Rabs (w' * h - h' * w) <= (w + h) / 2 + w * h / 262144)%R.
Proof.
  intros Hw Hh Ha Hb.
  assert (Ha1 := Rle_trans _ _ _ (Rle_abs (w' - w * s)) Ha).
  assert (Ha2 := Rle_trans _ _ _ (Rle_abs (- (w' - w * s))) 
                   (eq_ind_r (λ x, (x <= _)%R) Ha (Rabs_Ropp (w' - w * s)))).
  assert (Hb1 := Rle_trans _ _ _ (Rle_abs (h' - h * s)) Hb).
  assert (Hb2 := Rle_trans _ _ _ (Rle_abs (- (h' - h * s)))
                   (eq_ind_r (λ x, (x <= _)%R) Hb (Rabs_Ropp (h' - h * s)))).
  assert (P1 : (0 <= (/ 2 + w / 524288 - (w' - w * s)) * h)%R)
    by (apply Rmult_le_pos; lra).
  assert (P2 : (0 <= (/ 2 + w / 524288 + (w' - w * s)) * h)%R)
    by (apply Rmult_le_pos; lra).
  assert (P3 : (0 <= (/ 2 + h / 524288 - (h' - h * s)) * w)%R)
    by (apply Rmult_le_pos; lra).
  assert (P4 : (0 <= (/ 2 + h / 524288 + (h' - h * s)) * w)%R)
    by (apply Rmult_le_pos; lra).
  apply Rabs_le. split; lra.
Qed.

(** * The budget step *)

Section Budget.
Context `{Collaborators}.

(** The [int] product of two numbers whose product is an [int]. *)
Lemma int_mul_exact (a b : Z) :
  (-2147483648 <= a * b <= 2147483647)%Z → int_mul a b = (a * b)%Z.
Proof.
  intros Hr. unfold int_mul, wrap_int.
  rewrite Z.mod_small by lia. lia.
Qed.

(** C4.  For a parsed image of width [w] and height [h], both positive, whose
    number of pixels is an [int], and a budget that is not negative: an image
    within the budget is not resized.  An image above it is resized to
    [(int)(scaleFactor * w + 0.5f)] by [(int)(scaleFactor * h + 0.5f)] with
    [scaleFactor = sqrtf(budget / (float)(w * h))] in single precision, each
    axis rounded on its own.  The two conversions to [int] are defined when
    [w] and [h] are at most 2^30, and wherever they are defined: the new
    dimensions are not negative; the product of the two with one pixel taken
    off each is within the budget (both are 0 for a budget of 0); each
    differs from the exactly scaled dimension [w * sqrt(budget / (w * h))] by
    no more than the half of the rounding plus the error of the
    single-precision operations, which is below [w / 2^19]; and the ratio is
    kept up to these errors, [w' * h] and [h' * w] differing by no more than
    [(w + h) / 2 + w * h / 2^18]. *)
Theorem downscale_meets_the_budget (image : QImage) (maxNumPixels : Z) :
  let w := image_width image in
  let h := image_height image in
  (1 <= w)%Z → (1 <= h)%Z → (w * h <= 2147483647)%Z → (0 <= maxNumPixels)%Z →
  ((w * h <= maxNumPixels)%Z → downscale maxNumPixels image = (image, w, h))
  ∧ ((maxNumPixels < w * h)%Z →
     ((w <= 1073741824)%Z → is_Some (scaledDimension_checked maxNumPixels (w * h) w))
     ∧ ((h <= 1073741824)%Z → is_Some (scaledDimension_checked maxNumPixels (w * h) h))
     ∧ ∀ w' h',
         scaledDimension_checked maxNumPixels (w * h) w = Some w' →
         scaledDimension_checked maxNumPixels (w * h) h = Some h' →
         downscale maxNumPixels image = (scaled image w' h', w', h')
         ∧ (0 <= w')%Z ∧ (0 <= h')%Z
         ∧ ((1 <= maxNumPixels)%Z → ((w' - 1) * (h' - 1) <= maxNumPixels)%Z)
         ∧ (maxNumPixels = 0%Z → w' = 0%Z ∧ h' = 0%Z)
         ∧ (Z.max 0 (w' - 1) * Z.max 0 (h' - 1) <= maxNumPixels)%Z
         ∧ (Rabs (IZR w' - IZR w * sqrt (IZR maxNumPixels / IZR (w * h)))
            <= / 2 + IZR w / 524288)%R
         ∧ (Rabs (IZR h' - IZR h * sqrt (IZR maxNumPixels / IZR (w * h)))
            <= / 2 + IZR h / 524288)%R
         ∧ (Rabs (IZR w' * IZR h - IZR h' * IZR w)
            <= (IZR w + IZR h) / 2 + IZR w * IZR h / 262144)%R).
Proof.
  intros w h Hw Hh Hn HB.
  assert (Hmul : int_mul w h = (w * h)%Z) by (apply int_mul_exact; nia).
  assert (Hwn : (w <= 2147483647)%Z) by nia.
  assert (Hhn : (h <= 2147483647)%Z) by nia.
  split.
  { intros Hle. unfold downscale. fold w h. rewrite Hmul.
    destruct (Z.gtb_spec (w * h) maxNumPixels); [lia|done]. }
  intros Hlt. split.
  { intros Hb. apply scaledDimension_checked_defined; lia. }
  split.
  { intros Hb. apply scaledDimension_checked_defined; lia. }
  intros w' h' Hw' Hh'.
  destruct (scaled_within_budget w h maxNumPixels w' h' Hw Hh Hn ltac:(lia) Hw' Hh')
    as (P1 & P2 & P3 & P4).
  split.
  { unfold downscale. fold w h. rewrite Hmul.
    destruct (Z.gtb_spec (w * h) maxNumPixels); [|lia].
    unfold scaledDimension. by rewrite Hw', Hh'. }
  do 4 (split; [done|]).
  assert (Nw : (Rabs (IZR w' - IZR w * sqrt (IZR maxNumPixels / IZR (w * h)))
                <= / 2 + IZR w / 524288)%R)
    by (apply scaled_near_exact; [lia|lia|lia|done]).
  assert (Nh : (Rabs (IZR h' - IZR h * sqrt (IZR maxNumPixels / IZR (w * h)))
                <= / 2 + IZR h / 524288)%R)
    by (apply scaled_near_exact; [lia|lia|lia|done]).
  split.
  { destruct (Z.eq_dec maxNumPixels 0%Z) as [E0|N0].
    - destruct (P4 E0) as [-> ->]. simpl. lia.
    - specialize (P3 ltac:(lia)).
      destruct (Z.max_spec 0 (w' - 1)) as [[? ->]|[? ->]];
        destruct (Z.max_spec 0 (h' - 1)) as [[? ->]|[? ->]]; nia. }
  split; [exact Nw|]. split; [exact Nh|].
  apply (ratio_kept _ _ _ _ _ (IZR_le _ _ Hw) (IZR_le _ _ Hh) Nw Nh).
Qed.

End Budget.

(** * The properties on the example *)

Module Scenario.
Import Example.

(** A second decode of registered content adopts the live holder. *)
Lemma cacheTextureByHash_adopts_first :
  strong twoTextures (Some 2%positive)
  ∧ cacheTextureByHash twoTextures (md5Hex smallImage) (Some 2%positive) firstRegistered
    = (firstRegistered, Some 1%positive).
Proof.
  assert (Hs : strong twoTextures (Some 2%positive)) by (by eexists).
  split; [exact Hs|].
  exact (proj1 (cacheTextureByHash_installs_or_adopts
                  twoTextures (md5Hex smallImage) (Some 2%positive) firstRegistered Hs)).
Defined.

Lemma normal_fallback_is_blue :
  textureCache emptyWorld = Some emptyCache
  ∧ constantsIntact emptyCache (heap emptyWorld)
  ∧ pointsTo (heap (getFallbackTextureForType NORMAL_TEXTURE emptyWorld).2)
             (getFallbackTextureForType NORMAL_TEXTURE emptyWorld).1 blueTexture.
Proof.
  assert (Hi : constantsIntact emptyCache (heap emptyWorld)).
  { split; [by left|]. split; by left. }
  split; [reflexivity|]. split; [exact Hi|].
  exact (proj1 (getFallbackTextureForType_table
                  NORMAL_TEXTURE emptyWorld emptyCache eq_refl Hi)).
Defined.

(** The claim that every usage type other than normal, emissive, lightmap
    and custom gets the white constant fails for BUMP_TEXTURE. *)
Lemma bump_fallback_is_not_white :
  (getFallbackTextureForType BUMP_TEXTURE emptyWorld).1 = None
  ∧ ¬ pointsTo (heap (getFallbackTextureForType BUMP_TEXTURE emptyWorld).2)
               (getFallbackTextureForType BUMP_TEXTURE emptyWorld).1 whiteTexture.
Proof.
  split; [reflexivity|].
  intros (id & Hid & _). discriminate Hid.
Qed.

Lemma empty_buffer_changes_nothing :
  notLoaded (parse (taskFor [])) = true
  ∧ read id (taskFor []) (oneWaiting DEFAULT_TEXTURE emptyFunction)
    = Returned (oneWaiting DEFAULT_TEXTURE emptyFunction).
Proof.
  split; [reflexivity|].
  exact (proj1 (read_unparsable_changes_nothing
                  id (taskFor []) (oneWaiting DEFAULT_TEXTURE emptyFunction) eq_refl)).
Defined.

(** The claim that an unparsable buffer moves the resource to Failed fails
    for the empty buffer: the whole task leaves the waiting resource as it
    was, not failed, and nothing is queued that could change it later. *)
Lemma empty_buffer_leaves_resource_waiting :
  notLoaded (parse (taskFor [])) = true
  ∧ ∃ w' this,
      run id (taskFor []) (oneWaiting DEFAULT_TEXTURE emptyFunction) = Returned w'
      ∧ resources w' !! 1%positive = Some this
      ∧ ¬ Failed this
      ∧ queue w' = [] ∧ threadPool w' = [].
Proof.
  split; [reflexivity|].
  exists (set_pendingProcessing (-1) (oneWaiting DEFAULT_TEXTURE emptyFunction)),
         (waiting DEFAULT_TEXTURE emptyFunction).
  split; [reflexivity|]. split; [reflexivity|].
  split; [|split; reflexivity].
  unfold Failed. simpl. discriminate.
Qed.

Lemma container_on_disk_is_adopted :
  resources containerOnDisk !! 1%positive = Some (waiting DEFAULT_TEXTURE emptyFunction)
  ∧ _cache (waiting DEFAULT_TEXTURE emptyFunction) = true
  ∧ textureCache containerOnDisk
    = Some (mkTextureCache ∅ {[ md5Hex smallImage := smallImage ]} None None None None)
  ∧ threadPool (loadContent 1%positive smallImage containerOnDisk) = []
  ∧ ∃ this', resources (loadContent 1%positive smallImage containerOnDisk) !! 1%positive
             = Some this'
             ∧ Ready this' ∧ _textureSource this' = Some 1%positive.
Proof.
  split; [reflexivity|]. split; [reflexivity|]. split; [reflexivity|].
  destruct (loadContent_consults_registry_then_file_cache
              1%positive smallImage containerOnDisk
              (waiting DEFAULT_TEXTURE emptyFunction)
              (mkTextureCache ∅ {[ md5Hex smallImage := smallImage ]} None None None None)
              eq_refl eq_refl eq_refl) as [_ Hmiss].
  destruct (Hmiss eq_refl) as [Hdisk _].
  destruct (Hdisk smallImage (mkKTX smallImage)
              (mkTexture COLOR_RGBA_32 2 1 false "" None [7; 9]%Z None None)
              eq_refl eq_refl eq_refl)
    as (Hpool & _ & _ & this' & Hthis' & Hready & Hsource & _).
  split; [exact Hpool|].
  exists this'. split; [exact Hthis'|]. split; [exact Hready|]. exact Hsource.
Defined.

(** The container of [longImage] is refused by the file cache; the texture
    is delivered all the same. *)
Lemma refused_write_still_delivers :
  notLoaded (parse (taskFor longImage)) = false
  ∧ resources (oneWaiting DEFAULT_TEXTURE emptyFunction) !! _resource (taskFor longImage)
    = Some (waiting DEFAULT_TEXTURE emptyFunction)
  ∧ textureCache (oneWaiting DEFAULT_TEXTURE emptyFunction) = Some emptyCache
  ∧ (writeFile (_ktxCache emptyCache) longImage (md5Hex longImage) 9).1 = None
  ∧ ∃ w1 texture,
      is_Some texture
      ∧ read id (taskFor longImage) (oneWaiting DEFAULT_TEXTURE emptyFunction)
        = Returned (set_queue (queue w1 ++ [invoke_setImage 1%positive texture 2 3]) w1)
      ∧ ∃ this', resources (setImage 1%positive texture 2 3 w1) !! 1%positive = Some this'
                 ∧ Ready this' ∧ _textureSource this' = texture.
Proof.
  split; [reflexivity|]. split; [reflexivity|]. split; [reflexivity|].
  split; [reflexivity|].
  destruct (read_delivers_whatever_the_file_cache_does
              (taskFor longImage) (oneWaiting DEFAULT_TEXTURE emptyFunction)
              (waiting DEFAULT_TEXTURE emptyFunction) emptyCache
              (mkTexture COLOR_RGBA_32 2 3 false "" None [1; 2; 3; 4; 5; 6; 7]%Z None None)
              eq_refl eq_refl eq_refl eq_refl)
    as (w1 & c0 & c1 & texture & Hd & _ & _ & _ & Hsome & _ & _ & Hdeliver).
  set (wa := assign (Some (nextId (heap (oneWaiting DEFAULT_TEXTURE emptyFunction))))
                    texture w1).
  assert (Halive : is_Some (resources (id wa) !! _resource (taskFor longImage))).
  { destruct (read_decode_Some _ _ _ _ Hd) as (wc & K & A & Hrec).
    destruct (reconcile_registered _ _ _ _ _ A Hrec) as (_ & Hres & _).
    destruct (assign_frame (Some (nextId (heap (oneWaiting DEFAULT_TEXTURE emptyFunction))))
                texture w1) as (_ & Hsame & _).
    simpl. fold wa in Hsame. rewrite Hsame, Hres. apply K. by eexists. }
  destruct (Hdeliver id Halive) as [Hread Hset].
  exists wa, texture. split; [exact Hsome|]. split; [exact Hread|].
  exact (Hset wa Halive).
Defined.

Lemma destroyed_resource_gets_nothing :
  let w := oneWaiting DEFAULT_TEXTURE emptyFunction in
  let wa := assign (Some (nextId (heap w))) (decoded_texture smallImageDecoded.2)
                   smallImageDecoded.1 in
  read_decode (taskFor smallImage) w
  = Returned (smallImageDecoded.1, Some smallImageDecoded.2)
  ∧ resources (destroyResource 1%positive wa) !! _resource (taskFor smallImage) = None
  ∧ read (destroyResource 1%positive) (taskFor smallImage) w
    = Returned (release (decoded_texture smallImageDecoded.2)
                        (destroyResource 1%positive wa))
  ∧ queue (release (decoded_texture smallImageDecoded.2) (destroyResource 1%positive wa))
    = queue (destroyResource 1%positive wa).
Proof.
  intros w wa.
  assert (Hd : read_decode (taskFor smallImage) w
               = Returned (smallImageDecoded.1, Some smallImageDecoded.2))
    by (vm_compute; reflexivity).
  assert (Hnone : resources (destroyResource 1%positive wa) !! _resource (taskFor smallImage)
                  = None) by (vm_compute; reflexivity).
  split; [exact Hd|]. split; [exact Hnone|].
  destruct (read_abandons_delivery (destroyResource 1%positive) _ _ _ _ Hd Hnone)
    as (Hread & (_ & _ & Hqueue & _) & _).
  split; [exact Hread|exact Hqueue].
Defined.

(** The texture that the task registered is destroyed when the task returns
    without delivering it: at the end of the block the registry gave the
    texture for the hash, after the return the entry is still there and has
    expired. *)
Lemma abandoned_texture_is_destroyed :
  read (destroyResource 1%positive) (taskFor smallImage)
       (oneWaiting DEFAULT_TEXTURE emptyFunction)
  = Returned smallImageAbandoned
  ∧ decoded_texture smallImageDecoded.2 = Some 1%positive
  ∧ is_Some (objects (heap smallImageDecoded.1) !! 1%positive)
  ∧ objects (heap smallImageAbandoned) !! 1%positive = None
  ∧ heap smallImageAbandoned ≠ heap smallImageDecoded.1
  ∧ (∃ c1, textureCache smallImageDecoded.1 = Some c1
           ∧ liveEntry (heap smallImageDecoded.1) (_texturesByHashes c1)
                       (_hash (taskFor smallImage)) = Some 1%positive)
  ∧ ∃ c2, textureCache smallImageAbandoned = Some c2
          ∧ _texturesByHashes c2 !! _hash (taskFor smallImage) = Some (Some 1%positive)
          ∧ liveEntry (heap smallImageAbandoned) (_texturesByHashes c2)
                      (_hash (taskFor smallImage)) = None
          ∧ liveEntry (heap smallImageAbandoned) (_texturesByHashes c2)
                      (_hash (taskFor smallImage)) ≠ decoded_texture smallImageDecoded.2.
Proof.
  assert (Hgone : objects (heap smallImageAbandoned) !! 1%positive = None)
    by (vm_compute; reflexivity).
  assert (Halive : is_Some (objects (heap smallImageDecoded.1) !! 1%positive))
    by (vm_compute; by eexists).
  split; [vm_compute; reflexivity|]. split; [vm_compute; reflexivity|].
  split; [exact Halive|]. split; [exact Hgone|]. split.
  { intros Heq. rewrite Heq in Hgone. rewrite Hgone in Halive. by destruct Halive. }
  split.
  { exists (default emptyCache (textureCache smallImageDecoded.1)).
    split; vm_compute; reflexivity. }
  exists (default emptyCache (textureCache smallImageAbandoned)).
  split; [vm_compute; reflexivity|]. split; [vm_compute; reflexivity|].
  assert (Hexp : liveEntry (heap smallImageAbandoned)
                   (_texturesByHashes (default emptyCache (textureCache smallImageAbandoned)))
                   (_hash (taskFor smallImage)) = None) by (vm_compute; reflexivity).
  split; [exact Hexp|]. rewrite Hexp. vm_compute. discriminate.
Qed.

Lemma invalid_url_without_content_is_ready :
  isValid badUrl = false
  ∧ ∃ this,
      resources (NetworkTexture_new 1%positive badUrl DEFAULT_TEXTURE [] 1000 emptyWorld)
        !! 1%positive = Some this
      ∧ Ready this ∧ _textureSource this = None.
Proof.
  split; [reflexivity|].
  destruct (NetworkTexture_new_invalid_url
              1%positive badUrl DEFAULT_TEXTURE [] 1000 emptyWorld eq_refl)
    as [(this & Hthis & Hready & _ & Hsource) _].
  exists this. split; [exact Hthis|]. split; [exact Hready|exact Hsource].
Defined.

(** The claim that a resource with an invalid URL never has a hash computed
    or a decode scheduled fails when inline content comes with it: the
    constructor queues [loadContent], which hashes the content and starts an
    [ImageReader]. *)
Lemma invalid_url_with_content_is_decoded :
  isValid badUrl = false
  ∧ queue (NetworkTexture_new 1%positive badUrl DEFAULT_TEXTURE smallImage 1000 emptyWorld)
    = [invoke_loadContent 1%positive smallImage]
  ∧ threadPool (dispatch (NetworkTexture_new 1%positive badUrl DEFAULT_TEXTURE
                            smallImage 1000 emptyWorld))
    = [mkImageReader 1%positive badUrl smallImage (md5Hex smallImage) 1000].
Proof. split; [reflexivity|]. split; reflexivity. Qed.

Lemma null_transform_faults :
  notLoaded (parse (taskFor smallImage)) = false
  ∧ resources (oneWaiting CUSTOM_TEXTURE (suppliedFunction 0)) !! _resource (taskFor smallImage)
    = Some (waiting CUSTOM_TEXTURE (suppliedFunction 0))
  ∧ read_decode (taskFor smallImage) (oneWaiting CUSTOM_TEXTURE (suppliedFunction 0))
    = NullDereference.
Proof.
  split; [reflexivity|]. split; [reflexivity|].
  destruct (read_null_texture_faults
              (taskFor smallImage) (oneWaiting CUSTOM_TEXTURE (suppliedFunction 0))
              (waiting CUSTOM_TEXTURE (suppliedFunction 0)) eq_refl eq_refl)
    as [Hnull _].
  exact (proj1 (Hnull eq_refl)).
Defined.

Lemma null_texture_finishes_loaded :
  resources (oneWaiting DEFAULT_TEXTURE emptyFunction) !! 1%positive
  = Some (waiting DEFAULT_TEXTURE emptyFunction)
  ∧ ∃ this',
      resources (setImage 1%positive None 0 0 (oneWaiting DEFAULT_TEXTURE emptyFunction))
        !! 1%positive = Some this'
      ∧ Ready this' ∧ ¬ Failed this' ∧ _width this' = 0%Z ∧ _height this' = 0%Z.
Proof.
  split; [reflexivity|].
  destruct (setImage_always_finishes_loaded
              1%positive None 0 0 (oneWaiting DEFAULT_TEXTURE emptyFunction)
              (waiting DEFAULT_TEXTURE emptyFunction) eq_refl)
    as (this' & Hthis' & _ & Hready & Hfailed & _ & _ & Hzero).
  exists this'. split; [exact Hthis'|]. split; [exact Hready|].
  split; [unfold Failed; rewrite Hfailed; discriminate|].
  exact (Hzero eq_refl).
Defined.

(** ** The model at work *)

Example extension_after_last_dot :
  filenameExtensionOf "a.b.tga" = "tga" ∧ filenameExtensionOf "noext" = "noext"
  ∧ filenameExtensionOf "x." = "".
Proof. by repeat split. Qed.

Example int_mul_wraps :
  int_mul 1000 1000 = 1000000%Z ∧ int_mul 65536 65536 = 0%Z
  ∧ int_mul 46341 46341 = (-2147479015)%Z.
Proof. by repeat split. Qed.

(** Miss, then hit: content that arrives at a first resource is decoded by a
    task and delivered; the same content arriving at a second resource finds
    the live texture and schedules nothing. *)
Example miss_then_hit :
  let w1 := loadContent 1%positive smallImage (oneWaiting DEFAULT_TEXTURE emptyFunction) in
  let w2 := match work id w1 with Returned w => dispatch w | _ => w1 end in
  let w3 := set_resources (<[2%positive := waiting DEFAULT_TEXTURE emptyFunction]>
                             (resources w2)) w2 in
  let w4 := loadContent 2%positive smallImage w3 in
  threadPool w1 = [taskFor smallImage]
  ∧ (_textureSource <$> resources w2 !! 1%positive) = Some (Some 1%positive)
  ∧ (_loaded <$> resources w2 !! 1%positive) = Some true
  ∧ threadPool w4 = []
  ∧ (_textureSource <$> resources w4 !! 2%positive) = Some (Some 1%positive)
  ∧ (_loaded <$> resources w4 !! 2%positive) = Some true.
Proof. vm_compute. by repeat split. Qed.

(** An image of 64 by 32 pixels under a budget of 1000 is resized to 45 by
    22. *)
Lemma wide_image_is_scaled_to_45_by_22 :
  (1000 < image_width wideImage * image_height wideImage)%Z
  ∧ scaledDimension_checked 1000 (64 * 32) 64 = Some 45%Z
  ∧ scaledDimension_checked 1000 (64 * 32) 32 = Some 22%Z
  ∧ downscale 1000 wideImage = (scaled wideImage 45 22, 45%Z, 22%Z)
  ∧ ((45 - 1) * (22 - 1) <= 1000)%Z.
Proof.
  assert (Hlt : (1000 < image_width wideImage * image_height wideImage)%Z)
    by (simpl; lia).
  assert (Hw' : scaledDimension_checked 1000 (64 * 32) 64 = Some 45%Z)
    by (vm_compute; reflexivity).
  assert (Hh' : scaledDimension_checked 1000 (64 * 32) 32 = Some 22%Z)
    by (vm_compute; reflexivity).
  split; [exact Hlt|]. split; [exact Hw'|]. split; [exact Hh'|].
  destruct (downscale_meets_the_budget wideImage 1000) as [_ Hres];
    [simpl; lia ..|].
  destruct (Hres Hlt) as (_ & _ & Hdims).
  destruct (Hdims 45%Z 22%Z Hw' Hh') as (Hd & _ & _ & Hbound & _).
  split; [exact Hd|]. apply Hbound. lia.
Defined.

(** Outside these bounds the conversion to [int] is not defined: for a
    negative budget the scale factor is no number, and a width of 2^31 - 1
    scaled by nearly 1 is rounded to 2^31. *)
Example conversion_is_not_always_defined :
  scaledDimension_checked (-1) 1 1 = None
  ∧ scaledDimension_checked 2147483646 2147483647 2147483647 = None.
Proof. split; vm_compute; reflexivity. Qed.

(** Dimensions as the single-precision arithmetic gives them. *)
Example scaled_dimensions :
  scaledDimension_checked 1000 6300 100 = Some 40%Z
  ∧ scaledDimension_checked 1000 6300 63 = Some 25%Z
  ∧ scaledDimension_checked 50 100 10 = Some 7%Z
  ∧ scaledDimension_checked 1 8 1 = Some 0%Z
  ∧ scaledDimension_checked 1 8 8 = Some 3%Z.
Proof. repeat split; vm_compute; reflexivity. Qed.

End Scenario.

(** * Properties of the rest of the file *)

Section RestProperties.
Context `{Collaborators}.

Lemma subscript_again (m : gmap string WeakPointer) (hash : string) :
  (subscript (subscript m hash).1 hash).1 = (subscript m hash).1.
Proof.
  unfold subscript. destruct (m !! hash) eqn:E; simpl.
  - by rewrite E.
  - by rewrite lookup_insert_eq.
Qed.

(** X1. [getTextureByHash] only looks up: it returns a texture exactly when
    the hash is registered to a texture that is still alive; the live holder
    of every hash, the entries of the other hashes and the file cache are as
    before (at most an empty entry is created for the hash), and asking again
    gives the same answer and changes nothing more. *)
Theorem getTextureByHash_only_looks_up
    (hp : Heap) (hash : string) (c : TextureCache) :
  let '(c', result) := getTextureByHash hp hash c in
  (∀ id, result = Some id
         ↔ _texturesByHashes c !! hash = Some (Some id) ∧ is_Some (objects hp !! id))
  ∧ (∀ other, liveEntry hp (_texturesByHashes c') other
              = liveEntry hp (_texturesByHashes c) other)
  ∧ (∀ other, other ≠ hash →
       _texturesByHashes c' !! other = _texturesByHashes c !! other)
  ∧ _ktxCache c' = _ktxCache c
  ∧ getTextureByHash hp hash c' = (c', result).
Proof.
  rewrite getTextureByHash_result.
  split; [|split; [|split; [|split]]].
  - intros id. unfold liveEntry. split.
    + intros Hl. apply lock_Some in Hl as [Hw Ha]. split; [|done].
      destruct (_texturesByHashes c !! hash) as [wk|]; simpl in Hw; by subst.
    + intros [-> [t Ht]]. simpl. by rewrite Ht.
  - intros other. simpl. apply liveEntry_subscript.
  - intros other Hne. simpl. unfold subscript.
    destruct (_texturesByHashes c !! hash); simpl; [done|].
    by rewrite lookup_insert_ne.
  - done.
  - rewrite getTextureByHash_result. simpl.
    rewrite liveEntry_subscript, subscript_again. done.
Qed.

Lemma getTextureLoaderForType_custom (generateIrradiance : bool) :
  getTextureLoaderForType CUSTOM_TEXTURE generateIrradiance
  = if QT_NO_DEBUG then Returned emptyFunction else AssertionFailed.
Proof. unfold getTextureLoaderForType, Q_ASSERT. by destruct QT_NO_DEBUG. Qed.

Lemma getTextureLoaderForType_other (type : TextureType) (generateIrradiance : bool) :
  type ≠ CUSTOM_TEXTURE →
  ∃ loader, getTextureLoaderForType type generateIrradiance = Returned loader
            ∧ loader ≠ emptyFunction.
Proof. intros Hne. destruct type, generateIrradiance; try done; by eexists. Qed.

(** [NetworkTexture::getTextureLoader] passes no assertion: where it calls
    [getTextureLoaderForType], the call returns the loader. *)
Lemma getTextureLoader_other (this : NetworkTexture) :
  _type this ≠ CUSTOM_TEXTURE →
  getTextureLoaderForType (_type this) true = Returned (getTextureLoader this).
Proof.
  intros Hne. unfold getTextureLoader.
  destruct (getTextureLoaderForType_other (_type this) true Hne) as (loader & E & _).
  rewrite E. by destruct (_type this).
Qed.

Lemma call_BadFunctionCall (f : TextureLoaderFunc) (image : QImage) (url : string) :
  call f image url = BadFunctionCall ↔ f = emptyFunction.
Proof. split; [|by intros ->]. by destruct f. Qed.

Lemma call_not_NullDereference (f : TextureLoaderFunc) (image : QImage) (url : string) :
  call f image url ≠ NullDereference.
Proof. by destruct f. Qed.

Lemma call_not_AssertionFailed (f : TextureLoaderFunc) (image : QImage) (url : string) :
  call f image url ≠ AssertionFailed.
Proof. by destruct f. Qed.

Lemma getTextureLoader_empty (this : NetworkTexture) :
  getTextureLoader this = emptyFunction
  ↔ _type this = CUSTOM_TEXTURE ∧ _textureLoader this = emptyFunction.
Proof.
  split.
  - assert (Hc : _type this = CUSTOM_TEXTURE ∨ _type this ≠ CUSTOM_TEXTURE)
      by (destruct (_type this); first [by left | by right]).
    destruct Hc as [E|Hne].
    + unfold getTextureLoader. by rewrite E.
    + intros Hl.
      destruct (getTextureLoaderForType_other (_type this) true Hne) as (loader & E & Hl').
      rewrite (getTextureLoader_other this Hne) in E. congruence.
  - intros [Hty Hl]. unfold getTextureLoader. by rewrite Hty.
Qed.

(** X9. The two ways the block of [ImageReader::read] can fail.  It throws
    [std::bad_function_call] exactly when the buffer parses and the resource
    is alive with type CUSTOM_TEXTURE and an empty [_textureLoader]; it
    dereferences a null texture exactly when the buffer parses, the resource
    is alive and its transform returns null for the image.  It stops at no
    assertion, in either build. *)
Theorem read_decode_faults_exactly (task : ImageReader) (w : World) :
  let image := (downscale (reader_maxNumPixels task) (parse task)).1.1 in
  let url := toString (reader_url task) in
  (read_decode task w = BadFunctionCall
   ↔ notLoaded (parse task) = false
     ∧ ∃ networkTexture, resources w !! _resource task = Some networkTexture
         ∧ _type networkTexture = CUSTOM_TEXTURE
         ∧ _textureLoader networkTexture = emptyFunction)
  ∧ (read_decode task w = NullDereference
     ↔ notLoaded (parse task) = false
       ∧ ∃ networkTexture, resources w !! _resource task = Some networkTexture
           ∧ call (getTextureLoader networkTexture) image url = Returned None)
  ∧ read_decode task w ≠ AssertionFailed.
Proof.
  intros image url. apply and_assoc.
  destruct (notLoaded (parse task)) eqn:Hok.
  { assert (Hr : read_decode task w = Returned (w, None)).
    { unfold read_decode. by rewrite Hok. }
    rewrite Hr. split; [|done]. split; split; try done; by intros [? _]. }
  destruct (resources w !! _resource task) as [networkTexture|] eqn:Hres.
  2:{ assert (Hr : read_decode task w = Returned (w, None)).
      { unfold read_decode. rewrite Hok, Hres. by destruct (downscale _ _) as [[? ?] ?]. }
      rewrite Hr. split; [|done]. split; split; try done; by intros [_ (? & ? & _)]. }
  rewrite (read_decode_live _ _ _ Hok Hres). simpl. fold image url.
  destruct (call (getTextureLoader networkTexture) image url) as [[t|]| | |] eqn:Hcall; simpl.
  - destruct (read_attach_live task networkTexture (nextId (heap w))
                (set_heap (mkHeap (alter (setSource url) (nextId (heap w))
                                     (<[nextId (heap w) := t]> (objects (heap w))))
                                  (nextId (heap w) + 1)%positive) w))
      as (wc & _ & ->). simpl.
    destruct (reconcile _ _ wc). split; [|done]. split; split; try done.
    + intros [_ (nt & [= <-] & Hty & Hl)].
      assert (Hc : call (getTextureLoader networkTexture) image url = BadFunctionCall).
      { apply call_BadFunctionCall, getTextureLoader_empty. done. }
      congruence.
    + intros [_ (nt & [= <-] & Hc)]. congruence.
  - split; [|done]. split; split; try done.
    + intros [_ (nt & [= <-] & Hty & Hl)].
      assert (Hc : call (getTextureLoader networkTexture) image url = BadFunctionCall).
      { apply call_BadFunctionCall, getTextureLoader_empty. done. }
      congruence.
    + intros _. split; [done|]. by exists networkTexture.
  - by destruct (call_not_NullDereference _ _ _ Hcall).
  - apply call_BadFunctionCall, getTextureLoader_empty in Hcall.
    split; [|done]. split; split; try done.
    + intros _. split; [done|]. by exists networkTexture.
    + intros [_ (nt & [= <-] & Hc)].
      assert (Hc' : call (getTextureLoader networkTexture) image url = BadFunctionCall).
      { apply call_BadFunctionCall, getTextureLoader_empty. done. }
      congruence.
  - by destruct (call_not_AssertionFailed _ _ _ Hcall).
Qed.

(** *** Heaps *)

Lemma olderKept_refl (hp : Heap) : olderKept hp hp.
Proof. split; [reflexivity|done]. Qed.

Lemma olderKept_trans (hp0 hp1 hp2 : Heap) :
  olderKept hp0 hp1 → olderKept hp1 hp2 → olderKept hp0 hp2.
Proof.
  intros [N1 K1] [N2 K2]. split; [by etrans|].
  intros id Hid. rewrite K2, K1; [done|done|]. by eapply Pos.lt_le_trans.
Qed.

Lemma olderKept_alloc (t : Texture) (hp : Heap) : olderKept hp (alloc t hp).2.
Proof.
  split; simpl; [lia|].
  intros id Hid. apply lookup_insert_ne. lia.
Qed.

Lemma olderKept_alter (f : Texture → Texture) (id : TexId) (hp0 hp : Heap) :
  olderKept hp0 hp → (nextId hp0 ≤ id)%positive →
  olderKept hp0 (mkHeap (alter f id (objects hp)) (nextId hp)).
Proof.
  intros [N K] Hid. split; [done|]. simpl.
  intros k Hk. rewrite lookup_alter_ne by lia. by apply K.
Qed.

Lemma wfHeap_alloc (t : Texture) (hp : Heap) : wfHeap hp → wfHeap (alloc t hp).2.
Proof.
  intros Hwf id. simpl.
  destruct (decide (nextId hp = id)) as [<-|Hne]; [lia|].
  rewrite lookup_insert_ne by done. intros Hid. specialize (Hwf id Hid). lia.
Qed.

Lemma wfHeap_alter (f : Texture → Texture) (id : TexId) (hp : Heap) :
  wfHeap hp → wfHeap (mkHeap (alter f id (objects hp)) (nextId hp)).
Proof. intros Hwf k. simpl. rewrite alter_alive. apply Hwf. Qed.

Lemma pointsTo_alloc (t : Texture) (hp : Heap) (p : TexturePointer) (x : Texture) :
  wfHeap hp → pointsTo hp p x → pointsTo (alloc t hp).2 p x.
Proof.
  intros Hwf (k & -> & Hk). exists k. split; [done|]. simpl.
  rewrite lookup_insert_ne; [done|].
  assert (k < nextId hp)%positive by (apply Hwf; by eexists). lia.
Qed.

Lemma pointsTo_alter (f : Texture → Texture) (id : TexId) (hp : Heap)
    (p : TexturePointer) (x : Texture) :
  p ≠ Some id → pointsTo hp p x →
  pointsTo (mkHeap (alter f id (objects hp)) (nextId hp)) p x.
Proof.
  intros Hne (k & -> & Hk). exists k. split; [done|]. simpl.
  rewrite lookup_alter_ne; [done|]. congruence.
Qed.

Lemma constantsIntact_alloc (t : Texture) (c : TextureCache) (hp : Heap) :
  wfHeap hp → constantsIntact c hp → constantsIntact c (alloc t hp).2.
Proof.
  intros Hwf (Hw & Hb & Hk).
  repeat split; (destruct Hw as [?|?], Hb as [?|?], Hk as [?|?];
                 first [by left | right; by apply pointsTo_alloc]).
Qed.

Lemma constantsIntact_alter (f : Texture → Texture) (id : TexId)
    (c : TextureCache) (hp : Heap) :
  notConstant c id → constantsIntact c hp →
  constantsIntact c (mkHeap (alter f id (objects hp)) (nextId hp)).
Proof.
  intros (Nw & Nb & Nk) (Hw & Hb & Hk).
  repeat split; (destruct Hw as [?|?], Hb as [?|?], Hk as [?|?];
                 first [by left | right; by apply pointsTo_alter]).
Qed.

Lemma world_eta (w : World) :
  set_heap (heap w) (set_textureCache (textureCache w) w) = w.
Proof. by destruct w. Qed.

(** The three ways a lookup in the fallback table can go: no texture, a
    constant that was already built, or a constant built now. *)
Lemma getFallbackTextureForType_cases (type : TextureType) (w : World) :
  getFallbackTextureForType type w = (None, w)
  ∨ (∃ c k, textureCache w = Some c
            ∧ getFallbackTextureForType type w = (Some k, w)
            ∧ (_whiteTexture c = Some k ∨ _blueTexture c = Some k
               ∨ _blackTexture c = Some k))
  ∨ (∃ c c' t, textureCache w = Some c
               ∧ getFallbackTextureForType type w
                 = (Some (nextId (heap w)),
                    set_heap (alloc t (heap w)).2 (set_textureCache (Some c') w))
               ∧ ((_whiteTexture c = None ∧ t = whiteTexture
                   ∧ c' = set_whiteTexture (Some (nextId (heap w))) c)
                  ∨ (_blueTexture c = None ∧ t = blueTexture
                     ∧ c' = set_blueTexture (Some (nextId (heap w))) c)
                  ∨ (_blackTexture c = None ∧ t = blackTexture
                     ∧ c' = set_blackTexture (Some (nextId (heap w))) c))).
Proof.
  unfold getFallbackTextureForType.
  destruct (textureCache w) as [c|] eqn:Hc; [|by left].
  assert (Hsame : set_heap (heap w) (set_textureCache (Some c) w) = w).
  { rewrite <- Hc. apply world_eta. }
  assert (W : ∀ r cw hw, getWhiteTexture c (heap w) = (r, cw, hw) →
    (∃ k, r = Some k ∧ cw = c ∧ hw = heap w ∧ _whiteTexture c = Some k)
    ∨ (r = Some (nextId (heap w)) ∧ _whiteTexture c = None
       ∧ cw = set_whiteTexture (Some (nextId (heap w))) c
       ∧ hw = (alloc whiteTexture (heap w)).2)).
  { intros r cw hw. unfold getWhiteTexture.
    destruct (_whiteTexture c) as [k|]; intros [= <- <- <-]; [left; by exists k|by right]. }
  assert (B : ∀ r cw hw, getBlueTexture c (heap w) = (r, cw, hw) →
    (∃ k, r = Some k ∧ cw = c ∧ hw = heap w ∧ _blueTexture c = Some k)
    ∨ (r = Some (nextId (heap w)) ∧ _blueTexture c = None
       ∧ cw = set_blueTexture (Some (nextId (heap w))) c
       ∧ hw = (alloc blueTexture (heap w)).2)).
  { intros r cw hw. unfold getBlueTexture.
    destruct (_blueTexture c) as [k|]; intros [= <- <- <-]; [left; by exists k|by right]. }
  assert (K : ∀ r cw hw, getBlackTexture c (heap w) = (r, cw, hw) →
    (∃ k, r = Some k ∧ cw = c ∧ hw = heap w ∧ _blackTexture c = Some k)
    ∨ (r = Some (nextId (heap w)) ∧ _blackTexture c = None
       ∧ cw = set_blackTexture (Some (nextId (heap w))) c
       ∧ hw = (alloc blackTexture (heap w)).2)).
  { intros r cw hw. unfold getBlackTexture.
    destruct (_blackTexture c) as [k|]; intros [= <- <- <-]; [left; by exists k|by right]. }
  destruct (getWhiteTexture c (heap w)) as [[rw cw] hw] eqn:Ew.
  destruct (getBlueTexture c (heap w)) as [[rb cb] hb] eqn:Eb.
  destruct (getBlackTexture c (heap w)) as [[rk ck] hk] eqn:Ek.
  specialize (W _ _ _ eq_refl). specialize (B _ _ _ eq_refl). specialize (K _ _ _ eq_refl).
  destruct type; try (by left).
  all: try (destruct W as [(k & -> & -> & -> & Hf)|(-> & Hf & -> & ->)];
            [right; left; exists c, k; rewrite Hsame; by eauto
            |right; right; eexists c, _, _; split; [done|]; split; [reflexivity|]; by eauto]).
  all: try (destruct B as [(k & -> & -> & -> & Hf)|(-> & Hf & -> & ->)];
            [right; left; exists c, k; rewrite Hsame; by eauto
            |right; right; eexists c, _, _; split; [done|]; split; [reflexivity|]; by eauto]).
  all: destruct K as [(k & -> & -> & -> & Hf)|(-> & Hf & -> & ->)];
       [right; left; exists c, k; rewrite Hsame; by eauto
       |right; right; eexists c, _, _; split; [done|]; split; [reflexivity|]; by eauto].
Qed.

Lemma getFallbackTextureForType_again (type : TextureType) (w w' : World)
    (result : TexturePointer) :
  getFallbackTextureForType type w = (result, w') →
  getFallbackTextureForType type w' = (result, w').
Proof.
  intros E.
  unfold getFallbackTextureForType in *.
  destruct (textureCache w) as [c|] eqn:Hc.
  2:{ injection E as <- <-. by rewrite Hc. }
  assert (Hsame : ∀ c0 w0, textureCache w0 = Some c0 →
            set_heap (heap w0) (set_textureCache (Some c0) w0) = w0).
  { intros c0 w0 <-. apply world_eta. }
  destruct type; simpl in E;
    try (injection E as <- <-; by rewrite Hc).
  all: unfold getWhiteTexture, getBlueTexture, getBlackTexture in E.
  all: match type of E with
       | context [_whiteTexture ?x] => destruct (_whiteTexture x) as [k|] eqn:Hf
       | context [_blueTexture ?x] => destruct (_blueTexture x) as [k|] eqn:Hf
       | context [_blackTexture ?x] => destruct (_blackTexture x) as [k|] eqn:Hf
       end;
       simpl in E; injection E as <- <-; simpl;
       unfold getWhiteTexture, getBlueTexture, getBlackTexture; simpl;
       rewrite ?Hf; simpl; try done.
  all: try (rewrite Hc; simpl; by rewrite Hf).
Qed.

Lemma getFallbackTexture_cases (this : NetworkTexture) (w : World) :
  getFallbackTexture this w = (None, w)
  ∨ (∃ c k, textureCache w = Some c
            ∧ getFallbackTexture this w = (Some k, w)
            ∧ (_whiteTexture c = Some k ∨ _blueTexture c = Some k
               ∨ _blackTexture c = Some k))
  ∨ (∃ c c' t, textureCache w = Some c
               ∧ getFallbackTexture this w
                 = (Some (nextId (heap w)),
                    set_heap (alloc t (heap w)).2 (set_textureCache (Some c') w))
               ∧ ((_whiteTexture c = None ∧ t = whiteTexture
                   ∧ c' = set_whiteTexture (Some (nextId (heap w))) c)
                  ∨ (_blueTexture c = None ∧ t = blueTexture
                     ∧ c' = set_blueTexture (Some (nextId (heap w))) c)
                  ∨ (_blackTexture c = None ∧ t = blackTexture
                     ∧ c' = set_blackTexture (Some (nextId (heap w))) c))).
Proof.
  unfold getFallbackTexture.
  destruct (_type this) eqn:E; first [by left | apply getFallbackTextureForType_cases].
Qed.

Lemma getFallbackTexture_again (this : NetworkTexture) (w w' : World)
    (result : TexturePointer) :
  getFallbackTexture this w = (result, w') →
  getFallbackTexture this w' = (result, w').
Proof.
  unfold getFallbackTexture.
  destruct (_type this); first [by intros [= <- <-] | apply getFallbackTextureForType_again].
Qed.

(** A lookup that changed nothing gives the same answer in any world whose
    cache has the same constant members. *)
Lemma getFallbackTextureForType_stable (type : TextureType) (w w' : World)
    (result : TexturePointer) :
  getFallbackTextureForType type w = (result, w) →
  option_Forall2 (λ c c', _whiteTexture c' = _whiteTexture c
                          ∧ _blueTexture c' = _blueTexture c
                          ∧ _blackTexture c' = _blackTexture c)
                 (textureCache w) (textureCache w') →
  getFallbackTextureForType type w' = (result, w').
Proof.
  intros E Hsame. unfold getFallbackTextureForType in *.
  destruct (textureCache w) as [c|] eqn:Hc, (textureCache w') as [c'|] eqn:Hc';
    inversion Hsame as [? ? (Hw & Hb & Hk)|]; subst; [|by injection E as <-].
  assert (Heta : ∀ c0 w0, textureCache w0 = Some c0 →
            set_heap (heap w0) (set_textureCache (Some c0) w0) = w0).
  { intros c0 w0 <-. apply world_eta. }
  assert (Hgrow : ∀ t c0, set_heap (alloc t (heap w)).2 (set_textureCache (Some c0) w) ≠ w).
  { intros t c0 Heq. apply (f_equal (λ x, nextId (heap x))) in Heq. simpl in Heq. lia. }
  destruct type; try (by injection E as <-).
  all: unfold getWhiteTexture, getBlueTexture, getBlackTexture in *.
  all: rewrite ?Hw, ?Hb, ?Hk.
  all: match type of E with
       | context [_whiteTexture ?x] => destruct (_whiteTexture x) as [k|] eqn:Hf
       | context [_blueTexture ?x] => destruct (_blueTexture x) as [k|] eqn:Hf
       | context [_blackTexture ?x] => destruct (_blackTexture x) as [k|] eqn:Hf
       end; simpl in *.
  all: try (injection E as <- E; by destruct (Hgrow _ _ E)).
  all: injection E as <- _; rewrite Heta; done.
Qed.

Lemma getFallbackTexture_stable (this : NetworkTexture) (w w' : World)
    (result : TexturePointer) :
  getFallbackTexture this w = (result, w) →
  option_Forall2 (λ c c', _whiteTexture c' = _whiteTexture c
                          ∧ _blueTexture c' = _blueTexture c
                          ∧ _blackTexture c' = _blackTexture c)
                 (textureCache w) (textureCache w') →
  getFallbackTexture this w' = (result, w').
Proof.
  unfold getFallbackTexture.
  destruct (_type this); first [by intros [= <-] | apply getFallbackTextureForType_stable].
Qed.

(** The file-cache leg, as one world: at most the texture's backing, the
    resource's [_file] and the file cache change. *)
Lemma saveKtx_shape (task : ImageReader) (own : TexId) (memKtx : option KTX) (w : World) :
  ∃ g rf kc,
    ((g = λ t, t) ∨ ∃ k, g = setKtxBacking k)
    ∧ ((rf = λ r, r) ∨ ∃ file, rf = set_file (Some file))
    ∧ (kc = textureCache w
       ∨ ∃ c k, textureCache w = Some c ∧ kc = Some (set_ktxCache k c))
    ∧ saveKtx task own memKtx w
      = mkWorld (mkHeap (alter g own (objects (heap w))) (nextId (heap w))) kc
                (alter rf (_resource task) (resources w))
                (queue w) (threadPool w) (emitted w) (pendingProcessing w)
                (elsewhere w).
Proof.
  assert (Hid : w = mkWorld (mkHeap (alter (λ t, t) own (objects (heap w))) (nextId (heap w)))
                      (textureCache w) (alter (λ r, r) (_resource task) (resources w))
                      (queue w) (threadPool w) (emitted w) (pendingProcessing w)
                      (elsewhere w)).
  { rewrite !alter_id by done. by destruct w as [[? ?] ? ? ? ? ? ? ?]. }
  unfold saveKtx.
  destruct memKtx as [ktx|].
  2:{ exists (λ t, t), (λ r, r), (textureCache w).
      split; [by left|]. split; [by left|]. split; [by left|]. exact Hid. }
  destruct (textureCache w) as [c|] eqn:Hc.
  2:{ exists (λ t, t), (λ r, r), None.
      split; [by left|]. split; [by left|]. split; [by left|]. exact Hid. }
  destruct (writeFile _ _ _ _) as [[file|] k].
  - destruct (getKTX file) as [fileKtx|].
    + exists (setKtxBacking fileKtx), (set_file (Some file)), (Some (set_ktxCache k c)).
      split; [right; by eexists|]. split; [right; by eexists|].
      split; [right; by eexists _, _|]. done.
    + exists (λ t, t), (set_file (Some file)), (Some (set_ktxCache k c)).
      split; [by left|]. split; [right; by eexists|].
      split; [right; by eexists _, _|].
      rewrite (alter_id (λ t : Texture, t)) by done.
      unfold set_resources, set_textureCache; simpl; f_equal; by destruct (heap w).
  - exists (λ t, t), (λ r, r), (Some (set_ktxCache k c)).
    split; [by left|]. split; [by left|]. split; [right; by eexists _, _|].
    rewrite !alter_id by done.
      unfold set_resources, set_textureCache; simpl; f_equal; by destruct (heap w).
Qed.

Lemma read_attach_unfold (task : ImageReader) (networkTexture : NetworkTexture)
    (own : TexId) (w0 : World) :
  read_attach task networkTexture (Some own) w0
  = Returned (reconcile task (Some own) (beforeRegistry task networkTexture own w0)).
Proof.
  unfold read_attach, beforeRegistry.
  by destruct (getFallbackTexture networkTexture w0).
Qed.

Lemma read_decode_unfold (task : ImageReader) (w : World)
    (networkTexture : NetworkTexture) (t : Texture) :
  notLoaded (parse task) = false →
  resources w !! _resource task = Some networkTexture →
  let d := downscale (reader_maxNumPixels task) (parse task) in
  call (getTextureLoader networkTexture) d.1.1 (toString (reader_url task))
  = Returned (Some t) →
  let r := reconcile task (Some (nextId (heap w)))
             (beforeRegistry task networkTexture (nextId (heap w))
                (afterTransform task t w)) in
  read_decode task w = Returned (r.1, Some (mkDecoded r.2 d.1.2 d.2)).
Proof.
  intros Hok Hres d Hcall r.
  rewrite (read_decode_live _ _ _ Hok Hres). simpl. fold d. rewrite Hcall. simpl.
  rewrite read_attach_unfold. simpl. fold (afterTransform task t w). fold r.
  by destruct r.
Qed.

(** What a lookup in the fallback table leaves of the world. *)
Lemma getFallbackTexture_frame (this : NetworkTexture) (w : World) :
  let wa := (getFallbackTexture this w).2 in
  resources wa = resources w ∧ queue wa = queue w ∧ threadPool wa = threadPool w
  ∧ emitted wa = emitted w ∧ pendingProcessing wa = pendingProcessing w
  ∧ olderKept (heap w) (heap wa)
  ∧ (wfHeap (heap w) → wfHeap (heap wa))
  ∧ (∀ id t, (id < nextId (heap w))%positive →
       objects (heap w) !! id = Some t → objects (heap wa) !! id = Some t)
  ∧ (textureCache w = None → textureCache wa = None).
Proof.
  destruct (getFallbackTexture_cases this w)
    as [E|[(c & k & Hc & E & _)|(c & c' & t & Hc & E & _)]]; rewrite E; simpl.
  - by split_and!.
  - by split_and!.
  - split_and!; try done;
      first [ apply olderKept_alloc | apply (wfHeap_alloc t) | congruence
            | intros id x Hid Hx; rewrite lookup_insert_ne by lia; done ].
Qed.

(** The constants stay intact through a lookup, and a texture that is not
    one of them before is not one of them after. *)
Lemma getFallbackTexture_intact (this : NetworkTexture) (w : World)
    (c : TextureCache) (own : TexId) :
  textureCache w = Some c →
  wfHeap (heap w) →
  constantsIntact c (heap w) →
  notConstant c own → (own < nextId (heap w))%positive →
  let wa := (getFallbackTexture this w).2 in
  ∃ ca, textureCache wa = Some ca
        ∧ constantsIntact ca (heap wa)
        ∧ notConstant ca own
        ∧ _texturesByHashes ca = _texturesByHashes c
        ∧ _ktxCache ca = _ktxCache c.
Proof.
  intros Hc Hwf Hin Hnot Hown.
  destruct (getFallbackTexture_cases this w)
    as [E|[(c0 & k & Hc0 & E & _)|(c0 & c' & t & Hc0 & E & Hbuilt)]]; rewrite E; simpl.
  - by exists c.
  - by exists c.
  - rewrite Hc in Hc0. injection Hc0 as <-.
    exists c'. split; [done|].
    pose proof (constantsIntact_alloc t c (heap w) Hwf Hin) as (Iw & Ib & Ik).
    destruct Hnot as (Nw & Nb & Nk).
    assert (Hnew : ∀ x, pointsTo (alloc x (heap w)).2 (Some (nextId (heap w))) x).
    { intros x. exists (nextId (heap w)). split; [done|]. apply lookup_insert_eq. }
    assert (Hne : Some (nextId (heap w)) ≠ Some own) by (intros [= ?]; lia).
    destruct Hbuilt as [(Hf & -> & ->)|[(Hf & -> & ->)|(Hf & -> & ->)]]; simpl.
    + split; [|by repeat split]. split; [right; apply Hnew|by split].
    + split; [|by repeat split]. split; [done|]. split; [right; apply Hnew|done].
    + split; [|by repeat split]. split; [done|]. split; [done|right; apply Hnew].
Qed.

Lemma constantsIntact_set_ktxCache (k : KTXCache) (c : TextureCache) (hp : Heap) :
  constantsIntact (set_ktxCache k c) hp ↔ constantsIntact c hp.
Proof. done. Qed.

(** The world before the registry leg, member by member. *)
Lemma beforeRegistry_shape (task : ImageReader) (networkTexture : NetworkTexture)
    (own : TexId) (w0 : World) :
  let fallback := (getFallbackTexture networkTexture w0).1 in
  let wa := (getFallbackTexture networkTexture w0).2 in
  ∃ g rf kc,
    (∀ t, source (g t) = source t ∧ width (g t) = width t ∧ height (g t) = height t
          ∧ fallbackTexture (g t) = fallback)
    ∧ ((rf = λ r, r) ∨ ∃ file, rf = set_file (Some file))
    ∧ (kc = textureCache wa
       ∨ ∃ c k, textureCache wa = Some c ∧ kc = Some (set_ktxCache k c))
    ∧ beforeRegistry task networkTexture own w0
      = mkWorld (mkHeap (alter g own (objects (heap wa))) (nextId (heap wa))) kc
                (alter rf (_resource task) (resources wa))
                (queue wa) (threadPool wa) (emitted wa) (pendingProcessing wa)
                (elsewhere wa).
Proof.
  intros fallback wa. unfold beforeRegistry. fold fallback wa.
  set (wb := set_heap _ wa).
  destruct (saveKtx_shape task own (serialize (deref (heap wb) own)) wb)
    as (g & rf & kc & Hg & Hrf & Hkc & ->).
  exists (g ∘ setFallbackTexture fallback), rf, kc.
  split; [|split; [done|split; [done|]]].
  - intros t. destruct Hg as [->|[k ->]]; done.
  - simpl. by rewrite alter_alter_eq.
Qed.

Lemma constantsIntact_olderKept (c : TextureCache) (hp0 hp1 : Heap) :
  wfHeap hp0 → olderKept hp0 hp1 → constantsIntact c hp0 → constantsIntact c hp1.
Proof.
  intros Hwf [_ K] (Hw & Hb & Hk).
  assert (P : ∀ p x, unsetOr hp0 p x → unsetOr hp1 p x).
  { intros p x [->|(k & -> & Hx)]; [by left|]. right. exists k. split; [done|].
    rewrite K; [done|]. apply Hwf. by eexists. }
  split_and!; by apply P.
Qed.

Lemma constantsIntact_notConstant (c : TextureCache) (hp : Heap) :
  wfHeap hp → constantsIntact c hp → notConstant c (nextId hp).
Proof.
  intros Hwf (Hw & Hb & Hk).
  assert (P : ∀ p x, unsetOr hp p x → p ≠ Some (nextId hp)).
  { intros p x [->|(k & -> & Hx)]; [done|]. intros [= ->].
    assert (nextId hp < nextId hp)%positive by (apply Hwf; by eexists). lia. }
  split_and!; by eapply P.
Qed.

Lemma wfRegistry_mono (hp0 hp1 : Heap) (m : gmap string WeakPointer) :
  (nextId hp0 ≤ nextId hp1)%positive → wfRegistry hp0 m → wfRegistry hp1 m.
Proof. intros Hle Hwf hash id Hm. specialize (Hwf hash id Hm). lia. Qed.

Lemma wfRegistry_subscript (hp : Heap) (m : gmap string WeakPointer) (hash : string) :
  wfRegistry hp m → wfRegistry hp (subscript m hash).1.
Proof.
  intros Hwf. unfold subscript. destruct (m !! hash) eqn:E; [done|]. simpl.
  intros h id. destruct (decide (hash = h)) as [<-|?].
  - by rewrite lookup_insert_eq.
  - rewrite lookup_insert_ne by done. apply Hwf.
Qed.

Lemma wfRegistry_insert (hp : Heap) (m : gmap string WeakPointer) (hash : string)
    (texture : TexturePointer) :
  wfRegistry hp m → (∀ id, texture = Some id → (id < nextId hp)%positive) →
  wfRegistry hp (<[hash := texture]> m).
Proof.
  intros Hwf Ht h id. destruct (decide (hash = h)) as [<-|?].
  - rewrite lookup_insert_eq. intros [= ->]. by apply Ht.
  - rewrite lookup_insert_ne by done. apply Hwf.
Qed.

(** What [cacheTextureByHash] leaves of the cache. *)
Lemma cacheTextureByHash_cache (hp : Heap) (hash : string) (texture : TexturePointer)
    (c : TextureCache) :
  let c' := (cacheTextureByHash hp hash texture c).1 in
  _ktxCache c' = _ktxCache c
  ∧ _whiteTexture c' = _whiteTexture c
  ∧ _grayTexture c' = _grayTexture c
  ∧ _blueTexture c' = _blueTexture c
  ∧ _blackTexture c' = _blackTexture c
  ∧ (wfRegistry hp (_texturesByHashes c) →
     (∀ id, texture = Some id → (id < nextId hp)%positive) →
     wfRegistry hp (_texturesByHashes c')).
Proof.
  destruct (liveEntry hp (_texturesByHashes c) hash) as [e|] eqn:E.
  - rewrite (cacheTextureByHash_live _ _ _ _ _ E). by split_and!.
  - rewrite (cacheTextureByHash_free _ _ _ _ E). simpl. split_and!; try done.
    intros. by apply wfRegistry_insert.
Qed.

Lemma reconcile_cache (task : ImageReader) (texture : TexturePointer) (w : World) :
  let w1 := (reconcile task texture w).1 in
  heap w1 = heap w ∧ resources w1 = resources w ∧ queue w1 = queue w
  ∧ threadPool w1 = threadPool w ∧ emitted w1 = emitted w
  ∧ pendingProcessing w1 = pendingProcessing w
  ∧ option_Forall2 (λ c c', _whiteTexture c' = _whiteTexture c
                            ∧ _blueTexture c' = _blueTexture c
                            ∧ _blackTexture c' = _blackTexture c)
                   (textureCache w) (textureCache w1)
  ∧ (∀ c, textureCache w = Some c →
       wfRegistry (heap w) (_texturesByHashes c) →
       (∀ id, texture = Some id → (id < nextId (heap w))%positive) →
       ∃ c1, textureCache w1 = Some c1 ∧ wfRegistry (heap w) (_texturesByHashes c1)
             ∧ ∀ hp, constantsIntact c1 hp ↔ constantsIntact c hp).
Proof.
  unfold reconcile.
  destruct (textureCache w) as [c|] eqn:Hc.
  - pose proof (cacheTextureByHash_cache (heap w) (_hash task) texture c)
      as (Hk & Hw & Hg & Hb & Hbl & Hreg).
    destruct (cacheTextureByHash (heap w) (_hash task) texture c) as [c1 r]. simpl in *.
    split_and!; try done.
    + by constructor.
    + intros c0 [= <-] Hwf Ht. exists c1. split; [done|]. split; [by apply Hreg|].
      intros hp. unfold constantsIntact. by rewrite Hw, Hb, Hbl.
  - simpl. split_and!; try done.
    + rewrite Hc. constructor.
Qed.

Lemma afterTransform_facts (task : ImageReader) (t : Texture) (w : World) :
  let own := nextId (heap w) in
  let w0 := afterTransform task t w in
  olderKept (heap w) (heap w0)
  ∧ (wfHeap (heap w) → wfHeap (heap w0))
  ∧ nextId (heap w0) = (own + 1)%positive
  ∧ objects (heap w0) !! own = Some (setSource (toString (reader_url task)) t)
  ∧ textureCache w0 = textureCache w ∧ resources w0 = resources w
  ∧ queue w0 = queue w ∧ threadPool w0 = threadPool w ∧ emitted w0 = emitted w
  ∧ pendingProcessing w0 = pendingProcessing w.
Proof.
  intros own w0. split_and!; try done.
  - split; simpl; [lia|]. intros id Hid.
    rewrite lookup_alter_ne, lookup_insert_ne by lia. done.
  - intros Hwf. exact (wfHeap_alter _ own _ (wfHeap_alloc t _ Hwf)).
  - simpl. by rewrite lookup_alter_eq, lookup_insert_eq.
Qed.

(** The world right before the registry leg, against the world the task
    started in. *)
Lemma block_facts (task : ImageReader) (networkTexture : NetworkTexture)
    (t : Texture) (w : World) :
  let own := nextId (heap w) in
  let wc := beforeRegistry task networkTexture own (afterTransform task t w) in
  olderKept (heap w) (heap wc)
  ∧ (wfHeap (heap w) → wfHeap (heap wc))
  ∧ (own < nextId (heap wc))%positive
  ∧ (∃ t1, objects (heap wc) !! own = Some t1
           ∧ source t1 = toString (reader_url task)
           ∧ width t1 = width t ∧ height t1 = height t
           ∧ fallbackTexture t1 = (getFallbackTexture networkTexture wc).1)
  ∧ (getFallbackTexture networkTexture wc).2 = wc
  ∧ (∀ rid, rid ≠ _resource task → resources wc !! rid = resources w !! rid)
  ∧ (resources wc !! _resource task = resources w !! _resource task
     ∨ ∃ file r0, resources w !! _resource task = Some r0
                  ∧ resources wc !! _resource task = Some (set_file (Some file) r0))
  ∧ queue wc = queue w ∧ threadPool wc = threadPool w ∧ emitted wc = emitted w
  ∧ pendingProcessing wc = pendingProcessing w
  ∧ (textureCache w = None → textureCache wc = None)
  ∧ (∀ c, textureCache w = Some c →
       ∃ cc, textureCache wc = Some cc
             ∧ _texturesByHashes cc = _texturesByHashes c
             ∧ (wfHeap (heap w) → constantsIntact c (heap w) →
                constantsIntact cc (heap wc))).
Proof.
  intros own wc.
  destruct (afterTransform_facts task t w)
    as (K0 & W0 & N0 & O0 & C0 & R0 & Q0 & P0 & E0 & S0).
  fold own in N0, O0.
  set (w0 := afterTransform task t w) in *.
  destruct (getFallbackTexture networkTexture w0) as [fallback wa] eqn:Hfb.
  pose proof (getFallbackTexture_frame networkTexture w0) as F.
  cbv zeta in F. rewrite Hfb in F. cbn [fst snd] in F.
  destruct F as (Ra & Qa & Pa & Ea & Sa & Ka & Wa & Oa & Ca).
  pose proof (beforeRegistry_shape task networkTexture own w0) as F.
  cbv zeta in F. rewrite Hfb in F. cbn [fst snd] in F.
  destruct F as (g & rf & kc & Hg & Hrf & Hkc & Hshape).
  fold wc in Hshape.
  assert (Hown_a : objects (heap wa) !! own = Some (setSource (toString (reader_url task)) t)).
  { apply Oa; [lia|done]. }
  assert (Hagain : getFallbackTexture networkTexture wa = (fallback, wa)).
  { by apply (getFallbackTexture_again _ w0). }
  assert (Hsame : option_Forall2
            (λ c c', _whiteTexture c' = _whiteTexture c ∧ _blueTexture c' = _blueTexture c
                     ∧ _blackTexture c' = _blackTexture c)
            (textureCache wa) (textureCache wc)).
  { rewrite Hshape. simpl.
    destruct Hkc as [->|(c & k & Hc & ->)].
    - destruct (textureCache wa); by constructor.
    - rewrite Hc. by constructor. }
  pose proof (getFallbackTexture_stable _ _ wc _ Hagain Hsame) as Hstable.
  assert (Hheap : heap wc = mkHeap (alter g own (objects (heap wa))) (nextId (heap wa))).
  { by rewrite Hshape. }
  assert (Kc : olderKept (heap w) (heap wc)).
  { rewrite Hheap. apply olderKept_alter; [|done].
    by apply (olderKept_trans _ (heap w0)). }
  split; [done|].
  split.
  { intros Hwf. rewrite Hheap. apply wfHeap_alter, Wa, W0, Hwf. }
  split.
  { rewrite Hheap. simpl. destruct Ka as [Ka _]. lia. }
  split.
  { exists (g (setSource (toString (reader_url task)) t)).
    rewrite Hheap. simpl. rewrite lookup_alter_eq, Hown_a. simpl.
    destruct (Hg (setSource (toString (reader_url task)) t)) as (-> & -> & -> & ->).
    rewrite Hstable. done. }
  split; [by rewrite Hstable|].
  split.
  { intros rid Hne. rewrite Hshape. simpl.
    rewrite lookup_alter_ne by done. by rewrite Ra, R0. }
  split.
  { rewrite Hshape. simpl. rewrite lookup_alter_eq, Ra, R0.
    destruct Hrf as [->|[file ->]].
    - left. by destruct (resources w !! _resource task).
    - destruct (resources w !! _resource task) as [r0|]; [|by left].
      right. by exists file, r0. }
  rewrite Hshape. simpl.
  split; [congruence|]. split; [congruence|]. split; [congruence|].
  split; [congruence|].
  split.
  { intros Hnone. rewrite <- C0 in Hnone. specialize (Ca Hnone).
    destruct Hkc as [->|(c & k & Hc & ->)]; congruence. }
  intros c Hc. rewrite <- C0 in Hc.
  assert (Hca : ∃ ca, textureCache wa = Some ca
                      ∧ _texturesByHashes ca = _texturesByHashes c
                      ∧ (wfHeap (heap w) → constantsIntact c (heap w) →
                         constantsIntact ca (heap wa) ∧ notConstant ca own)).
  { destruct (getFallbackTexture_cases networkTexture w0)
      as [E|[(c0 & k & Hc0 & E & _)|(c0 & c' & x & Hc0 & E & Hbuilt)]];
      rewrite Hfb in E; injection E as _ Ewa.
    - subst wa. exists c. split; [done|]. split; [done|]. intros Hwf Hin. split.
      + by apply (constantsIntact_olderKept c (heap w)).
      + by apply constantsIntact_notConstant.
    - subst wa. exists c. split; [done|]. split; [done|]. intros Hwf Hin. split.
      + by apply (constantsIntact_olderKept c (heap w)).
      + by apply constantsIntact_notConstant.
    - rewrite Hc in Hc0. injection Hc0 as <-.
      exists c'. split; [by subst wa|].
      split; [by destruct Hbuilt as [(_ & _ & ->)|[(_ & _ & ->)|(_ & _ & ->)]]|].
      intros Hwf Hin.
      assert (Hin0 : constantsIntact c (heap w0))
        by (by apply (constantsIntact_olderKept c (heap w))).
      assert (Hnot : notConstant c own) by (by apply constantsIntact_notConstant).
      assert (Hlt : (own < nextId (heap w0))%positive) by lia.
      destruct (getFallbackTexture_intact networkTexture w0 c own Hc (W0 Hwf) Hin0 Hnot Hlt)
        as (ca & Hca & Ia & Na & _).
      rewrite Hfb in Hca, Ia. cbn [fst snd] in Hca, Ia.
      subst wa. simpl in Hca. injection Hca as <-. done. }
  destruct Hca as (ca & Hca & Hreg & Hinv).
  destruct Hkc as [->|(c2 & k & Hc2 & ->)].
  - exists ca. split; [done|]. split; [done|].
    intros Hwf Hin. destruct (Hinv Hwf Hin) as [Ia Na].
    by apply constantsIntact_alter.
  - rewrite Hca in Hc2. injection Hc2 as <-.
    exists (set_ktxCache k ca). split; [done|]. split; [done|].
    intros Hwf Hin. destruct (Hinv Hwf Hin) as [Ia Na].
    apply constantsIntact_set_ktxCache. by apply constantsIntact_alter.
Qed.

(** The two ways [read_decode] returns: an early return that leaves the
    world alone, or the whole block. *)
Lemma read_decode_cases (task : ImageReader) (w w1 : World) (decoded : option Decoded) :
  read_decode task w = Returned (w1, decoded) →
  (w1 = w ∧ decoded = None)
  ∨ ∃ networkTexture t,
      notLoaded (parse task) = false
      ∧ resources w !! _resource task = Some networkTexture
      ∧ call (getTextureLoader networkTexture)
             (downscale (reader_maxNumPixels task) (parse task)).1.1
             (toString (reader_url task)) = Returned (Some t)
      ∧ let r := reconcile task (Some (nextId (heap w)))
                   (beforeRegistry task networkTexture (nextId (heap w))
                      (afterTransform task t w)) in
        w1 = r.1
        ∧ decoded = Some (mkDecoded r.2
                            (downscale (reader_maxNumPixels task) (parse task)).1.2
                            (downscale (reader_maxNumPixels task) (parse task)).2).
Proof.
  intros Hd.
  destruct (notLoaded (parse task)) eqn:Hok.
  { unfold read_decode in Hd. rewrite Hok in Hd. injection Hd as <- <-. by left. }
  destruct (resources w !! _resource task) as [networkTexture|] eqn:Hres.
  2:{ unfold read_decode in Hd. rewrite Hok, Hres in Hd.
      destruct (downscale _ _) as [[? ?] ?]. injection Hd as <- <-. by left. }
  destruct (call (getTextureLoader networkTexture)
              (downscale (reader_maxNumPixels task) (parse task)).1.1
              (toString (reader_url task))) as [[t|]| | |] eqn:Hcall.
  - right. exists networkTexture, t. split; [done|]. split; [done|]. split; [done|].
    rewrite (read_decode_unfold task w networkTexture t Hok Hres Hcall) in Hd.
    cbv zeta in *. by injection Hd as <- <-.
  - rewrite (read_decode_live _ _ _ Hok Hres) in Hd. simpl in Hd. by rewrite Hcall in Hd.
  - rewrite (read_decode_live _ _ _ Hok Hres) in Hd. simpl in Hd. by rewrite Hcall in Hd.
  - rewrite (read_decode_live _ _ _ Hok Hres) in Hd. simpl in Hd. by rewrite Hcall in Hd.
  - rewrite (read_decode_live _ _ _ Hok Hres) in Hd. simpl in Hd. by rewrite Hcall in Hd.
Qed.

Lemma sameButFile_refl (r : NetworkTexture) : sameButFile r r.
Proof. by destruct r. Qed.

Lemma sameButFile_set_file (f : option KTXFile) (r : NetworkTexture) :
  sameButFile r (set_file f r).
Proof. by destruct r. Qed.

(** What the block of a task leaves as it was. *)
Lemma read_decode_frame
    (task : ImageReader) (w w1 : World) (decoded : option Decoded) :
  read_decode task w = Returned (w1, decoded) →
  olderKept (heap w) (heap w1)
  ∧ (∀ rid, rid ≠ _resource task → resources w1 !! rid = resources w !! rid)
  ∧ option_Forall2 sameButFile (resources w !! _resource task)
                               (resources w1 !! _resource task)
  ∧ queue w1 = queue w ∧ threadPool w1 = threadPool w ∧ emitted w1 = emitted w
  ∧ pendingProcessing w1 = pendingProcessing w
  ∧ (is_Some (textureCache w1) ↔ is_Some (textureCache w)).
Proof.
  intros Hd.
  destruct (read_decode_cases task w w1 decoded Hd)
    as [[-> ->]|(networkTexture & t & Hok & Hres & Hcall & Hw1 & _)].
  { split; [apply olderKept_refl|]. split; [done|].
    split; [|done].
    destruct (resources w !! _resource task); constructor. apply sameButFile_refl. }
  cbv zeta in Hw1.
  destruct (block_facts task networkTexture t w)
    as (K & _ & _ & _ & _ & Ro & Rs & Q & P & E & S & Cn & Cs).
  set (wc := beforeRegistry _ _ _ _) in *.
  destruct (reconcile_cache task (Some (nextId (heap w))) wc)
    as (Hh & Hr & Hq & Hp & He & Hs & Hc & _).
  rewrite <- Hw1 in *.
  rewrite Hh, Hr, Hq, Hp, He, Hs.
  split; [done|]. split; [done|].
  split.
  { destruct Rs as [->|(file & r0 & -> & ->)].
    - destruct (resources w !! _resource task); constructor. apply sameButFile_refl.
    - constructor. apply sameButFile_set_file. }
  do 4 (split; [done|]).
  destruct (textureCache w) as [c|] eqn:Hcw.
  - destruct (Cs c eq_refl) as (cc & Hcc & _). rewrite Hcc in Hc.
    inversion Hc; subst. split; intros _; by eexists.
  - rewrite (Cn eq_refl) in Hc. inversion Hc as [|Hn1 Hn2].
    split; intros [? ?]; congruence.
Qed.

(** X10. Whenever the block of [ImageReader::read] returns, every texture
    created before the call is what it was, the other resources are
    untouched, the task's own resource differs at most in [_file], nothing is
    queued, scheduled or emitted, the statistic keeps its value and the
    texture cache neither appears nor disappears. *)
Theorem read_decode_touches_only_its_own
    (task : ImageReader) (w w1 : World) (decoded : option Decoded) :
  read_decode task w = Returned (w1, decoded) →
  olderKept (heap w) (heap w1)
  ∧ (∀ rid, rid ≠ _resource task → resources w1 !! rid = resources w !! rid)
  ∧ option_Forall2 sameButFile (resources w !! _resource task)
                               (resources w1 !! _resource task)
  ∧ queue w1 = queue w ∧ threadPool w1 = threadPool w ∧ emitted w1 = emitted w
  ∧ pendingProcessing w1 = pendingProcessing w
  ∧ (is_Some (textureCache w1) ↔ is_Some (textureCache w)).
Proof. apply read_decode_frame. Qed.

(** X11. When the buffer parses, the resource is alive and its transform
    returns a texture, the block of [ImageReader::read] returns a result; the
    texture it created has the next identity, carries the URL of the task as
    its source and the dimensions the transform gave it, and its fallback is
    the one [getFallbackTexture] gives for the resource afterwards. *)
Theorem read_decode_labels_its_texture
    (task : ImageReader) (w : World) (networkTexture : NetworkTexture) (t : Texture) :
  notLoaded (parse task) = false →
  resources w !! _resource task = Some networkTexture →
  call (getTextureLoader networkTexture)
       (downscale (reader_maxNumPixels task) (parse task)).1.1
       (toString (reader_url task)) = Returned (Some t) →
  ∃ w1 d t1,
    read_decode task w = Returned (w1, Some d)
    ∧ objects (heap w1) !! nextId (heap w) = Some t1
    ∧ source t1 = toString (reader_url task)
    ∧ width t1 = width t ∧ height t1 = height t
    ∧ getFallbackTexture networkTexture w1 = (fallbackTexture t1, w1).
Proof.
  intros Hok Hres Hcall.
  pose proof (read_decode_unfold task w networkTexture t Hok Hres Hcall) as Hd.
  cbv zeta in Hd.
  destruct (block_facts task networkTexture t w)
    as (_ & _ & _ & (t1 & Ht1 & Hs & Hw & Hh & Hf) & Hstable & _).
  set (wc := beforeRegistry _ _ _ _) in *.
  destruct (reconcile_cache task (Some (nextId (heap w))) wc)
    as (Hheap & _ & _ & _ & _ & _ & Hc & _).
  eexists _, _, t1. split; [exact Hd|]. simpl.
  rewrite Hheap. do 4 (split; [done|]).
  apply (getFallbackTexture_stable _ wc); [|done].
  rewrite Hf. rewrite <- Hstable at 3. by destruct (getFallbackTexture networkTexture wc).
Qed.

(** A live holder in the registry when the task starts is what the task
    ends up with. *)
Lemma read_decode_adopts (task : ImageReader) (w w1 : World) (d : Decoded)
    (c : TextureCache) (existing : TexId) :
  read_decode task w = Returned (w1, Some d) →
  textureCache w = Some c →
  liveEntry (heap w) (_texturesByHashes c) (_hash task) = Some existing →
  decoded_texture d = Some existing
  ∧ is_Some (objects (heap w1) !! existing)
  ∧ ∃ c1, textureCache w1 = Some c1 ∧ _texturesByHashes c1 = _texturesByHashes c.
Proof.
  intros Hd Hc Hlive.
  destruct (read_decode_Some task w w1 d Hd) as (wc & K & A & Hrec).
  destruct K as (Kalive & _ & Kreg & _).
  rewrite Hc in Kreg. simpl in Kreg.
  destruct (textureCache wc) as [cc|] eqn:Hcc; [|done].
  injection Kreg as Kreg.
  apply lock_Some in Hlive as [Hw Ha].
  assert (Hlive' : liveEntry (heap wc) (_texturesByHashes cc) (_hash task) = Some existing).
  { unfold liveEntry. rewrite Kreg, Hw. simpl.
    destruct (Kalive existing Ha) as [x ->]. done. }
  unfold reconcile in Hrec. rewrite Hcc in Hrec.
  rewrite (cacheTextureByHash_live _ _ _ _ _ Hlive') in Hrec.
  injection Hrec as <- <-. simpl.
  split; [done|]. split; [by apply Kalive|]. by exists cc.
Qed.

(** X13. When the hash of the task already has a live holder in the registry,
    the block of [ImageReader::read] hands that holder on, not the texture it
    created; the holder is still alive afterwards and the registry is the one
    it was. *)
Theorem read_decode_adopts_live_holder (task : ImageReader) (w w1 : World) (d : Decoded)
    (c : TextureCache) (existing : TexId) :
  read_decode task w = Returned (w1, Some d) →
  textureCache w = Some c →
  liveEntry (heap w) (_texturesByHashes c) (_hash task) = Some existing →
  decoded_texture d = Some existing
  ∧ is_Some (objects (heap w1) !! existing)
  ∧ ∃ c1, textureCache w1 = Some c1 ∧ _texturesByHashes c1 = _texturesByHashes c.
Proof. apply read_decode_adopts. Qed.





(** X14. When the hash of the task has no live holder and the registry names
    only textures that were created, the block of [ImageReader::read] hands
    on the texture it created; that texture is alive, the registry holds it
    under the hash of the task, and the live holders of the other hashes are
    as before. *)
Theorem read_decode_registers_its_own (task : ImageReader) (w w1 : World) (d : Decoded)
    (c : TextureCache) :
  wfRegistry (heap w) (_texturesByHashes c) →
  read_decode task w = Returned (w1, Some d) →
  textureCache w = Some c →
  liveEntry (heap w) (_texturesByHashes c) (_hash task) = None →
  decoded_texture d = Some (nextId (heap w))
  ∧ is_Some (objects (heap w1) !! nextId (heap w))
  ∧ ∃ c1, textureCache w1 = Some c1
          ∧ _texturesByHashes c1 !! _hash task = Some (Some (nextId (heap w)))
          ∧ ∀ other, other ≠ _hash task →
              liveEntry (heap w1) (_texturesByHashes c1) other
              = liveEntry (heap w1) (_texturesByHashes c) other.
Proof.
  intros Hwf Hd Hc Hmiss.
  destruct (read_decode_cases task w w1 (Some d) Hd)
    as [[_ ?]|(networkTexture & t & Hok & Hres & Hcall & Hw1 & Hdec)]; [done|].
  cbv zeta in Hw1, Hdec.
  destruct (block_facts task networkTexture t w)
    as ([_ K] & _ & _ & (t1 & Ht1 & _) & _ & _ & _ & _ & _ & _ & _ & _ & Cs).
  destruct (Cs c Hc) as (cc & Hcc & Hreg & _).
  set (own := nextId (heap w)) in *.
  set (wc := beforeRegistry _ _ _ _) in *.
  assert (Hmiss' : liveEntry (heap wc) (_texturesByHashes cc) (_hash task) = None).
  { unfold liveEntry in *. rewrite Hreg.
    destruct (_texturesByHashes c !! _hash task) as [[e|]|] eqn:E; simpl in *; try done.
    rewrite K; [done|]. by apply (Hwf (_hash task)). }
  unfold reconcile in Hw1, Hdec. rewrite Hcc in Hw1, Hdec.
  rewrite (cacheTextureByHash_free _ _ _ _ Hmiss') in Hw1, Hdec. simpl in Hw1, Hdec.
  injection Hdec as ->. subst w1. simpl.
  split; [done|]. split; [by eexists|].
  eexists. split; [done|]. simpl. split; [apply lookup_insert_eq|].
  intros other Hne. rewrite liveEntry_insert_ne by done. by rewrite Hreg.
Qed.

(** *** Settled worlds *)

Lemma getFallbackTextureForType_settled (type : TextureType) (w : World) :
  settled w → settled (getFallbackTextureForType type w).2.
Proof.
  intros [Hwf Hcache].
  destruct (getFallbackTextureForType_cases type w)
    as [E|[(c & k & Hc & E & _)|(c & c' & t & Hc & E & Hbuilt)]]; rewrite E; simpl.
  - by split.
  - by split.
  - destruct (Hcache c Hc) as [Hin Hreg].
    split; [by apply (wfHeap_alloc t)|].
    intros c0 [= <-].
    pose proof (constantsIntact_alloc t c (heap w) Hwf Hin) as (Iw & Ib & Ik).
    assert (Hnew : ∀ x, pointsTo (alloc x (heap w)).2 (Some (nextId (heap w))) x).
    { intros x. exists (nextId (heap w)). split; [done|]. apply lookup_insert_eq. }
    assert (Hreg' : wfRegistry (alloc t (heap w)).2 (_texturesByHashes c)).
    { apply (wfRegistry_mono (heap w)); [simpl; lia|done]. }
    destruct Hbuilt as [(Hf & -> & ->)|[(Hf & -> & ->)|(Hf & -> & ->)]]; simpl.
    + split; [|done]. split; [right; apply Hnew|by split].
    + split; [|done]. split; [done|]. split; [right; apply Hnew|done].
    + split; [|done]. split; [done|]. split; [done|right; apply Hnew].
Qed.

Lemma read_decode_settled (task : ImageReader) (w w1 : World) (decoded : option Decoded) :
  settled w → read_decode task w = Returned (w1, decoded) → settled w1.
Proof.
  intros [Hwf Hcache] Hd.
  destruct (read_decode_cases task w w1 decoded Hd)
    as [[-> ->]|(networkTexture & t & Hok & Hres & Hcall & Hw1 & _)]; [by split|].
  cbv zeta in Hw1.
  destruct (block_facts task networkTexture t w)
    as ([Kn K] & W & Hlt & _ & _ & _ & _ & _ & _ & _ & _ & Cn & Cs).
  set (wc := beforeRegistry _ _ _ _) in *.
  destruct (reconcile_cache task (Some (nextId (heap w))) wc)
    as (Hheap & _ & _ & _ & _ & _ & Hsame & Hrec).
  rewrite <- Hw1 in *.
  split; [rewrite Hheap; by apply W|].
  intros c1 Hc1. rewrite Hheap.
  destruct (textureCache w) as [c|] eqn:Hc.
  2:{ rewrite (Cn eq_refl) in Hsame. inversion Hsame. congruence. }
  destruct (Hcache c eq_refl) as [Hin Hreg].
  destruct (Cs c eq_refl) as (cc & Hcc & Hregc & Hinc).
  destruct (Hrec cc Hcc) as (c1' & Hc1' & Hreg1 & Hiff).
  { rewrite Hregc. by apply (wfRegistry_mono (heap w)). }
  { by intros id [= <-]. }
  rewrite Hc1 in Hc1'. injection Hc1' as <-.
  split; [|done]. apply Hiff. by apply Hinc.
Qed.

(** The disk-cache leg of [loadContent], for a settled cache. *)
Lemma fromKtxCache_settled (hash : string) (c : TextureCache) (hp : Heap) :
  wfHeap hp → constantsIntact c hp → wfRegistry hp (_texturesByHashes c) →
  let r := fromKtxCache hash c hp in
  wfHeap r.2 ∧ constantsIntact r.1.2 r.2 ∧ wfRegistry r.2 (_texturesByHashes r.1.2)
  ∧ olderKept hp r.2 ∧ strong r.2 r.1.1.
Proof.
  intros Hwf Hin Hreg. unfold fromKtxCache.
  assert (Hsame : wfHeap hp ∧ constantsIntact c hp ∧ wfRegistry hp (_texturesByHashes c)
                  ∧ olderKept hp hp ∧ strong hp None).
  { split_and!; try done. }
  destruct (getFile (_ktxCache c) hash) as [ktxFile|]; [|done].
  destruct (getKTX ktxFile) as [ktx|]; [|done].
  destruct (unserialize ktx) as [t|]; [|done]. simpl.
  set (id := nextId hp).
  set (hp2 := mkHeap _ _).
  assert (Hwf2 : wfHeap hp2) by exact (wfHeap_alter _ id _ (wfHeap_alloc t _ Hwf)).
  assert (Hin2 : constantsIntact c hp2).
  { exact (constantsIntact_alter _ id c (alloc t hp).2
             (constantsIntact_notConstant c hp Hwf Hin)
             (constantsIntact_alloc t c hp Hwf Hin)). }
  assert (Hreg2 : wfRegistry hp2 (_texturesByHashes c)).
  { apply (wfRegistry_mono hp); [simpl; lia|done]. }
  assert (Hid : is_Some (objects hp2 !! id)).
  { simpl. rewrite lookup_alter_eq, lookup_insert_eq. by eexists. }
  assert (Hk : olderKept hp hp2).
  { exact (olderKept_alter _ id hp (alloc t hp).2 (olderKept_alloc t hp)
             ltac:(unfold id; lia)). }
  pose proof (cacheTextureByHash_cache hp2 hash (Some id) c) as (_ & Cw & _ & Cb & Ck & Cr).
  pose proof (cacheTextureByHash_holder hp2 hash (Some id) c Hid) as Hh.
  destruct (cacheTextureByHash hp2 hash (Some id) c) as [c' texture]. simpl in *.
  split; [done|]. split.
  { unfold constantsIntact. by rewrite Cw, Cb, Ck. }
  split.
  { apply Cr; [done|]. intros ? [= <-]. simpl. lia. }
  split; [done|]. rewrite <- Hh. apply lock_is_strong.
Qed.

Lemma loadContent_settled (self : ResId) (content : QByteArray) (w : World) :
  settled w → settled (loadContent self content w).
Proof.
  intros [Hwf Hcache]. unfold loadContent.
  destruct (resources w !! self) as [this|] eqn:Hthis; [|by split].
  assert (Hstart : ∀ task w0, settled w0 → settled (start task w0)) by done.
  assert (Hset : ∀ tex ow oh w0, settled w0 → settled (setImage self tex ow oh w0)).
  { intros tex ow oh w0 Hs.
    destruct (setImage_frame self tex ow oh w0) as (Hh & Hc & _).
    unfold settled. by rewrite Hh, Hc. }
  destruct (_cache this); [|by apply Hstart].
  destruct (textureCache w) as [c|] eqn:Hc; [|apply Hstart; split; [done|by rewrite Hc]].
  destruct (Hcache c eq_refl) as [Hin Hreg].
  rewrite getTextureByHash_result.
  set (c1 := set_texturesByHashes _ c).
  assert (Hin1 : constantsIntact c1 (heap w)) by done.
  assert (Hreg1 : wfRegistry (heap w) (_texturesByHashes c1))
    by (by apply wfRegistry_subscript).
  destruct (liveEntry (heap w) (_texturesByHashes c) (md5Hex content)) as [id|].
  - apply Hset. split; [done|]. by intros ? [= <-].
  - pose proof (fromKtxCache_settled (md5Hex content) c1 (heap w) Hwf Hin1 Hreg1)
      as (S1 & S2 & S3 & _).
    destruct (fromKtxCache (md5Hex content) c1 (heap w)) as [[texture c2] hp2].
    simpl in *.
    assert (Hs2 : settled (set_heap hp2 (set_textureCache (Some c2) w))).
    { split; [done|]. by intros ? [= <-]. }
    destruct texture; [by apply Hset|by apply Hstart].
Qed.

(** X17. A world in which identities are handed out in order, the constant
    members are null or own their constants, and the registry names only
    textures that were created stays such a world through
    [getFallbackTextureForType], [loadContent], the block of
    [ImageReader::read], [setImage] and the constructor of
    [NetworkTexture]. *)
Theorem settled_is_kept (w : World) :
  settled w →
  (∀ type, settled (getFallbackTextureForType type w).2)
  ∧ (∀ self content, settled (loadContent self content w))
  ∧ (∀ task w1 decoded, read_decode task w = Returned (w1, decoded) → settled w1)
  ∧ (∀ self texture originalWidth originalHeight,
       settled (setImage self texture originalWidth originalHeight w))
  ∧ (∀ self url type content maxNumPixels,
       settled (NetworkTexture_new self url type content maxNumPixels w)).
Proof.
  intros Hs. split_and!.
  - intros type. by apply getFallbackTextureForType_settled.
  - intros self content. by apply loadContent_settled.
  - intros task w1 decoded. by apply read_decode_settled.
  - intros self texture ow oh.
    destruct (setImage_frame self texture ow oh w) as (Hh & Hc & _).
    unfold settled. by rewrite Hh, Hc.
  - intros self url type content maxNumPixels. unfold NetworkTexture_new.
    by destruct content.
Qed.

(** X2. [getFallbackTextureForType] builds a constant at most once: asking
    again for the same type in the world it left returns the same pointer and
    changes nothing; the call keeps every older texture, the registry, the
    resources, the queue, the pool and the signals. *)
Theorem getFallbackTextureForType_built_once (type : TextureType) (w : World) :
  let '(result, w') := getFallbackTextureForType type w in
  getFallbackTextureForType type w' = (result, w')
  ∧ olderKept (heap w) (heap w')
  ∧ (_texturesByHashes <$> textureCache w') = (_texturesByHashes <$> textureCache w)
  ∧ resources w' = resources w ∧ queue w' = queue w ∧ threadPool w' = threadPool w
  ∧ emitted w' = emitted w.
Proof.
  destruct (getFallbackTextureForType type w) as [result w'] eqn:E.
  split; [by apply (getFallbackTextureForType_again type w)|].
  destruct (getFallbackTextureForType_cases type w)
    as [E'|[(c & k & Hc & E' & _)|(c & c' & t & Hc & E' & Hbuilt)]];
    rewrite E in E'; injection E' as -> ->.
  - split; [apply olderKept_refl|done].
  - split; [apply olderKept_refl|done].
  - split; [apply olderKept_alloc|]. simpl. rewrite Hc. simpl.
    by destruct Hbuilt as [(_ & _ & ->)|[(_ & _ & ->)|(_ & _ & ->)]].
Qed.

Lemma setImage_others (self other : ResId) (texture : TexturePointer)
    (originalWidth originalHeight : Z) (w : World) :
  other ≠ self →
  resources (setImage self texture originalWidth originalHeight w) !! other
  = resources w !! other.
Proof.
  intros Hne. unfold setImage. destruct (resources w !! self); [|done].
  simpl. by rewrite lookup_insert_ne.
Qed.

Lemma fromKtxCache_strong (hash : string) (c : TextureCache) (hp : Heap) :
  strong (fromKtxCache hash c hp).2 (fromKtxCache hash c hp).1.1.
Proof.
  unfold fromKtxCache.
  destruct (getFile (_ktxCache c) hash) as [ktxFile|]; [|done].
  destruct (getKTX ktxFile) as [ktx|]; [|done].
  destruct (unserialize ktx) as [t|]; [|done]. simpl.
  set (hp2 := mkHeap _ _).
  assert (Hid : is_Some (objects hp2 !! nextId hp)).
  { simpl. rewrite lookup_alter_eq, lookup_insert_eq. by eexists. }
  pose proof (cacheTextureByHash_holder hp2 hash (Some (nextId hp)) c Hid) as Hh.
  destruct (cacheTextureByHash hp2 hash (Some (nextId hp)) c) as [c' texture].
  simpl in *. rewrite <- Hh. apply lock_is_strong.
Qed.

(** What [loadContent] does to the world of a live resource: it delivers a
    live texture, or it schedules one task. *)
Lemma loadContent_outcome
    (self : ResId) (content : QByteArray) (w : World) (this : NetworkTexture) :
  resources w !! self = Some this →
  let w' := loadContent self content w in
  let task := mkImageReader self (_url this) content (md5Hex content) (_maxNumPixels this) in
  (∀ other, other ≠ self → resources w' !! other = resources w !! other)
  ∧ queue w' = queue w
  ∧ (schedules task w w' ∨ delivers self w w').
Proof.
  intros Hthis w' task.
  assert (Hstart : ∀ w0, resources w0 = resources w → queue w0 = queue w →
            threadPool w0 = threadPool w → pendingProcessing w0 = pendingProcessing w →
            emitted w0 = emitted w →
            (∀ other, other ≠ self → resources (start task w0) !! other = resources w !! other)
            ∧ queue (start task w0) = queue w
            ∧ (schedules task w (start task w0) ∨ delivers self w (start task w0))).
  { intros w0 Hr Hq Hp Hs He. simpl.
    split; [by rewrite Hr|]. split; [done|]. left. unfold schedules. simpl.
    by rewrite Hr, Hp, Hs, He. }
  assert (Hdeliver : ∀ w0 id, resources w0 = resources w → queue w0 = queue w →
            threadPool w0 = threadPool w → pendingProcessing w0 = pendingProcessing w →
            emitted w0 = emitted w → is_Some (objects (heap w0) !! id) →
            let wd := setImage self (Some id) (width (deref (heap w0) id))
                        (height (deref (heap w0) id)) w0 in
            (∀ other, other ≠ self → resources wd !! other = resources w !! other)
            ∧ queue wd = queue w
            ∧ (schedules task w wd ∨ delivers self w wd)).
  { intros w0 id Hr Hq Hp Hs He [t Ht] wd.
    assert (Hthis0 : resources w0 !! self = Some this) by (by rewrite Hr).
    destruct (setImage_live self (Some id) (width (deref (heap w0) id))
                (height (deref (heap w0) id)) w0 this Hthis0)
      as (this' & H1 & _ & H3 & _ & H5 & H6 & H7 & H8 & H9 & H10 & H11).
    destruct (setImage_frame self (Some id) (width (deref (heap w0) id))
                (height (deref (heap w0) id)) w0) as (Hh & _ & Hq' & _).
    assert (Hpend : pendingProcessing wd = pendingProcessing w0).
    { unfold wd, setImage. by rewrite Hthis0. }
    fold wd in H1, H8, H9, Hh, Hq'.
    assert (Hderef : deref (heap w0) id = t) by (unfold deref; by rewrite Ht).
    rewrite Hderef in *.
    split; [intros other Hne; unfold wd; by rewrite setImage_others, Hr|].
    split; [congruence|]. right.
    split; [congruence|]. split; [congruence|]. split; [congruence|].
    exists this', id, t. rewrite Hh. by split_and!. }
  unfold w', loadContent. rewrite Hthis. fold task.
  destruct (_cache this); [|exact (Hstart w eq_refl eq_refl eq_refl eq_refl eq_refl)].
  destruct (textureCache w) as [c|] eqn:Hc;
    [|exact (Hstart w eq_refl eq_refl eq_refl eq_refl eq_refl)].
  rewrite getTextureByHash_result.
  destruct (liveEntry (heap w) (_texturesByHashes c) (md5Hex content)) as [id|] eqn:Hl.
  - apply lock_Some in Hl as [_ Halive].
    match goal with
    | |- context [setImage _ _ _ _ ?w0] =>
        exact (Hdeliver w0 id eq_refl eq_refl eq_refl eq_refl eq_refl Halive)
    end.
  - pose proof (fromKtxCache_strong (md5Hex content)
                  (set_texturesByHashes (subscript (_texturesByHashes c) (md5Hex content)).1 c)
                  (heap w)) as Hs.
    destruct (fromKtxCache _ _ (heap w)) as [[[id|] c2] hp2]; simpl in Hs.
    + match goal with
      | |- context [setImage _ _ _ _ ?w0] =>
          exact (Hdeliver w0 id eq_refl eq_refl eq_refl eq_refl eq_refl Hs)
      end.
    + match goal with
      | |- context [start _ ?w0] =>
          exact (Hstart w0 eq_refl eq_refl eq_refl eq_refl eq_refl)
      end.
Qed.

(** X6. [loadContent] on a live resource ends in one of two ways: one task
    for the content is scheduled and the statistic is one higher, or the
    resource is loaded with a live texture whose dimensions it has taken over
    and [networkTextureCreated] is emitted.  The other resources and the
    queue are untouched, and without caching or without a texture cache it
    is always the scheduling. *)
Theorem loadContent_delivers_or_schedules
    (self : ResId) (content : QByteArray) (w : World) (this : NetworkTexture) :
  resources w !! self = Some this →
  let w' := loadContent self content w in
  let task := mkImageReader self (_url this) content (md5Hex content) (_maxNumPixels this) in
  (∀ other, other ≠ self → resources w' !! other = resources w !! other)
  ∧ queue w' = queue w
  ∧ (schedules task w w' ∨ delivers self w w')
  ∧ (_cache this = false ∨ textureCache w = None → w' = start task w).
Proof.
  intros Hthis w' task.
  destruct (loadContent_outcome self content w this Hthis) as (Ho & Hq & Hd).
  do 3 (split; [done|]).
  unfold w', loadContent. rewrite Hthis. fold task.
  intros [->|Hno]; [done|]. rewrite Hno. by destruct (_cache this).
Qed.

(** X8. A task whose resource has been destroyed before it runs creates
    nothing and delivers nothing: the block and [read] leave the world as it
    was, and [run] only takes the statistic down by one. *)
Theorem task_without_resource_does_nothing
    (others : World → World) (task : ImageReader) (w : World) :
  resources w !! _resource task = None →
  read_decode task w = Returned (w, None)
  ∧ read others task w = Returned w
  ∧ run others task w = Returned (set_pendingProcessing (pendingProcessing w - 1) w).
Proof.
  intros Hgone.
  assert (Hd : read_decode task w = Returned (w, None)).
  { unfold read_decode. destruct (notLoaded (parse task)); [done|].
    destruct (downscale _ _) as [[? ?] ?]. by rewrite Hgone. }
  split; [done|]. split.
  - unfold read. by rewrite Hd.
  - unfold run. simpl. by rewrite Hgone.
Qed.

(** X7. The constructor of [Reader] raises the [PendingProcessing]
    statistic by one and a [run] that returns lowers it by one, so that a
    task that was started and has run leaves the statistic where it was, as
    long as the other threads keep it. *)
Theorem run_balances_PendingProcessing
    (others : World → World) (task : ImageReader) (w w' : World) :
  (∀ x, pendingProcessing (others x) = pendingProcessing x) →
  run others task (start task w) = Returned w' →
  pendingProcessing (start task w) = (pendingProcessing w + 1)%Z
  ∧ pendingProcessing w' = pendingProcessing w.
Proof.
  intros Hothers Hrun. split; [done|]. revert Hrun. unfold run.
  set (w0 := set_pendingProcessing _ _).
  assert (Hp0 : pendingProcessing w0 = pendingProcessing w) by (simpl; lia).
  destruct (resources w0 !! _resource task); [|by intros [= <-]].
  unfold read.
  destruct (read_decode task w0) as [[w1 decoded]| | |] eqn:Hd; simpl; [|done..].
  destruct (read_decode_frame task w0 w1 decoded Hd) as (_ & _ & _ & _ & _ & _ & Hp1 & _).
  destruct decoded as [d|]; intros [= <-]; [|congruence].
  set (wa := assign _ _ w1).
  assert (Hpa : pendingProcessing wa = pendingProcessing w1).
  { unfold wa.
    match goal with
    | |- pendingProcessing (assign ?p ?q ?x) = _ =>
        destruct (assign_frame p q x) as (_ & _ & _ & _ & _ & Hpa & _); exact Hpa
    end. }
  destruct (release_frame (decoded_texture d) (read_deliver task d (others wa)))
    as (_ & _ & _ & _ & _ & -> & _).
  unfold read_deliver.
  destruct (resources (others wa) !! _resource task); simpl; rewrite Hothers; congruence.
Qed.

(** X4. [createResource] registers a resource with the type, content and
    pixel budget of the [TextureExtra], or with DEFAULT_TEXTURE, no content
    and [ABSOLUTE_MAX_TEXTURE_NUM_PIXELS] for a null pointer; the resource
    holds no texture, is loaded exactly when the URL is invalid, and a
    [loadContent] is queued, and loading marked as started, exactly when
    there is inline content.  Nothing else changes. *)
Theorem createResource_queues_only_inline_content
    (ABSOLUTE_MAX_TEXTURE_NUM_PIXELS : Z) (self : ResId) (url : QUrl)
    (extra : option TextureExtra) (w : World) :
  let w' := createResource ABSOLUTE_MAX_TEXTURE_NUM_PIXELS self url extra w in
  let content := from_option extra_content [] extra in
  (∃ this,
     resources w' !! self = Some this
     ∧ _type this = from_option extra_type DEFAULT_TEXTURE extra
     ∧ _maxNumPixels this
       = from_option extra_maxNumPixels ABSOLUTE_MAX_TEXTURE_NUM_PIXELS extra
     ∧ _url this = url
     ∧ _textureSource this = None
     ∧ (_loaded this = negb (isValid url))
     ∧ (_startedLoading this = true ↔ content ≠ []))
  ∧ (∀ other, other ≠ self → resources w' !! other = resources w !! other)
  ∧ queue w' = queue w ++ (if content is [] then [] else [invoke_loadContent self content])
  ∧ heap w' = heap w ∧ textureCache w' = textureCache w
  ∧ threadPool w' = threadPool w ∧ emitted w' = emitted w.
Proof.
  unfold createResource, NetworkTexture_new.
  destruct extra as [[type content maxNumPixels]|]; simpl.
  - destruct content as [|b content]; simpl.
    + split.
      { eexists. split; [apply lookup_insert_eq|]. by destruct (isValid url). }
      split; [intros other Hne; by rewrite lookup_insert_ne|].
      by rewrite app_nil_r.
    + split.
      { eexists. split; [apply lookup_insert_eq|]. by destruct (isValid url). }
      split; [intros other Hne; by rewrite lookup_insert_ne|]. done.
  - split.
    { eexists. split; [apply lookup_insert_eq|]. by destruct (isValid url). }
    split; [intros other Hne; by rewrite lookup_insert_ne|].
    by rewrite app_nil_r.
Qed.


(** X12. The original dimensions that a task hands on are those of the
    parsed image when its pixel count (as an [int] product) is within the
    budget, and the two scaled dimensions when it is above. *)
Theorem read_decode_delivers_budgeted_dimensions
    (task : ImageReader) (w w1 : World) (d : Decoded) :
  read_decode task w = Returned (w1, Some d) →
  let image := parse task in
  let numPixels := int_mul (image_width image) (image_height image) in
  ((numPixels ≤ reader_maxNumPixels task)%Z →
     decoded_width d = image_width image ∧ decoded_height d = image_height image)
  ∧ ((reader_maxNumPixels task < numPixels)%Z →
       decoded_width d
       = scaledDimension (reader_maxNumPixels task) numPixels (image_width image)
       ∧ decoded_height d
         = scaledDimension (reader_maxNumPixels task) numPixels (image_height image)).
Proof.
  intros Hd image numPixels.
  destruct (read_decode_cases task w w1 (Some d) Hd)
    as [[_ ?]|(networkTexture & t & _ & _ & _ & _ & Hdec)]; [done|].
  cbv zeta in Hdec. injection Hdec as ->. simpl.
  unfold downscale. fold image numPixels.
  destruct (Z.gtb_spec numPixels (reader_maxNumPixels task)); simpl.
  - split; [lia|done].
  - split; [done|lia].
Qed.

(** X3. [getImageTexture] fails exactly for CUSTOM_TEXTURE: in a build with
    assertions it stops at the [Q_ASSERT(false)] of [getTextureLoaderForType],
    in a build without them ([QT_NO_DEBUG]) it throws [std::bad_function_call]
    on calling the empty loader; it never dereferences null.  When it
    returns, the type is another one, older textures are kept, and the result
    is null (and nothing changed) or the one new texture, which is what the
    transform of the type made of the image and the file name. *)
Theorem getImageTexture_fails_only_for_custom
    (imageOfFile : string → QImage) (localFileName : string → string)
    (path : string) (type : TextureType) (generateIrradiance : bool) (hp : Heap) :
  let r := getImageTexture imageOfFile localFileName path type generateIrradiance hp in
  (r = AssertionFailed ↔ type = CUSTOM_TEXTURE ∧ QT_NO_DEBUG = false)
  ∧ (r = BadFunctionCall ↔ type = CUSTOM_TEXTURE ∧ QT_NO_DEBUG = true)
  ∧ r ≠ NullDereference
  ∧ ∀ texture hp', r = Returned (texture, hp') →
      type ≠ CUSTOM_TEXTURE
      ∧ ∃ loader,
          getTextureLoaderForType type generateIrradiance = Returned loader
          ∧ olderKept hp hp' ∧ strong hp' texture
          ∧ (texture = None → hp' = hp)
          ∧ (∀ id, texture = Some id → id = nextId hp
               ∧ (objects hp' !! id)
                 = textureUsage loader (imageOfFile path) (localFileName path)).
Proof.
  intros r. unfold r, getImageTexture.
  assert (Hc : type = CUSTOM_TEXTURE ∨ type ≠ CUSTOM_TEXTURE)
    by (destruct type; first [by left | by right]).
  destruct Hc as [->|Hne].
  { rewrite getTextureLoaderForType_custom.
    destruct QT_NO_DEBUG; simpl; split_and!; try done;
      split; try done; by intros [_ ?]. }
  destruct (getTextureLoaderForType_other type generateIrradiance Hne)
    as (loader & -> & Hfull). simpl.
  pose proof (call_BadFunctionCall loader (imageOfFile path) (localFileName path)) as Hbad.
  destruct (call loader (imageOfFile path) (localFileName path))
    as [raw| | |] eqn:Hcall; simpl.
  - split; [split; [done|by intros [? _]]|].
    split; [split; [done|by intros [? _]]|].
    split; [done|].
    intros texture hp' [= Hr]. split; [done|]. exists loader. split; [done|].
    assert (Hraw : raw = textureUsage loader (imageOfFile path) (localFileName path)).
    { unfold call in Hcall. destruct loader; congruence. }
    destruct raw as [t|]; simpl in Hr; injection Hr as <- <-.
    + split; [apply olderKept_alloc|]. simpl. rewrite lookup_insert_eq.
      split; [by eexists|]. split; [done|]. intros id [= <-].
      split; [done|]. by rewrite lookup_insert_eq.
    + split; [apply olderKept_refl|]. done.
  - by destruct (call_not_NullDereference _ _ _ Hcall).
  - destruct Hfull. by apply Hbad.
  - by destruct (call_not_AssertionFailed _ _ _ Hcall).
Qed.

End RestProperties.

Module Runs.
Import Example Cases.

Lemma oneWaiting_settled : settled (oneWaiting DEFAULT_TEXTURE emptyFunction).
Proof.
  split.
  - intros id [t Ht]. done.
  - intros c [= <-]. split.
    + split; [by left|]. split; by left.
    + intros hash id Hm. done.
Qed.

Lemma first_decode_touches_only_its_own :
  read_decode (taskFor smallImage) (oneWaiting DEFAULT_TEXTURE emptyFunction)
  = Returned (smallImageDecoded.1, Some smallImageDecoded.2)
  ∧ queue smallImageDecoded.1 = []
  ∧ option_Forall2 sameButFile
      (resources (oneWaiting DEFAULT_TEXTURE emptyFunction) !! 1%positive)
      (resources smallImageDecoded.1 !! 1%positive).
Proof.
  assert (Hd : read_decode (taskFor smallImage) (oneWaiting DEFAULT_TEXTURE emptyFunction)
               = Returned (smallImageDecoded.1, Some smallImageDecoded.2))
    by (vm_compute; reflexivity).
  split; [exact Hd|].
  destruct (read_decode_touches_only_its_own _ _ _ _ Hd)
    as (_ & _ & Hsame & Hq & _).
  split; [exact Hq|exact Hsame].
Defined.

Lemma first_decode_labels_its_texture :
  notLoaded (parse (taskFor smallImage)) = false
  ∧ resources (oneWaiting NORMAL_TEXTURE emptyFunction) !! _resource (taskFor smallImage)
    = Some (waiting NORMAL_TEXTURE emptyFunction)
  ∧ ∃ w1 t1,
      objects (heap w1) !! 1%positive = Some t1
      ∧ source t1 = "http://example.com/a.png"
      ∧ width t1 = 2%Z ∧ height t1 = 1%Z
      ∧ getFallbackTexture (waiting NORMAL_TEXTURE emptyFunction) w1
        = (fallbackTexture t1, w1).
Proof.
  split; [reflexivity|]. split; [reflexivity|].
  destruct (read_decode_labels_its_texture
              (taskFor smallImage) (oneWaiting NORMAL_TEXTURE emptyFunction)
              (waiting NORMAL_TEXTURE emptyFunction) smallTexture
              eq_refl eq_refl eq_refl)
    as (w1 & d & t1 & _ & Ht1 & Hs & Hw & Hh & Hf).
  exists w1, t1. split; [exact Ht1|]. split; [exact Hs|].
  split; [exact Hw|]. split; [exact Hh|exact Hf].
Defined.

Lemma second_decode_adopts_the_first :
  read_decode (taskFor smallImage) smallImageDecoded.1
  = Returned (smallImageDecodedAgain.1, Some smallImageDecodedAgain.2)
  ∧ textureCache smallImageDecoded.1 = Some decodedCache
  ∧ liveEntry (heap smallImageDecoded.1) (_texturesByHashes decodedCache)
              (_hash (taskFor smallImage)) = Some 1%positive
  ∧ decoded_texture smallImageDecodedAgain.2 = Some 1%positive.
Proof.
  assert (Hd : read_decode (taskFor smallImage) smallImageDecoded.1
               = Returned (smallImageDecodedAgain.1, Some smallImageDecodedAgain.2))
    by (vm_compute; reflexivity).
  assert (Hc : textureCache smallImageDecoded.1 = Some decodedCache)
    by (vm_compute; reflexivity).
  assert (Hl : liveEntry (heap smallImageDecoded.1) (_texturesByHashes decodedCache)
                         (_hash (taskFor smallImage)) = Some 1%positive)
    by (vm_compute; reflexivity).
  split; [exact Hd|]. split; [exact Hc|]. split; [exact Hl|].
  exact (proj1 (read_decode_adopts_live_holder _ _ _ _ _ _ Hd Hc Hl)).
Defined.

Lemma first_decode_registers_its_own :
  wfRegistry (heap (oneWaiting DEFAULT_TEXTURE emptyFunction)) (_texturesByHashes emptyCache)
  ∧ read_decode (taskFor smallImage) (oneWaiting DEFAULT_TEXTURE emptyFunction)
    = Returned (smallImageDecoded.1, Some smallImageDecoded.2)
  ∧ textureCache (oneWaiting DEFAULT_TEXTURE emptyFunction) = Some emptyCache
  ∧ liveEntry (heap (oneWaiting DEFAULT_TEXTURE emptyFunction))
              (_texturesByHashes emptyCache) (_hash (taskFor smallImage)) = None
  ∧ decoded_texture smallImageDecoded.2 = Some 1%positive.
Proof.
  assert (Hwf : wfRegistry (heap (oneWaiting DEFAULT_TEXTURE emptyFunction))
                           (_texturesByHashes emptyCache)).
  { exact (proj2 (proj2 oneWaiting_settled emptyCache eq_refl)). }
  assert (Hd : read_decode (taskFor smallImage) (oneWaiting DEFAULT_TEXTURE emptyFunction)
               = Returned (smallImageDecoded.1, Some smallImageDecoded.2))
    by (vm_compute; reflexivity).
  split; [exact Hwf|]. split; [exact Hd|]. split; [reflexivity|]. split; [reflexivity|].
  exact (proj1 (read_decode_registers_its_own _ _ _ _ _ Hwf Hd eq_refl eq_refl)).
Defined.



Lemma settled_example_stays_settled :
  settled (oneWaiting DEFAULT_TEXTURE emptyFunction)
  ∧ settled (loadContent 1%positive smallImage (oneWaiting DEFAULT_TEXTURE emptyFunction))
  ∧ settled (getFallbackTextureForType NORMAL_TEXTURE
               (oneWaiting DEFAULT_TEXTURE emptyFunction)).2.
Proof.
  split; [exact oneWaiting_settled|].
  destruct (settled_is_kept _ oneWaiting_settled) as (Hf & Hl & _).
  split; [exact (Hl 1%positive smallImage)|exact (Hf NORMAL_TEXTURE)].
Defined.

Lemma content_for_a_waiting_resource_keeps_the_queue :
  resources (oneWaiting DEFAULT_TEXTURE emptyFunction) !! 1%positive
  = Some (waiting DEFAULT_TEXTURE emptyFunction)
  ∧ queue (loadContent 1%positive smallImage (oneWaiting DEFAULT_TEXTURE emptyFunction))
    = queue (oneWaiting DEFAULT_TEXTURE emptyFunction).
Proof.
  split; [reflexivity|].
  destruct (loadContent_delivers_or_schedules
              1%positive smallImage (oneWaiting DEFAULT_TEXTURE emptyFunction)
              (waiting DEFAULT_TEXTURE emptyFunction) eq_refl) as (_ & Hq & _).
  exact Hq.
Defined.

Lemma task_in_an_empty_world_does_nothing :
  resources emptyWorld !! _resource (taskFor smallImage) = None
  ∧ read id (taskFor smallImage) emptyWorld = Returned emptyWorld.
Proof.
  split; [reflexivity|].
  destruct (task_without_resource_does_nothing id (taskFor smallImage) emptyWorld eq_refl)
    as (_ & Hr & _).
  exact Hr.
Defined.

Lemma started_and_run_is_balanced :
  (∀ x : World, pendingProcessing (id x) = pendingProcessing x)
  ∧ run id (taskFor smallImage)
        (start (taskFor smallImage) (oneWaiting DEFAULT_TEXTURE emptyFunction))
    = Returned ranOnce
  ∧ pendingProcessing ranOnce = pendingProcessing (oneWaiting DEFAULT_TEXTURE emptyFunction).
Proof.
  assert (Ho : ∀ x : World, pendingProcessing (id x) = pendingProcessing x)
    by (intros x; reflexivity).
  assert (Hr : run id (taskFor smallImage)
                 (start (taskFor smallImage) (oneWaiting DEFAULT_TEXTURE emptyFunction))
               = Returned ranOnce) by (vm_compute; reflexivity).
  split; [exact Ho|]. split; [exact Hr|].
  exact (proj2 (run_balances_PendingProcessing id _ _ _ Ho Hr)).
Defined.


Lemma small_image_keeps_its_dimensions :
  read_decode (taskFor smallImage) (oneWaiting DEFAULT_TEXTURE emptyFunction)
  = Returned (smallImageDecoded.1, Some smallImageDecoded.2)
  ∧ (int_mul 2 1 ≤ reader_maxNumPixels (taskFor smallImage))%Z
  ∧ decoded_width smallImageDecoded.2 = 2%Z
  ∧ decoded_height smallImageDecoded.2 = 1%Z.
Proof.
  assert (Hd : read_decode (taskFor smallImage) (oneWaiting DEFAULT_TEXTURE emptyFunction)
               = Returned (smallImageDecoded.1, Some smallImageDecoded.2))
    by (vm_compute; reflexivity).
  assert (Hle : (int_mul 2 1 ≤ reader_maxNumPixels (taskFor smallImage))%Z)
    by (vm_compute; discriminate).
  split; [exact Hd|]. split; [exact Hle|].
  exact (proj1 (read_decode_delivers_budgeted_dimensions _ _ _ _ Hd) Hle).
Defined.

End Runs.
